(** * Anti-Phishing Guardian: the URL analysis and scoring engine

    A shallow embedding of [src/utils/url-parser.js], [src/ml/pattern-detector.js],
    [src/utils/ssl-validator.js], [src/utils/storage.js], the reputation lookup
    [ThreatIntelligence.checkPhishTank] and the aggregator
    [src/utils/phishing-detector.js], with the constants of [constants.js].

    Conventions of the embedding.
    - A JavaScript string is a Rocq [string] holding its UTF-8 bytes.  Equality,
      [includes], [startsWith], [endsWith] and [split] on an ASCII separator
      are the same on the bytes as on the code units; [.length] is
      [utf16_length], the number of UTF-16 code units of the text.
    - Integral JavaScript numbers are [Z]; the numbers that are genuine
      doubles (entropy, confidence) are rationals [Q].
    - The browser is a [Platform]: the [URL] constructor, [toLowerCase],
      [Math.log2] and [window.location.protocol] are its fields.
    - [async] code runs in the monad [M]: a state [World] (clock, the two
      [chrome.storage] areas, the worker, the notification log) and thrown
      errors ([Throw]).  One call of a public operation runs at one reading
      of the clock. *)

From Stdlib Require Import String Ascii List ZArith NArith QArith Bool Lia.
From Stdlib Require Import DecimalString Qround.
Import ListNotations.

Open Scope string_scope.
Open Scope Z_scope.

(** ** JavaScript strings *)

Module JS.

Definition code (c : ascii) : Z := Z.of_N (N_of_ascii c).

Definition chr (z : Z) : ascii := ascii_of_N (Z.to_N z).

Definition in_range (lo hi : Z) (c : ascii) : bool :=
  (lo <=? code c) && (code c <=? hi).

Definition is_digit : ascii -> bool := in_range 48 57.
Definition is_upper : ascii -> bool := in_range 65 90.
Definition is_lower : ascii -> bool := in_range 97 122.
Definition is_alnum (c : ascii) : bool := is_digit c || is_upper c || is_lower c.
Definition is_hex (c : ascii) : bool :=
  is_digit c || in_range 65 70 c || in_range 97 102 c.

(** ASCII case mapping, used by case-insensitive regular expressions and by
    the example platform. *)
Definition lower_ascii (c : ascii) : ascii :=
  if is_upper c then chr (code c + 32) else c.

Fixpoint ascii_toLowerCase (s : string) : string :=
  match s with
  | EmptyString => EmptyString
  | String c s' => String (lower_ascii c) (ascii_toLowerCase s')
  end.

(** [s.startsWith(p)] *)
Definition startsWith (s p : string) : bool := String.prefix p s.

(** [s.includes(sub)] *)
Fixpoint includes (s sub : string) : bool :=
  startsWith s sub ||
  match s with
  | EmptyString => false
  | String _ s' => includes s' sub
  end.

(** [s.endsWith(suf)] *)
Definition endsWith (s suf : string) : bool :=
  let n := String.length s in
  let k := String.length suf in
  (k <=? n)%nat && String.eqb (substring (n - k) k s) suf.

(** [s.split(sep)] for a one-character separator. *)
Fixpoint split_aux (sep : ascii) (s : string) (cur : string) : list string :=
  match s with
  | EmptyString => [cur]
  | String c s' =>
      if Ascii.eqb c sep then cur :: split_aux sep s' EmptyString
      else split_aux sep s' (cur ++ String c EmptyString)
  end.

Definition split (sep : ascii) (s : string) : list string :=
  split_aux sep s EmptyString.

(** [parts.join(sep)] *)
Definition join (sep : string) (parts : list string) : string :=
  String.concat sep parts.

(** [parts.slice(-n)] *)
Definition slice_last {A} (n : nat) (l : list A) : list A :=
  skipn (List.length l - n) l.

(** [s.replace(new RegExp(c, 'g'), sub)] for a one-letter pattern [c]. *)
Fixpoint replace_all (c : ascii) (sub : string) (s : string) : string :=
  match s with
  | EmptyString => EmptyString
  | String d s' =>
      (if Ascii.eqb d c then sub else String d EmptyString) ++ replace_all c sub s'
  end.

(** [s.replace(/\/$/, '')]: drop one trailing slash. *)
Fixpoint strip_trailing_slash (s : string) : string :=
  match s with
  | EmptyString => EmptyString
  | String c EmptyString => if Ascii.eqb c "/" then EmptyString else s
  | String c s' => String c (strip_trailing_slash s')
  end.

(** [(s.match(/[class]/g) || []).length] *)
Fixpoint count_chars (p : ascii -> bool) (s : string) : Z :=
  match s with
  | EmptyString => 0
  | String c s' => (if p c then 1 else 0) + count_chars p s'
  end.

(** [s.length]: UTF-16 code units of a text given by its UTF-8 bytes.  Every
    byte that is not a continuation byte starts a code point; a four-byte
    sequence (lead byte from 0xF0) is a surrogate pair. *)
Definition is_continuation (c : ascii) : bool := in_range 128 191 c.

Definition utf16_length (s : string) : Z :=
  count_chars (fun c => negb (is_continuation c)) s
  + count_chars (in_range 240 255) s.

(** The UTF-8 bytes of a code point of the Basic Multilingual Plane. *)
Definition utf8 (cp : Z) : string :=
  if cp <? 128 then String (chr cp) EmptyString
  else if cp <? 2048 then
    String (chr (192 + Z.shiftr cp 6))
      (String (chr (128 + Z.land cp 63)) EmptyString)
  else
    String (chr (224 + Z.shiftr cp 12))
      (String (chr (128 + Z.land (Z.shiftr cp 6) 63))
         (String (chr (128 + Z.land cp 63)) EmptyString)).

(** [String(n)] for an integer. *)
Definition of_int (z : Z) : string := NilZero.string_of_int (Z.to_int z).

(** [parseInt(s)] on a string of decimal digits ([None] is [NaN]). *)
Fixpoint parse_digits (s : string) (acc : option Z) : option Z :=
  match s with
  | EmptyString => acc
  | String c s' =>
      if is_digit c then
        parse_digits s' (Some (10 * match acc with Some a => a | None => 0 end
                               + (code c - 48)))
      else acc
  end.

Definition parseInt (s : string) : option Z := parse_digits s None.

(** [list.includes(x)] on strings. *)
Definition list_includes (l : list string) (x : string) : bool :=
  existsb (String.eqb x) l.

End JS.

(** ** Regular expressions

    The patterns of the source are tested with [RegExp.prototype.test]; they
    use classes, alternation, bounded repetition and [.*].  [test] is decided
    by derivatives. *)

Module Regex.

Inductive regex : Type :=
| Never
| Eps
| Cls (p : ascii -> bool)
| Cat (r s : regex)
| Alt (r s : regex)
| Star (r : regex).

Fixpoint nullable (r : regex) : bool :=
  match r with
  | Never => false
  | Eps => true
  | Cls _ => false
  | Cat r s => nullable r && nullable s
  | Alt r s => nullable r || nullable s
  | Star _ => true
  end.

Definition cat (r s : regex) : regex :=
  match r, s with
  | Never, _ => Never
  | _, Never => Never
  | Eps, _ => s
  | _, Eps => r
  | _, _ => Cat r s
  end.

Definition alt (r s : regex) : regex :=
  match r, s with
  | Never, _ => s
  | _, Never => r
  | _, _ => Alt r s
  end.

Fixpoint deriv (c : ascii) (r : regex) : regex :=
  match r with
  | Never => Never
  | Eps => Never
  | Cls p => if p c then Eps else Never
  | Cat r s =>
      alt (cat (deriv c r) s) (if nullable r then deriv c s else Never)
  | Alt r s => alt (deriv c r) (deriv c s)
  | Star r => cat (deriv c r) (Star r)
  end.

(** The whole string matches [r]: a pattern anchored by [^] and [$]. *)
Fixpoint matches (r : regex) (s : string) : bool :=
  match s with
  | EmptyString => nullable r
  | String c s' => matches (deriv c r) s'
  end.

Definition any : regex := Cls (fun _ => true).

(** [r.test(s)] for a pattern without anchors: a match starts anywhere. *)
Definition test (r : regex) (s : string) : bool :=
  matches (Cat (Star any) (Cat r (Star any))) s.

Definition chr (c : ascii) : regex := Cls (Ascii.eqb c).

(** [.] matches one character that is no line terminator: not LF, CR,
    U+2028 or U+2029.  On the bytes of the text, LF and CR are one byte each
    and the other two are [E2 80 A8] and [E2 80 A9]; a byte [E2] starts a
    character of three bytes, which [.] takes whole unless it is one of the
    two, and every other byte is taken on its own.  The patterns have [.]
    under a star only, where taking the bytes of the other characters one at
    a time matches the same texts. *)
Definition dot : regex :=
  let except (l : list ascii) : regex :=
    Cls (fun c => negb (existsb (Ascii.eqb c) l)) in
  Alt (except ["010"; "013"; "226"]%char)
      (Cat (chr "226")
         (Alt (Cat (except ["128"]%char) any)
              (Cat (chr "128") (except ["168"; "169"]%char)))).

(** A letter under the [i] flag. *)
Definition chr_i (c : ascii) : regex :=
  Cls (fun d => Ascii.eqb (JS.lower_ascii d) (JS.lower_ascii c)).

Fixpoint lit (s : string) : regex :=
  match s with
  | EmptyString => Eps
  | String c s' => Cat (chr c) (lit s')
  end.

Fixpoint lit_i (s : string) : regex :=
  match s with
  | EmptyString => Eps
  | String c s' => Cat (chr_i c) (lit_i s')
  end.

Fixpoint alts (l : list regex) : regex :=
  match l with
  | [] => Never
  | [r] => r
  | r :: l' => Alt r (alts l')
  end.

Definition words_i (l : list string) : regex := alts (map lit_i l).

Definition opt (r : regex) : regex := Alt Eps r.
Definition plus (r : regex) : regex := Cat r (Star r).
Definition digit : regex := Cls JS.is_digit.

(** [\d{1,3}] *)
Definition digit_1_3 : regex := Cat digit (Cat (opt digit) (opt digit)).

End Regex.

(** ** The platform and the data model *)

(** The fields of a [URL] object that the program reads. *)
Record URL : Type := mkURL {
  url_protocol : string;
  url_username : string;
  url_hostname : string;
  url_port : string;
  url_pathname : string;
  url_searchParams : list (string * string)
}.

Class Platform : Type := {
  (** [new URL(s)]; [None] when the constructor throws its [TypeError]. *)
  new_URL : string -> option URL;
  (** The [message] of that [TypeError]. *)
  URL_error : string;
  (** [String.prototype.toLowerCase]. *)
  toLowerCase : string -> string;
  (** [Math.log2]. *)
  Math_log2 : Q -> Q;
  (** [window.location.protocol], or [None] where [window] is undefined. *)
  window_protocol : option string
}.

Inductive Severity : Type := low | medium | high.

Definition Severity_eqb (a b : Severity) : bool :=
  match a, b with
  | low, low | medium, medium | high, high => true
  | _, _ => false
  end.

Inductive ThreatLevel : Type := safe | suspicious | dangerous | unknown.

Definition ThreatLevel_eqb (a b : ThreatLevel) : bool :=
  match a, b with
  | safe, safe | suspicious, suspicious
  | dangerous, dangerous | unknown, unknown => true
  | _, _ => false
  end.

(** An issue; [mlScore] and [recommendation] are the extra fields that the
    pattern scorer and the TLS checks attach. *)
Record Issue : Type := mkIssue {
  type : string;
  severity : Severity;
  message : string;
  mlScore : option Z;
  recommendation : option string
}.

Definition issue (t : string) (s : Severity) (m : string) : Issue :=
  mkIssue t s m None None.

Definition count_severity (s : Severity) (issues : list Issue) : Z :=
  Z.of_nat (List.length (filter (fun i => Severity_eqb (severity i) s) issues)).

(** Thrown errors. *)
Inductive exc (A : Type) : Type :=
| Ok (a : A)
| Throw (msg : string).
Arguments Ok {A} a.
Arguments Throw {A} msg.

(** ** constants.js *)

Module Constants.

Definition PHISHING_KEYWORDS : list string := [
  "verify"; "account"; "suspended"; "confirm"; "update"; "validate";
  "reactivate"; "locked"; "blocked"; "restricted"; "frozen";
  "urgent"; "immediately"; "act now"; "limited time"; "expire"; "expires";
  "deadline"; "final notice"; "last chance"; "hurry"; "act fast";
  "password"; "security"; "alert"; "warning"; "unusual activity";
  "suspicious"; "unauthorized"; "breach"; "compromised"; "hacked";
  "winner"; "prize"; "reward"; "congratulations"; "won"; "lottery";
  "million"; "inheritance"; "fund"; "transfer"; "claim";
  "click here"; "click below"; "verify now"; "confirm now"; "update now";
  "download"; "open attachment"; "see details"; "view message";
  "refund"; "tax"; "irs"; "payment"; "invoice"; "overdue"; "debt";
  "owed"; "billing"; "charge"; "transaction"; "purchase";
  "free"; "guarantee"; "risk-free"; "no cost"; "100%"; "amazing offer";
  "special promotion"; "exclusive"; "selected"; "qualified";
  "login"; "sign in"; "credentials"; "username"; "ssn"; "social security";
  "re-enter"; "provide"; "submit"; "fill out";
  "customer service"; "support team"; "helpdesk"; "admin"; "administrator";
  "official"; "authorized"; "representative" ].

Definition SPAM_INDICATORS : list string := [
  "viagra"; "cialis"; "pharmacy"; "pills"; "medication"; "weight loss";
  "work from home"; "make money"; "earn $"; "get paid"; "income opportunity";
  "mlm"; "multi-level"; "investment opportunity"; "crypto gains";
  "bitcoin"; "forex"; "trading bot"; "guaranteed profit";
  "enlarge"; "enhancement"; "replica"; "luxury goods";
  "nigerian prince"; "beneficiary"; "next of kin"; "offshore";
  "unsubscribe"; "opt-out"; "remove me"; "mailing list" ].

Definition SUSPICIOUS_TLDS : list string := [
  ".tk"; ".ml"; ".ga"; ".cf"; ".gq"; ".xyz"; ".top";
  ".club"; ".work"; ".click"; ".link"; ".bid"; ".country" ].

Definition LEGITIMATE_DOMAINS : list string := [
  "google.com"; "gmail.com"; "outlook.com"; "microsoft.com";
  "apple.com"; "amazon.com"; "paypal.com"; "facebook.com";
  "twitter.com"; "linkedin.com"; "github.com"; "dropbox.com";
  "bankofamerica.com"; "chase.com"; "wellsfargo.com"; "citibank.com";
  "usbank.com"; "pnc.com"; "capitalone.com"; "tdbank.com";
  "barclays.com"; "hsbc.com"; "santander.com"; "deutsche-bank.com";
  "stripe.com"; "square.com"; "venmo.com"; "cashapp.com";
  "coinbase.com"; "binance.com"; "kraken.com"; "gemini.com";
  "ebay.com"; "walmart.com"; "target.com"; "bestbuy.com";
  "netflix.com"; "hulu.com"; "disneyplus.com"; "spotify.com";
  "instagram.com"; "tiktok.com"; "snapchat.com"; "reddit.com";
  "yahoo.com"; "protonmail.com"; "zoho.com"; "aol.com" ].

Definition TYPOSQUATTING_TARGETS : list string := [
  "google"; "facebook"; "amazon"; "microsoft"; "apple";
  "netflix"; "instagram"; "twitter"; "linkedin"; "youtube";
  "tiktok"; "snapchat"; "reddit"; "discord"; "telegram";
  "whatsapp"; "zoom"; "slack"; "github"; "gitlab";
  "paypal"; "stripe"; "square"; "venmo"; "cashapp";
  "coinbase"; "binance"; "kraken"; "gemini"; "robinhood";
  "bankofamerica"; "chase"; "wellsfargo"; "citibank"; "usbank";
  "pnc"; "capitalone"; "tdbank"; "bofa"; "citi";
  "barclays"; "hsbc"; "santander"; "deutschebank"; "bnpparibas";
  "creditsuis se"; "ing"; "natwest"; "lloydsbank"; "rbs";
  "ebay"; "walmart"; "target"; "bestbuy"; "costco";
  "homedepot"; "lowes"; "alibaba"; "aliexpress"; "etsy";
  "spotify"; "hulu"; "disneyplus"; "hbomax"; "primevideo";
  "twitch"; "vimeo"; "soundcloud"; "pandora";
  "gmail"; "outlook"; "yahoo"; "protonmail"; "icloud";
  "dropbox"; "onedrive"; "googledrive"; "icloud"; "box";
  "steam"; "epicgames"; "playstation"; "xbox"; "nintendo";
  "roblox"; "minecraft"; "fortnite"; "ea"; "ubisoft";
  "irs"; "usps"; "fedex"; "ups"; "dhl";
  "coursera"; "udemy"; "edx"; "khanacademy"; "duolingo";
  "adobe"; "salesforce"; "shopify"; "wordpress"; "squarespace" ].

Definition URL_SHORTENERS : list string := [
  "bit.ly"; "tinyurl.com"; "goo.gl"; "t.co"; "ow.ly";
  "is.gd"; "buff.ly"; "adf.ly"; "bit.do"; "short.link" ].

(** [PATTERNS.IP_ADDRESS = /^(?:\d{1,3}\.){3}\d{1,3}$/] *)
Definition IP_ADDRESS : Regex.regex :=
  let part := Regex.Cat Regex.digit_1_3 (Regex.chr ".") in
  Regex.Cat part (Regex.Cat part (Regex.Cat part Regex.digit_1_3)).

(** [PATTERNS.MULTIPLE_DOTS = /\.{2,}/] *)
Definition MULTIPLE_DOTS : Regex.regex :=
  Regex.Cat (Regex.chr ".") (Regex.plus (Regex.chr ".")).

(** [PATTERNS.ENCODED_CHARS = /%[0-9A-Fa-f]{2}/] *)
Definition ENCODED_CHARS : Regex.regex :=
  Regex.Cat (Regex.chr "%")
    (Regex.Cat (Regex.Cls JS.is_hex) (Regex.Cls JS.is_hex)).

(** [CACHE_DURATION[level.toUpperCase()] || CACHE_DURATION.SUSPICIOUS] *)
Definition CACHE_DURATION (l : ThreatLevel) : Z :=
  match l with
  | safe => 86400000
  | suspicious => 3600000
  | dangerous => 604800000
  | unknown => 3600000
  end.

End Constants.

(** ** url-parser.js *)

Module URLParser.

(** The table [homographs] of [hasHomographAttack], one row per Latin letter.
    Each lookalike is one character, listed by its code point; the rows hold
    the ASCII characters 0x31 (1), 0x6C (l), 0x7C (|), 0x49 (I), 0x30 (0)
    and 0x76 (v) among the accented, Greek, Cyrillic and Armenian ones. *)
Definition homographs : list (string * list Z) := [
  ("a", [0x430; 0x251; 0x3B1; 0x1EA1; 0x103; 0x105; 0xE0; 0xE1; 0xE2; 0xE3;
         0xE4; 0xE5; 0x101; 0x227; 0x1EA5; 0x1EA7; 0x1EA9; 0x1EAB; 0x1EAD;
         0x1EAF; 0x1EB1; 0x1EB3; 0x1EB5; 0x1EB7]);
  ("b", [0x42C; 0x44C; 0x1E03; 0x1E05; 0x1E07; 0x185]);
  ("c", [0x441; 0x3F2; 0x10B; 0xE7; 0x107; 0x109; 0x10D; 0x1E09]);
  ("d", [0x501; 0x1E0B; 0x1E0D; 0x1E0F; 0x1E11; 0x1E13; 0x10F; 0x111]);
  ("e", [0x435; 0x3B5; 0x117; 0x119; 0xE8; 0xE9; 0xEA; 0xEB; 0x113; 0x11B;
         0x229; 0x1E15; 0x1E17; 0x1E19; 0x1E1B; 0x1E1D; 0x1EBF; 0x1EC1;
         0x1EC3; 0x1EC5; 0x1EC7]);
  ("f", [0x1E1F; 0x192]);
  ("g", [0x121; 0x123; 0x11D; 0x1E7; 0x1F5; 0x1E21]);
  ("h", [0x4BB; 0x1E23; 0x1E25; 0x1E27; 0x1E29; 0x1E2B; 0x125; 0x127]);
  ("i", [0x456; 0x3B9; 0x31; 0x6C; 0x7C; 0x131; 0xEF; 0xEC; 0xED; 0xEE;
         0x129; 0x12B; 0x12D; 0x12F; 0x1D0; 0x209; 0x20B; 0x1E2D; 0x1E2F;
         0x1EC9; 0x1ECB]);
  ("j", [0x458; 0x135; 0x1F0]);
  ("k", [0x43A; 0x137; 0x1E31; 0x1E33; 0x1E35]);
  ("l", [0x4CF; 0x31; 0x49; 0x7C; 0x13A; 0x13C; 0x13E; 0x1E37; 0x1E39;
         0x1E3B; 0x1E3D; 0x142]);
  ("m", [0x43C; 0x1E41; 0x1E43]);
  ("n", [0x578; 0x1E45; 0x1E47; 0x1E49; 0x1E4B; 0x144; 0x146; 0x148; 0xF1;
         0x1F9; 0x235]);
  ("o", [0x43E; 0x3BF; 0x30; 0x22F; 0x1ECD; 0x1ECF; 0x14D; 0x14F; 0x151;
         0xF2; 0xF3; 0xF4; 0xF5; 0xF6; 0x1A1; 0x1D2; 0x1EB; 0x1ED; 0x20D;
         0x20F; 0x22B; 0x22D; 0x22F; 0x231; 0x1E4D; 0x1E4F; 0x1E51; 0x1E53;
         0x1ED1; 0x1ED3; 0x1ED5; 0x1ED7; 0x1ED9; 0x1EDB; 0x1EDD; 0x1EDF;
         0x1EE1; 0x1EE3]);
  ("p", [0x440; 0x3C1; 0x1E55; 0x1E57]);
  ("q", [0x51B; 0x566]);
  ("r", [0x433; 0x1E59; 0x1E5B; 0x1E5D; 0x1E5F; 0x155; 0x157; 0x159; 0x211;
         0x213]);
  ("s", [0x455; 0x15B; 0x1E61; 0x1E63; 0x1E65; 0x1E67; 0x1E69; 0x15D; 0x161;
         0x219]);
  ("t", [0x442; 0x1E6B; 0x1E6D; 0x1E6F; 0x1E71; 0x163; 0x165; 0x21B]);
  ("u", [0x3C5; 0x57D; 0xFC; 0xF9; 0xFA; 0xFB; 0x169; 0x16B; 0x16D; 0x16F;
         0x171; 0x173; 0x1B0; 0x1D4; 0x1D6; 0x1D8; 0x1DA; 0x1DC; 0x215;
         0x217; 0x1EE5; 0x1EE7; 0x1EE9; 0x1EEB; 0x1EED; 0x1EEF; 0x1EF1]);
  ("v", [0x3BD; 0x76; 0x1E7D; 0x1E7F]);
  ("w", [0x461; 0x1E81; 0x1E83; 0x1E85; 0x1E87; 0x1E89; 0x175]);
  ("x", [0x445; 0x3C7; 0x1E8B; 0x1E8D]);
  ("y", [0x443; 0x3B3; 0x1EF3; 0xFD; 0x177; 0xFF; 0x233; 0x1E8F; 0x1EF5;
         0x1EF7; 0x1EF9]);
  ("z", [0x17A; 0x17C; 0x17E; 0x1E91; 0x1E93; 0x1E95]) ].

Inductive Script : Type := Latin | Cyrillic | Greek | Armenian.

Definition Script_eqb (a b : Script) : bool :=
  match a, b with
  | Latin, Latin | Cyrillic, Cyrillic | Greek, Greek | Armenian, Armenian => true
  | _, _ => false
  end.

(** [scripts.add(x)] on a [Set]. *)
Definition set_add (x : Script) (s : list Script) : list Script :=
  if existsb (Script_eqb x) s then s else s ++ [x].

(** The script that the code of a character selects, if any. *)
Definition script_of_code (code : Z) : option Script :=
  if ((0x0041 <=? code) && (code <=? 0x005A))
     || ((0x0061 <=? code) && (code <=? 0x007A)) then Some Latin
  else if (0x0400 <=? code) && (code <=? 0x04FF) then Some Cyrillic
  else if (0x0370 <=? code) && (code <=? 0x03FF) then Some Greek
  else if (0x0530 <=? code) && (code <=? 0x058F) then Some Armenian
  else None.

(** [for (const char of text) { code = char.charCodeAt(0) ... }] over the
    UTF-8 bytes.  Every range tested lies below 0x800, so only characters of
    one or two bytes can select a script; the bytes of longer characters are
    passed over. *)
Fixpoint detectMixedScripts_from (text : string) (scripts : list Script)
  : list Script :=
  match text with
  | EmptyString => scripts
  | String b rest =>
      if JS.code b <? 128 then
        detectMixedScripts_from rest
          (match script_of_code (JS.code b) with
           | Some s => set_add s scripts
           | None => scripts
           end)
      else if JS.in_range 192 223 b then
        match rest with
        | String b2 rest' =>
            let code := Z.lor (Z.shiftl (Z.land (JS.code b) 31) 6)
                              (Z.land (JS.code b2) 63) in
            detectMixedScripts_from rest'
              (match script_of_code code with
               | Some s => set_add s scripts
               | None => scripts
               end)
        | EmptyString => scripts
        end
      else detectMixedScripts_from rest scripts
  end.

Definition detectMixedScripts (text : string) : list Script :=
  detectMixedScripts_from text [].

(** One row of the matrix of [levenshteinDistance]: [prev] is row [i-1] from
    column [j-1] on, [left] is [matrix[i][j-1]]; the result is row [i] from
    column [j] on. *)
Fixpoint lev_row (c2 : ascii) (str1 : string) (prev : list Z) (left : Z)
  : list Z :=
  match str1, prev with
  | String c1 str1', diag :: ((up :: _) as prev') =>
      let v :=
        if Ascii.eqb c2 c1 then diag
        else Z.min (diag + 1) (Z.min (left + 1) (up + 1)) in
      v :: lev_row c2 str1' prev' v
  | _, _ => []
  end.

(** Rows [1 .. str2.length], each from the one before. *)
Fixpoint lev_rows (str2 str1 : string) (i : Z) (prev : list Z) : list Z :=
  match str2 with
  | EmptyString => prev
  | String c2 str2' => lev_rows str2' str1 (i + 1) (i :: lev_row c2 str1 prev i)
  end.

Fixpoint first_row (str1 : string) (j : Z) : list Z :=
  match str1 with
  | EmptyString => [j]
  | String _ str1' => j :: first_row str1' (j + 1)
  end.

(** [levenshteinDistance(str1, str2) = matrix[str2.length][str1.length]] *)
Definition levenshteinDistance (str1 str2 : string) : Z :=
  List.last (lev_rows str2 str1 1 (first_row str1 0)) 0.

(** [substitutions] of [hasCharacterSubstitution], in insertion order. *)
Definition substitutions : list (ascii * list string) := [
  ("a"%char, ["4"; "@"]);
  ("e"%char, ["3"]);
  ("i"%char, ["1"; "l"; "!"]);
  ("o"%char, ["0"]);
  ("s"%char, ["5"; "$"]);
  ("l"%char, ["1"; "i"]);
  ("t"%char, ["7"]) ].

Definition popularDomains_sub : list string := [
  "paypal"; "amazon"; "google"; "microsoft"; "apple";
  "facebook"; "netflix"; "instagram"; "twitter"; "linkedin";
  "bankofamerica"; "chase"; "wellsfargo"; "citibank" ].

Definition popularDomains_path : list string := [
  "paypal.com"; "amazon.com"; "google.com"; "microsoft.com";
  "apple.com"; "facebook.com"; "netflix.com"; "bankofamerica.com";
  "chase.com"; "wellsfargo.com" ].

Definition commonTLDs : list string := [".com"; ".net"; ".org"; ".co"; ".io"].

Definition standardPorts : list string := ["80"; "443"; "8080"; "8443"].

Definition dangerousSchemes : list string :=
  ["javascript:"; "data:"; "blob:"; "file:"; "vbscript:"].

(** [extractDomain]: the last two labels. *)
Definition extractDomain (hostname : string) : string :=
  let parts := JS.split "." hostname in
  if (2 <=? List.length parts)%nat then JS.join "." (JS.slice_last 2 parts)
  else hostname.

(** The fields of a parser whose [parseURL] succeeded. *)
Record Fields : Type := mkFields {
  url : string;
  parsed : URL;
  hostname : string;
  domain : string;
  protocol : string;
  username : string
}.

(** A [URLParser] object after its constructor: either [parseURL] filled the
    fields, or the [URL] constructor threw and [this.parsed], [this.hostname],
    [this.domain] and [this.protocol] are [null]. *)
Inductive Parser : Type :=
| Parsed (f : Fields)
| Invalid (url : string).

Section Detectors.
Variable this : Fields.

Definition isIPAddress : bool :=
  Regex.matches Constants.IP_ADDRESS (hostname this).

Definition hasSuspiciousTLD : bool :=
  existsb (fun tld => JS.endsWith (hostname this) tld) Constants.SUSPICIOUS_TLDS.

Definition hasEncodedChars : bool :=
  Regex.test Constants.ENCODED_CHARS (url this).

Definition hasMultipleDots : bool :=
  Regex.test Constants.MULTIPLE_DOTS (hostname this).

Definition isURLShortener : bool :=
  existsb (fun shortener => String.eqb (domain this) shortener)
    Constants.URL_SHORTENERS.

Definition isLegitimate : bool :=
  existsb (fun d => String.eqb (domain this) d
                    || JS.endsWith (hostname this) ("." ++ d))
    Constants.LEGITIMATE_DOMAINS.

Definition hasHomographAttack : bool :=
  existsb (fun row =>
             existsb (fun lookalike => JS.includes (hostname this) (JS.utf8 lookalike))
               (snd row))
    homographs
  || (1 <? Z.of_nat (List.length (detectMixedScripts (hostname this)))).

Definition hasCharacterSubstitution (targetDomain : string) : bool :=
  existsb (fun row =>
             existsb (fun sub =>
                        JS.includes (hostname this)
                          (JS.replace_all (fst row) sub targetDomain))
               (snd row))
    substitutions.

Definition isTyposquatting : bool :=
  existsb (fun targetDomain =>
    JS.includes (hostname this) targetDomain &&
    (existsb (fun tld =>
        let expected := targetDomain ++ tld in
        negb (String.eqb (domain this) expected)
        && negb (String.eqb (hostname this) expected)
        && (let distance := levenshteinDistance (domain this) expected in
            (0 <? distance) && (distance <=? 2)))
       commonTLDs
     || hasCharacterSubstitution targetDomain))
    Constants.TYPOSQUATTING_TARGETS.

Definition hasLongDomain : bool := 50 <? JS.utf16_length (hostname this).

Definition hasNonStandardPort : bool :=
  let port := url_port (parsed this) in
  if String.eqb port EmptyString then false
  else negb (JS.list_includes standardPorts port).

Definition isInsecure : bool := String.eqb (protocol this) "http:".

Definition hasDangerousScheme : bool :=
  existsb (fun scheme => String.eqb (protocol this) scheme) dangerousSchemes.

Definition hasUsernameInURL : bool :=
  negb (String.eqb (username this) EmptyString).

Definition hasSubdomainImpersonation : bool :=
  existsb (fun d => JS.includes (hostname this) d
                    && negb (JS.startsWith (domain this) d))
    popularDomains_sub.

Definition hasPathSpoofing : bool :=
  let path := url_pathname (parsed this) in
  existsb (fun d => JS.includes path d) popularDomains_path.

Definition hasDoubleEncoding : bool := JS.includes (url this) "%25".

Definition hasPunycode : bool := JS.includes (hostname this) "xn--".

(** [if (cond) issues.push(issue)] *)
Definition push_if (cond : bool) (i : Issue) (issues : list Issue) : list Issue :=
  if cond then issues ++ [i] else issues.

Definition detected : list Issue :=
  let issues := [] in
  let issues := push_if hasDangerousScheme
    (issue "dangerous_scheme" high
       "URL uses dangerous protocol (javascript/data/blob/file)") issues in
  let issues := push_if hasUsernameInURL
    (issue "username_in_url" high
       "URL contains username (common phishing technique)") issues in
  let issues := push_if hasSubdomainImpersonation
    (issue "subdomain_impersonation" high
       "Popular brand appears as subdomain (spoofing attempt)") issues in
  let issues := push_if hasPathSpoofing
    (issue "path_spoofing" high
       "Trusted domain name appears in URL path (deception technique)") issues in
  let issues := push_if hasDoubleEncoding
    (issue "double_encoding" high
       "URL contains double-encoded characters (obfuscation attempt)") issues in
  let issues := push_if hasPunycode
    (issue "punycode" medium
       "URL uses internationalized domain name (possible homograph attack)") issues in
  let issues := push_if isIPAddress
    (issue "ip_address" high "URL uses IP address instead of domain name") issues in
  let issues := push_if hasSuspiciousTLD
    (issue "suspicious_tld" medium "URL uses a suspicious top-level domain") issues in
  let issues := push_if hasEncodedChars
    (issue "encoded_chars" medium "URL contains encoded characters") issues in
  let issues := push_if hasMultipleDots
    (issue "multiple_dots" low "URL has unusual dot patterns") issues in
  let issues := push_if isURLShortener
    (issue "url_shortener" low "URL is shortened (destination unknown)") issues in
  let issues := push_if hasHomographAttack
    (issue "homograph" high "URL contains lookalike characters") issues in
  let issues := push_if isTyposquatting
    (issue "typosquatting" high "URL appears to mimic a popular domain") issues in
  let issues := push_if hasLongDomain
    (issue "long_domain" low "URL has an unusually long domain") issues in
  let issues := push_if hasNonStandardPort
    (issue "non_standard_port" medium "URL uses non-standard port") issues in
  let issues := push_if isInsecure
    (issue "insecure" medium "URL uses insecure HTTP protocol") issues in
  issues.

End Detectors.

Section WithPlatform.
Context `{Platform}.

(** [new URLParser(url)], that is [parseURL]. *)
Definition make (url : string) : Parser :=
  match new_URL url with
  | Some u =>
      let hostname := toLowerCase (url_hostname u) in
      Parsed (mkFields url u hostname (extractDomain hostname)
                (url_protocol u) (url_username u))
  | None => Invalid url
  end.

End WithPlatform.

(** [getIssues] *)
Definition getIssues (p : Parser) : list Issue :=
  match p with
  | Invalid _ => [issue "invalid_url" high "Invalid URL format"]
  | Parsed this => detected this
  end.

(** [isLegitimate] as a method: on a parser whose URL did not parse,
    [this.domain === domain] is false and [this.hostname.endsWith] is a call
    on [null]. *)
Definition isLegitimate_method (p : Parser) : exc bool :=
  match p with
  | Invalid _ => Throw "Cannot read properties of null (reading 'endsWith')"
  | Parsed this => Ok (isLegitimate this)
  end.

(** [getThreatLevel] *)
Definition getThreatLevel (p : Parser) : exc ThreatLevel :=
  let issues := getIssues p in
  match isLegitimate_method p with
  | Throw e => Throw e
  | Ok true => Ok safe
  | Ok false =>
      let highSeverity := count_severity high issues in
      let mediumSeverity := count_severity medium issues in
      if (2 <=? highSeverity) || ((1 <=? highSeverity) && (1 <=? mediumSeverity))
      then Ok dangerous
      else if (1 <=? highSeverity) || (2 <=? mediumSeverity) then Ok suspicious
      else if (0 <? Z.of_nat (List.length issues)) then Ok suspicious
      else Ok unknown
  end.

End URLParser.

(** [analyzeURL(url)]: the object built from one parser.  [getThreatLevel]
    and [isLegitimate] throw on a URL that did not parse. *)
Record URLAnalysis : Type := mkURLAnalysis {
  ua_url : string;
  ua_domain : option string;
  ua_hostname : option string;
  ua_threatLevel : ThreatLevel;
  ua_issues : list Issue;
  ua_isLegitimate : bool
}.

Section AnalyzeURL.
Context `{Platform}.

Definition analyzeURL (url : string) : exc URLAnalysis :=
  let parser := URLParser.make url in
  match URLParser.getThreatLevel parser with
  | Throw e => Throw e
  | Ok level =>
      match URLParser.isLegitimate_method parser with
      | Throw e => Throw e
      | Ok legit =>
          Ok (mkURLAnalysis url
                (match parser with
                 | URLParser.Parsed f => Some (URLParser.domain f)
                 | URLParser.Invalid _ => None
                 end)
                (match parser with
                 | URLParser.Parsed f => Some (URLParser.hostname f)
                 | URLParser.Invalid _ => None
                 end)
                level (URLParser.getIssues parser) legit)
      end
  end.

End AnalyzeURL.

(** ** ml/pattern-detector.js *)

Module PatternDetector.

Record Features : Type := mkFeatures {
  urlLength : Z;
  domainLength : Z;
  pathLength : Z;
  paramCount : Z;
  digitCount : Z;
  specialCharCount : Z;
  uppercaseCount : Z;
  subdomainCount : Z;
  hasDash : bool;
  hasUnderscore : bool;
  hasIP : bool;
  hasPort : bool;
  hasAtSymbol : bool;
  isHTTPS : bool;
  tld : string;
  isCommonTLD : bool;
  entropy : Q;
  suspiciousKeywords : nat
}.

Definition keywords : list string := [
  "login"; "signin"; "account"; "verify"; "secure"; "update";
  "confirm"; "banking"; "paypal"; "amazon"; "microsoft"; "apple";
  "password"; "suspended"; "locked"; "urgent"; "alert" ].

Definition commonTLDs : list string := ["com"; "org"; "net"; "edu"; "gov"].

Definition freeTLDs : list string := ["tk"; "ml"; "ga"; "cf"; "gq"; "top"; "xyz"].

(** [/\d{1,3}\.\d{1,3}\.\d{1,3}\.\d{1,3}/] *)
Definition ip_anywhere : Regex.regex :=
  let part := Regex.Cat Regex.digit_1_3 (Regex.chr ".") in
  Regex.Cat part (Regex.Cat part (Regex.Cat part Regex.digit_1_3)).

(** [frequencies[char] = (frequencies[char] || 0) + 1] *)
Fixpoint bump (c : ascii) (frequencies : list (ascii * Z)) : list (ascii * Z) :=
  match frequencies with
  | [] => [(c, 1)]
  | (d, n) :: rest =>
      if Ascii.eqb c d then (d, n + 1) :: rest else (d, n) :: bump c rest
  end.

Fixpoint frequencies_of (str : string) (frequencies : list (ascii * Z))
  : list (ascii * Z) :=
  match str with
  | EmptyString => frequencies
  | String c rest => frequencies_of rest (bump c frequencies)
  end.

(** [a > b] on numbers. *)
Definition Qgtb (a b : Q) : bool := negb (Qle_bool a b).

(** [Math.min(a, b)] *)
Definition Math_min (a b : Q) : Q := if Qle_bool a b then a else b.

Section WithPlatform.
Context `{Platform}.

(** [calculateEntropy]: [str[i]] ranges over the bytes of [str], which for a
    host name (always ASCII in a [URL]) are its characters. *)
Definition calculateEntropy (str : string) : Q :=
  let len := Z.of_nat (String.length str) in
  fold_left
    (fun entropy kv =>
       let p := (inject_Z (snd kv) / inject_Z len)%Q in
       (entropy - p * Math_log2 p)%Q)
    (frequencies_of str [])
    (0 # 1)%Q.

Definition countSuspiciousKeywords (url : string) : nat :=
  let lowerUrl := toLowerCase url in
  List.length (filter (fun keyword => JS.includes lowerUrl keyword) keywords).

(** [extractFeatures]; [None] is the [null] of the [catch]. *)
Definition extractFeatures (url : string) : option Features :=
  match new_URL url with
  | None => None
  | Some urlObj =>
      let labels := JS.split "." (url_hostname urlObj) in
      let last_label := List.last labels EmptyString in
      Some {|
        urlLength := JS.utf16_length url;
        domainLength := JS.utf16_length (url_hostname urlObj);
        pathLength := JS.utf16_length (url_pathname urlObj);
        paramCount := Z.of_nat (List.length (url_searchParams urlObj));
        digitCount := JS.count_chars JS.is_digit url;
        specialCharCount := JS.utf16_length url - JS.count_chars JS.is_alnum url;
        uppercaseCount := JS.count_chars JS.is_upper url;
        subdomainCount := Z.of_nat (List.length labels) - 2;
        hasDash := JS.includes (url_hostname urlObj) "-";
        hasUnderscore := JS.includes (url_hostname urlObj) "_";
        hasIP := Regex.test ip_anywhere (url_hostname urlObj);
        hasPort := negb (String.eqb (url_port urlObj) EmptyString);
        hasAtSymbol := JS.includes url "@";
        isHTTPS := String.eqb (url_protocol urlObj) "https:";
        tld := last_label;
        isCommonTLD := JS.list_includes commonTLDs last_label;
        entropy := calculateEntropy (url_hostname urlObj);
        suspiciousKeywords := countSuspiciousKeywords url
      |}
  end.

End WithPlatform.

(** [if (cond) score += w] *)
Definition add_if (cond : bool) (w : Z) (score : Z) : Z :=
  if cond then score + w else score.

(** [calculatePhishingScore] *)
Definition calculatePhishingScore (features : option Features) : Z :=
  match features with
  | None => 0
  | Some features =>
      let score := 0 in
      let score := add_if (75 <? urlLength features) 2 score in
      let score := add_if (100 <? urlLength features) 3 score in
      let score := add_if (30 <? domainLength features) 2 score in
      let score := add_if (8 <? digitCount features) 2 score in
      let score := add_if (10 <? specialCharCount features) 2 score in
      let score :=
        add_if (Qgtb (inject_Z (uppercaseCount features))
                     (inject_Z (domainLength features) * (1 # 2))%Q) 1 score in
      let score := add_if (3 <? subdomainCount features) 3 score in
      let score := add_if (hasDash features) 1 score in
      let score := add_if (hasUnderscore features) 2 score in
      let score := add_if (hasIP features) 5 score in
      let score := add_if (hasPort features) 2 score in
      let score := add_if (hasAtSymbol features) 4 score in
      let score := add_if (negb (isHTTPS features)) 3 score in
      let score := add_if (negb (isCommonTLD features)) 2 score in
      let score := add_if (JS.list_includes freeTLDs (tld features)) 3 score in
      let score := add_if (Qgtb (entropy features) (9 # 2)) 2 score in
      let score := add_if (Qgtb (entropy features) (5 # 1)) 3 score in
      let score := score + Z.of_nat (suspiciousKeywords features) * 2 in
      Z.min score 100
  end.

Record Classification : Type := mkClassification {
  classification : string;
  confidence : Q;
  threatLevel : string
}.

(** [classify] *)
Definition classify (score : Z) : Classification :=
  if 15 <=? score then
    mkClassification "phishing" (Math_min (Qmake score 20) (1 # 1)) "DANGEROUS"
  else if 8 <=? score then
    mkClassification "suspicious" (Qmake score 15) "SUSPICIOUS"
  else if 4 <=? score then
    mkClassification "potentially_suspicious" (Qmake score 10) "SUSPICIOUS"
  else
    mkClassification "legitimate" (1 - Qmake score 10)%Q "SAFE".

Record Pattern : Type := mkPattern {
  regex : Regex.regex;
  score : Z;
  description : string
}.

Definition patterns : list Pattern :=
  let dotstar := Regex.Star Regex.dot in
  let label := Regex.plus (Regex.Cls (fun c =>
                 JS.is_lower (JS.lower_ascii c) || JS.is_digit c
                 || Ascii.eqb c "-")) in
  let dot := Regex.chr "." in [
  (* /(login|signin).*\.(tk|ml|ga|cf|gq)/i *)
  mkPattern
    (Regex.Cat (Regex.words_i ["login"; "signin"])
       (Regex.Cat dotstar
          (Regex.Cat dot (Regex.words_i ["tk"; "ml"; "ga"; "cf"; "gq"]))))
    10 "Fake login page pattern";
  (* /\d{1,3}\.\d{1,3}\.\d{1,3}\.\d{1,3}.*(login|account|verify)/i *)
  mkPattern
    (Regex.Cat ip_anywhere
       (Regex.Cat dotstar (Regex.words_i ["login"; "account"; "verify"])))
    15 "IP-based phishing page";
  (* /(paypal|amazon|microsoft|apple|google).*\.(tk|ml|ga|xyz)/i *)
  mkPattern
    (Regex.Cat (Regex.words_i ["paypal"; "amazon"; "microsoft"; "apple"; "google"])
       (Regex.Cat dotstar
          (Regex.Cat dot (Regex.words_i ["tk"; "ml"; "ga"; "xyz"]))))
    12 "Brand impersonation on suspicious TLD";
  (* /[a-z0-9-]+\.[a-z0-9-]+\.[a-z0-9-]+\.(paypal|amazon|microsoft)/i *)
  mkPattern
    (Regex.Cat label (Regex.Cat dot (Regex.Cat label (Regex.Cat dot
       (Regex.Cat label (Regex.Cat dot
          (Regex.words_i ["paypal"; "amazon"; "microsoft"])))))))
    8 "Suspicious subdomain structure";
  (* /(secure|verify|update).*\d{3,}/i *)
  mkPattern
    (Regex.Cat (Regex.words_i ["secure"; "verify"; "update"])
       (Regex.Cat dotstar
          (Regex.Cat Regex.digit (Regex.Cat Regex.digit (Regex.plus Regex.digit)))))
    6 "Potential data collection page" ].

Record Match : Type := mkMatch {
  m_description : string;
  m_score : Z
}.

Record PatternMatch : Type := mkPatternMatch {
  pm_score : Z;
  pm_matches : list Match;
  pm_hasMatch : bool
}.

(** [matchKnownPatterns] *)
Definition matchKnownPatterns (url : string) : PatternMatch :=
  let hits := filter (fun pattern => Regex.test (regex pattern) url) patterns in
  let totalScore := fold_left (fun total pattern => total + score pattern) hits 0 in
  let matches := map (fun pattern => mkMatch (description pattern) (score pattern)) hits in
  mkPatternMatch totalScore matches (0 <? Z.of_nat (List.length matches)).

(** The result of [analyze]; [a_patterns] is [None] on the early return,
    whose object has no [patterns] field. *)
Record Analysis : Type := mkAnalysis {
  a_score : Z;
  a_baseScore : option Z;
  a_patternScore : option Z;
  a_classification : string;
  a_confidence : Q;
  a_features : option Features;
  a_patterns : option (list Match)
}.

Section Analyze.
Context `{Platform}.

(** [analyze] *)
Definition analyze (url : string) : Analysis :=
  match extractFeatures url with
  | None => mkAnalysis 0 None None "error" (0 # 1) None None
  | Some features =>
      let baseScore := calculatePhishingScore (Some features) in
      let patternMatch := matchKnownPatterns url in
      let totalScore := baseScore + pm_score patternMatch in
      let c := classify totalScore in
      mkAnalysis totalScore (Some baseScore) (Some (pm_score patternMatch))
        (classification c) (confidence c) (Some features)
        (Some (pm_matches patternMatch))
  end.

End Analyze.

End PatternDetector.

(** ** utils/ssl-validator.js *)

Module SSLValidator.

Record Validation : Type := mkValidation {
  secure : bool;
  issues : list Issue
}.

Definition dangerousPorts : list Z := [21; 23; 25; 110; 143; 445; 3389].

Section WithPlatform.
Context `{Platform}.

(** [validateURL] *)
Definition validateURL (url : string) : Validation :=
  match new_URL url with
  | None =>
      mkValidation false
        [issue "validation_error" medium "Unable to validate URL security"]
  | Some urlObj =>
      let http := String.eqb (url_protocol urlObj) "http:" in
      (* Check 1 *)
      let issues :=
        if http then
          [mkIssue "insecure_protocol" high
             "Insecure HTTP connection (not encrypted)" None
             (Some "Always use HTTPS for sensitive data")]
        else [] in
      (* Check 2: the issue just pushed is downgraded on localhost *)
      let isLocalhost :=
        String.eqb (url_hostname urlObj) "localhost"
        || String.eqb (url_hostname urlObj) "127.0.0.1"
        || JS.endsWith (url_hostname urlObj) ".local" in
      let issues :=
        if isLocalhost && http then
          [mkIssue "insecure_protocol" low
             "HTTP on localhost (acceptable for development)" None
             (Some "Always use HTTPS for sensitive data")]
        else issues in
      (* Check 3 *)
      let issues :=
        match window_protocol with
        | Some page =>
            if String.eqb page "https:" && http then
              (issues ++
               [mkIssue "mixed_content" high
                  "HTTP resource on HTTPS page (blocked by browser)" None
                  (Some "Use HTTPS version of this resource")])%list
            else issues
        | None => issues
        end in
      (* Check 4 *)
      let port :=
        if String.eqb (url_port urlObj) EmptyString then Some 0
        else JS.parseInt (url_port urlObj) in
      let issues :=
        if match port with
           | Some n => existsb (Z.eqb n) dangerousPorts
           | None => false
           end
        then
          (issues ++
           [mkIssue "dangerous_port" high
              ("Suspicious port " ++ url_port urlObj
               ++ " (commonly used for attacks)")%string None
              (Some "Avoid clicking links with unusual ports")])%list
        else issues in
      (* Check 5: [searchParams.get] is the first value of the key *)
      let ssl :=
        find (fun kv => String.eqb (fst kv) "ssl") (url_searchParams urlObj) in
      let issues :=
        match ssl with
        | Some kv =>
            if String.eqb (snd kv) "false" then
              (issues ++
               [mkIssue "ssl_disabled" high
                  "SSL explicitly disabled in URL parameters" None
                  (Some "Do not proceed with this link")])%list
            else issues
        | None => issues
        end in
      mkValidation (count_severity high issues =? 0) issues
  end.

End WithPlatform.

End SSLValidator.

(** ** The world of the asynchronous code *)

(** What [analyzeLink] returns; a field that the returned object does not
    have is [None] (or [false] for the flags, which are only ever [true]). *)
Record AnalysisResult : Type := mkResult {
  r_url : string;
  r_domain : option string;
  r_hostname : option string;
  r_threatLevel : ThreatLevel;
  r_issues : list Issue;
  r_isLegitimate : option bool;
  r_mlScore : option Z;
  r_mlConfidence : option Q;
  r_mlClassification : option string;
  r_contextScore : option Z;
  r_isWhitelisted : bool;
  r_isBlacklisted : bool;
  r_isPhishTankMatch : bool;
  r_phishTankVerified : option bool;
  r_verified : bool;
  r_timestamp : option Z;
  r_error : option string
}.

Record Stats : Type := mkStats {
  linksScanned : Z;
  threatsBlocked : Z;
  lastScan : option Z
}.

Record PhishEntry : Type := mkPhishEntry {
  pe_url : string;
  pe_domain : string;
  pe_verified : bool;
  pe_timestamp : Z
}.

Record PhishTankResult : Type := mkPhishTankResult {
  pt_found : bool;
  pt_verified : bool;
  pt_source : string;
  pt_error : bool
}.

(** Which calls of [chrome.storage] reject. *)
Record Faults : Type := mkFaults {
  local_get_fails : bool;
  local_set_fails : bool;
  sync_get_fails : bool;
  sync_set_fails : bool
}.

Record World : Type := mkWorld {
  (** [Date.now()] *)
  now : Z;
  faults : Faults;
  (** [chrome.storage.local]: [threatCache] in insertion order, [stats],
      [phishTankDB] with its [lastUpdated] *)
  threatCache : list (string * AnalysisResult);
  stats : option Stats;
  phishTankDB : option (list PhishEntry * Z);
  (** [chrome.storage.sync] *)
  whitelist : list string;
  blacklist : list string;
  (** the answer of [WorkerManager.checkUrl] *)
  worker : string -> PhishTankResult;
  (** the notifications created: host, level, issue count *)
  notifications : list (string * ThreatLevel * Z);
  (** the threats that [AnalyticsManager.recordThreat] counted *)
  recorded : list (ThreatLevel * list string)
}.

Definition set_threatCache (c : list (string * AnalysisResult)) (w : World) : World :=
  mkWorld (now w) (faults w) c (stats w) (phishTankDB w) (whitelist w)
    (blacklist w) (worker w) (notifications w) (recorded w).

Definition set_stats (s : Stats) (w : World) : World :=
  mkWorld (now w) (faults w) (threatCache w) (Some s) (phishTankDB w)
    (whitelist w) (blacklist w) (worker w) (notifications w) (recorded w).

Definition set_whitelist (l : list string) (w : World) : World :=
  mkWorld (now w) (faults w) (threatCache w) (stats w) (phishTankDB w) l
    (blacklist w) (worker w) (notifications w) (recorded w).

Definition add_notification (n : string * ThreatLevel * Z) (w : World) : World :=
  mkWorld (now w) (faults w) (threatCache w) (stats w) (phishTankDB w)
    (whitelist w) (blacklist w) (worker w) (notifications w ++ [n])%list (recorded w).

Definition add_recorded (r : ThreatLevel * list string) (w : World) : World :=
  mkWorld (now w) (faults w) (threatCache w) (stats w) (phishTankDB w)
    (whitelist w) (blacklist w) (worker w) (notifications w) (recorded w ++ [r])%list.

(** Computations that read and write the world and may throw. *)
Definition M (A : Type) : Type := World -> exc A * World.

Definition ret {A} (a : A) : M A := fun w => (Ok a, w).

Definition throw {A} (msg : string) : M A := fun w => (Throw msg, w).

Definition bind {A B} (m : M A) (k : A -> M B) : M B :=
  fun w =>
    match m w with
    | (Ok a, w') => k a w'
    | (Throw e, w') => (Throw e, w')
    end.

(** [try { m } catch (error) { handler(error.message) }] *)
Definition try_catch {A} (m : M A) (handler : string -> M A) : M A :=
  fun w =>
    match m w with
    | (Ok a, w') => (Ok a, w')
    | (Throw e, w') => handler e w'
    end.

Declare Scope world_scope.
Delimit Scope world_scope with world.
Notation "x <- m ;; k" := (bind m (fun x => k))
  (at level 100, m at next level, right associativity) : world_scope.
Notation "m ;;; k" := (bind m (fun _ => k))
  (at level 100, right associativity) : world_scope.
Open Scope world_scope.

Definition Date_now : M Z := fun w => (Ok (now w), w).

Definition local_get {A} (read : World -> A) : M A :=
  fun w =>
    if local_get_fails (faults w) then (Throw "chrome.storage.local.get", w)
    else (Ok (read w), w).

Definition local_set (write : World -> World) : M unit :=
  fun w =>
    if local_set_fails (faults w) then (Throw "chrome.storage.local.set", w)
    else (Ok tt, write w).

Definition sync_get {A} (read : World -> A) : M A :=
  fun w =>
    if sync_get_fails (faults w) then (Throw "chrome.storage.sync.get", w)
    else (Ok (read w), w).

Definition sync_set (write : World -> World) : M unit :=
  fun w =>
    if sync_set_fails (faults w) then (Throw "chrome.storage.sync.set", w)
    else (Ok tt, write w).

(** ** utils/storage.js *)

Module StorageManager.

(** [cache[url]] *)
Fixpoint lookup (url : string) (cache : list (string * AnalysisResult))
  : option AnalysisResult :=
  match cache with
  | [] => None
  | (k, v) :: rest => if String.eqb k url then Some v else lookup url rest
  end.

(** [cache[url] = v]: an existing key keeps its place, a new one goes last. *)
Fixpoint assign (url : string) (v : AnalysisResult)
  (cache : list (string * AnalysisResult)) : list (string * AnalysisResult) :=
  match cache with
  | [] => [(url, v)]
  | (k, v') :: rest =>
      if String.eqb k url then (k, v) :: rest else (k, v') :: assign url v rest
  end.

(** [delete cache[url]] *)
Definition remove (url : string) (cache : list (string * AnalysisResult))
  : list (string * AnalysisResult) :=
  filter (fun kv => negb (String.eqb (fst kv) url)) cache.

Definition timestamp_of (kv : string * AnalysisResult) : Z :=
  match r_timestamp (snd kv) with
  | Some t => t
  | None => 0
  end.

(** [entries.sort((a, b) => a[1].timestamp - b[1].timestamp)], a stable sort. *)
Fixpoint insert_entry (x : string * AnalysisResult)
  (sorted : list (string * AnalysisResult)) : list (string * AnalysisResult) :=
  match sorted with
  | [] => [x]
  | y :: rest =>
      if timestamp_of x <=? timestamp_of y then x :: y :: rest
      else y :: insert_entry x rest
  end.

Definition sort_entries (entries : list (string * AnalysisResult))
  : list (string * AnalysisResult) :=
  fold_right insert_entry [] entries.

Definition getWhitelist : M (list string) :=
  try_catch (sync_get whitelist) (fun _ => ret []).

Definition removeFromWhitelist (domain : string) : M bool :=
  try_catch
    (whitelist <- getWhitelist ;;
     let filtered := filter (fun d => negb (String.eqb d domain)) whitelist in
     sync_set (set_whitelist filtered) ;;;
     ret true)
    (fun _ => ret false).

(** The membership test of both lists: a substring either way. *)
Definition listed (domain : string) (l : list string) : bool :=
  existsb (fun d => JS.includes domain d || JS.includes d domain) l.

Definition isWhitelisted (domain : string) : M bool :=
  whitelist <- getWhitelist ;;
  ret (listed domain whitelist).

Definition getBlacklist : M (list string) :=
  try_catch (sync_get blacklist) (fun _ => ret []).

Definition isBlacklisted (domain : string) : M bool :=
  blacklist <- getBlacklist ;;
  ret (listed domain blacklist).

Definition getCachedThreat (url : string) : M (option AnalysisResult) :=
  try_catch
    (cache <- local_get threatCache ;;
     match lookup url cache with
     | None => ret None
     | Some cached =>
         now <- Date_now ;;
         let maxAge := Constants.CACHE_DURATION (r_threatLevel cached) in
         let expired :=
           match r_timestamp cached with
           | Some t => maxAge <? now - t
           | None => false
           end in
         if expired then
           local_set (set_threatCache (remove url cache)) ;;;
           ret None
         else ret (Some cached)
     end)
    (fun _ => ret None).

Definition with_timestamp (t : Z) (a : AnalysisResult) : AnalysisResult :=
  mkResult (r_url a) (r_domain a) (r_hostname a) (r_threatLevel a) (r_issues a)
    (r_isLegitimate a) (r_mlScore a) (r_mlConfidence a) (r_mlClassification a)
    (r_contextScore a) (r_isWhitelisted a) (r_isBlacklisted a)
    (r_isPhishTankMatch a) (r_phishTankVerified a) (r_verified a) (Some t)
    (r_error a).

Definition cacheThreat (url : string) (analysis : AnalysisResult) : M bool :=
  try_catch
    (cache <- local_get threatCache ;;
     now <- Date_now ;;
     let cache := assign url (with_timestamp now analysis) cache in
     (if (1000 <? List.length cache)%nat then
        local_set (set_threatCache (JS.slice_last 1000 (sort_entries cache)))
      else local_set (set_threatCache cache)) ;;;
     ret true)
    (fun _ => ret false).

Definition default_stats : Stats := mkStats 0 0 None.

Definition getStats : M Stats :=
  try_catch
    (s <- local_get stats ;;
     ret (match s with Some s => s | None => default_stats end))
    (fun _ => ret default_stats).

(** [updateStats(updates)]: [update] is the merge [{...stats, ...updates}]. *)
Definition updateStats (update : Stats -> Stats) : M bool :=
  try_catch
    (stats <- getStats ;;
     local_set (set_stats (update stats)) ;;;
     ret true)
    (fun _ => ret false).

Definition incrementScanned : M unit :=
  stats <- getStats ;;
  now <- Date_now ;;
  updateStats (fun s => mkStats (linksScanned stats + 1) (threatsBlocked s) (Some now)) ;;;
  ret tt.

Definition incrementBlocked : M unit :=
  stats <- getStats ;;
  updateStats (fun s => mkStats (linksScanned s) (threatsBlocked stats + 1) (lastScan s)) ;;;
  ret tt.

End StorageManager.

(** ** The collaborators of the aggregator *)

Module ThreatIntelligence.
Section WithPlatform.
Context `{Platform}.

(** [checkPhishTank]: the worker first, then the database in
    [chrome.storage.local].  The value returned is the one of the source on
    every path.  Two paths of the source also call
    [updatePhishTankDatabase]: with no database stored the call is awaited
    before [found: false] is returned, and with a database older than a day
    it is started and not awaited.  That method downloads the list over the
    network; what it then does (it writes [phishTankDB], loads the worker and
    can raise a notification of its own) depends on the answer of the
    network, which the world does not hold, and is not modelled.  The value
    returned does not depend on it: without a database it is [found: false],
    and a stale database is searched as it was read.  What a call leaves in
    the stores is stated for calls that start no download ([no_download]
    below). *)
Definition checkPhishTank (url : string) : M PhishTankResult :=
  try_catch
    (fun w =>
       let workerResult := worker w url in
       if negb (pt_error workerResult) then (Ok workerResult, w)
       else
         (db <- local_get phishTankDB ;;
          match db with
          | None => ret (mkPhishTankResult false false EmptyString false)
          | Some (urls, lastUpdated) =>
              let normalizedUrl := JS.strip_trailing_slash (toLowerCase url) in
              match new_URL url with
              | None => throw URL_error
              | Some urlObj =>
                  let domain := url_hostname urlObj in
                  match find (fun entry =>
                                String.eqb (toLowerCase (pe_url entry)) normalizedUrl
                                || String.eqb (pe_domain entry) domain) urls with
                  | Some entry =>
                      ret (mkPhishTankResult true (pe_verified entry) "PhishTank" false)
                  | None => ret (mkPhishTankResult false false EmptyString false)
                  end
              end
          end) w)
    (fun _ => ret (mkPhishTankResult false false EmptyString true)).

End WithPlatform.
End ThreatIntelligence.

Module NotificationManager.
Section WithPlatform.
Context `{Platform}.

(** [showThreatBlocked]: [new URL(url)] stands outside the [try]. *)
Definition showThreatBlocked (url : string) (threatLevel : ThreatLevel)
  (issueCount : Z) : M unit :=
  match new_URL url with
  | None => throw URL_error
  | Some urlObj =>
      match threatLevel with
      | dangerous | suspicious =>
          fun w => (Ok tt, add_notification (url_hostname urlObj, threatLevel, issueCount) w)
      | _ => ret tt
      end
  end.

End WithPlatform.
End NotificationManager.

Module AnalyticsManager.

(** [recordThreat]: the counters of the breakdown and of the day are kept as
    the list of what was recorded; a failing read or write of the store
    abandons the update inside the method. *)
Definition recordThreat (threatLevel : ThreatLevel) (issueTypes : list string)
  : M unit :=
  try_catch
    (local_get (fun _ => tt) ;;;
     local_set (add_recorded (threatLevel, issueTypes)))
    (fun _ => ret tt).

End AnalyticsManager.

(** ** utils/phishing-detector.js *)

Module PhishingDetector.

(** [x.toFixed(0)] for a number that is not negative. *)
Definition toFixed0 (x : Q) : string := JS.of_int (Qfloor (x + (1 # 2))).

(** [isCacheValid] *)
Definition isCacheValid (cached : AnalysisResult) : M bool :=
  match r_timestamp cached with
  | None => ret false
  | Some timestamp =>
      if timestamp =? 0 then ret false
      else
        now <- Date_now ;;
        let age := now - timestamp in
        let maxAge := 86400000 in
        if ThreatLevel_eqb (r_threatLevel cached) dangerous
        then ret (age <? 3600000)
        else ret (age <? maxAge)
  end.

(** [calculateFinalThreatLevel] *)
Definition calculateFinalThreatLevel (analysis : AnalysisResult) : ThreatLevel :=
  let issues := r_issues analysis in
  let isLegitimate := r_isLegitimate analysis in
  let contextScore := r_contextScore analysis in
  if match isLegitimate with Some b => b | None => false end then safe
  else
    let highCount := count_severity high issues in
    let mediumCount := count_severity medium issues in
    let lowCount := count_severity low issues in
    let score := highCount * 3 + mediumCount * 2 + lowCount in
    let score :=
      match contextScore with
      | Some c => if c =? 0 then score else score + c
      | None => score
      end in
    let at_least (n : Z) :=
      match contextScore with
      | Some c => n <=? c
      | None => false
      end in
    if at_least 9 then dangerous
    else if at_least 5 then suspicious
    else if (5 <=? score) || (2 <=? highCount) then dangerous
    else if (2 <=? score) || (1 <=? highCount) || (2 <=? mediumCount)
    then suspicious
    else if (0 <? Z.of_nat (List.length issues)) then suspicious
    else unknown.

(** [analysis.threatLevel = level] *)
Definition set_threatLevel (level : ThreatLevel) (a : AnalysisResult)
  : AnalysisResult :=
  mkResult (r_url a) (r_domain a) (r_hostname a) level (r_issues a)
    (r_isLegitimate a) (r_mlScore a) (r_mlConfidence a) (r_mlClassification a)
    (r_contextScore a) (r_isWhitelisted a) (r_isBlacklisted a)
    (r_isPhishTankMatch a) (r_phishTankVerified a) (r_verified a)
    (r_timestamp a) (r_error a).

(** The object of the [catch] of [analyzeLink]. *)
Definition error_result (url : string) (msg : string) : AnalysisResult :=
  mkResult url None None unknown [issue "error" low "Analysis failed"]
    None None None None None false false false None false None (Some msg).

Section WithPlatform.
Context `{Platform}.

(** [analyzeContext] *)
Definition analyzeContext (text : string) : Z :=
  if String.eqb text EmptyString then 0
  else
    let lowerText := toLowerCase text in
    let score :=
      Z.of_nat (List.length
        (filter (fun keyword => JS.includes lowerText keyword)
           Constants.PHISHING_KEYWORDS)) in
    let spamScore :=
      3 * Z.of_nat (List.length
        (filter (fun spamWord => JS.includes lowerText spamWord)
           Constants.SPAM_INDICATORS)) in
    score + spamScore.

(** [verifyWhitelistedDomain] *)
Definition verifyWhitelistedDomain (domain : string) : bool :=
  match analyzeURL ("https://" ++ domain) with
  | Throw _ => false
  | Ok analysis => count_severity high (ua_issues analysis) =? 0
  end.

(** The issues that the pattern scorer adds. *)
Definition ml_issues (mlAnalysis : PatternDetector.Analysis) : list Issue :=
  if 0 <? PatternDetector.a_score mlAnalysis then
    (match PatternDetector.a_patterns mlAnalysis with
     | Some patterns =>
         map (fun pattern =>
                mkIssue "ml_pattern"
                  (if 10 <? PatternDetector.m_score pattern then high else medium)
                  ("ML detected: " ++ PatternDetector.m_description pattern)
                  (Some (PatternDetector.m_score pattern)) None)
           patterns
     | None => []
     end
     ++
     if 15 <=? PatternDetector.a_score mlAnalysis then
       [mkIssue "ml_high_risk" high
          ("ML detected high-risk patterns (confidence: "
           ++ toFixed0 (PatternDetector.a_confidence mlAnalysis * (100 # 1))
           ++ "%)")
          (Some (PatternDetector.a_score mlAnalysis)) None]
     else [])%list
  else [].

(** The issue that a context score adds. *)
Definition context_issues (contextScore : Z) : list Issue :=
  if 0 <? contextScore then
    [ if 9 <=? contextScore then
        issue "suspicious_context" high
          "SPAM: Multiple spam indicators detected in email"
      else if 5 <=? contextScore then
        issue "suspicious_context" high
          "Link appears in highly suspicious context with spam indicators"
      else if 3 <=? contextScore then
        issue "suspicious_context" medium
          "Link appears in suspicious phishing context"
      else
        issue "suspicious_context" low "Link appears in suspicious context" ]
  else [].

(** [context || url] *)
Definition context_or_url (context : option string) (url : string) : string :=
  match context with
  | Some c => if String.eqb c EmptyString then url else c
  | None => url
  end.

(** The local analysis of [analyzeLink], from [analyzeURL(url)] to the
    assignment of [analysis.threatLevel]. *)
Definition localAnalysis (url : string) (context : option string)
  : exc AnalysisResult :=
  match analyzeURL url with
  | Throw e => Throw e
  | Ok analysis =>
      let mlAnalysis := PatternDetector.analyze url in
      let ml := 0 <? PatternDetector.a_score mlAnalysis in
      let sslValidation := SSLValidator.validateURL url in
      let contextScore := analyzeContext (context_or_url context url) in
      let issues :=
        (ua_issues analysis ++ ml_issues mlAnalysis
         ++ SSLValidator.issues sslValidation
         ++ context_issues contextScore)%list in
      let analysis :=
        mkResult url (ua_domain analysis) (ua_hostname analysis)
          (ua_threatLevel analysis) issues (Some (ua_isLegitimate analysis))
          (if ml then Some (PatternDetector.a_score mlAnalysis) else None)
          (if ml then Some (PatternDetector.a_confidence mlAnalysis) else None)
          (if ml then Some (PatternDetector.a_classification mlAnalysis) else None)
          (Some contextScore) false false false None false None None in
      Ok (set_threatLevel (calculateFinalThreatLevel analysis) analysis)
  end.

(** The end of the [try] block: the result is cached, counted, notified and
    recorded, then returned. *)
Definition finish (url : string) (analysis : AnalysisResult) : M AnalysisResult :=
  StorageManager.cacheThreat url analysis ;;;
  StorageManager.incrementScanned ;;;
  (if ThreatLevel_eqb (r_threatLevel analysis) dangerous then
     StorageManager.incrementBlocked ;;;
     NotificationManager.showThreatBlocked url (r_threatLevel analysis)
       (Z.of_nat (List.length (r_issues analysis)))
   else if ThreatLevel_eqb (r_threatLevel analysis) suspicious
           && match r_contextScore analysis with
              | Some c => 5 <=? c
              | None => false
              end then
     NotificationManager.showThreatBlocked url (r_threatLevel analysis)
       (Z.of_nat (List.length (r_issues analysis)))
   else ret tt) ;;;
  AnalyticsManager.recordThreat (r_threatLevel analysis)
    (map type (r_issues analysis)) ;;;
  ret analysis.

(** The objects returned by the three short cuts. *)
Definition whitelisted_result (url domain : string) (now : Z) : AnalysisResult :=
  mkResult url (Some domain) None safe [] None None None None None
    true false false None true (Some now) None.

Definition blacklisted_result (url domain : string) (now : Z) : AnalysisResult :=
  mkResult url (Some domain) None dangerous
    [issue "blacklisted" high "Domain is in your blacklist"]
    None None None None None false true false None false (Some now) None.

Definition phishtank_result (url domain : string) (now : Z)
  (phishTankResult : PhishTankResult) : AnalysisResult :=
  mkResult url (Some domain) None dangerous
    [issue "phishtank_match" high
       ("Known phishing site (verified by "
        ++ pt_source phishTankResult
        ++ (if pt_verified phishTankResult then " - VERIFIED" else EmptyString)
        ++ ")")]
    None None None None None false false true
    (Some (pt_verified phishTankResult)) false (Some now) None.

(** [analyzeLink] after the cache, in the order of the source: the local
    analysis is the last stage, the reputation lookup stands before it, the
    black list before that, the white list first. *)
Definition localStage (url : string) (context : option string)
  : M AnalysisResult :=
  match localAnalysis url context with
  | Throw e => throw e
  | Ok analysis => finish url analysis
  end.

Definition reputationStage (url : string) (context : option string)
  (domain : string) : M AnalysisResult :=
  phishTankResult <- ThreatIntelligence.checkPhishTank url ;;
  if pt_found phishTankResult then
    now <- Date_now ;;
    let result := phishtank_result url domain now phishTankResult in
    StorageManager.cacheThreat url result ;;;
    StorageManager.incrementBlocked ;;;
    NotificationManager.showThreatBlocked url (r_threatLevel result) 1 ;;;
    ret result
  else localStage url context.

Definition blacklistStage (url : string) (context : option string)
  (domain : string) : M AnalysisResult :=
  blacklisted <- StorageManager.isBlacklisted domain ;;
  if blacklisted then
    now <- Date_now ;;
    let result := blacklisted_result url domain now in
    StorageManager.cacheThreat url result ;;;
    StorageManager.incrementBlocked ;;;
    ret result
  else reputationStage url context domain.

Definition analyzeUncached (url : string) (context : option string)
  : M AnalysisResult :=
  match new_URL url with
  | None => throw URL_error
  | Some urlObj =>
      let domain := url_hostname urlObj in
      whitelisted <- StorageManager.isWhitelisted domain ;;
      trusted <-
        (if whitelisted then
           if verifyWhitelistedDomain domain then ret true
           else StorageManager.removeFromWhitelist domain ;;; ret false
         else ret false) ;;
      if trusted then
        now <- Date_now ;;
        let result := whitelisted_result url domain now in
        StorageManager.cacheThreat url result ;;;
        ret result
      else blacklistStage url context domain
  end.

(** The [try] block of [analyzeLink]. *)
Definition analyzeLink_try (url : string) (context : option string)
  : M AnalysisResult :=
  cached <- StorageManager.getCachedThreat url ;;
  valid <-
    match cached with
    | Some c => isCacheValid c
    | None => ret false
    end ;;
  match cached with
  | Some cached =>
      if valid then
        if ThreatLevel_eqb (r_threatLevel cached) dangerous
           || ThreatLevel_eqb (r_threatLevel cached) suspicious
        then
          now <- Date_now ;;
          let cacheAge :=
            now - match r_timestamp cached with Some t => t | None => 0 end in
          let maxAge :=
            if ThreatLevel_eqb (r_threatLevel cached) dangerous
            then 3600000 else 21600000 in
          if maxAge <? cacheAge then analyzeUncached url context
          else ret cached
        else ret cached
      else analyzeUncached url context
  | None => analyzeUncached url context
  end.

(** [analyzeLink(url, context)] *)
Definition analyzeLink (url : string) (context : option string)
  : M AnalysisResult :=
  try_catch (analyzeLink_try url context)
    (fun message => ret (error_result url message)).

(** [analyzeLinks(urls)] *)
Fixpoint analyzeLinks (urls : list string) : M (list AnalysisResult) :=
  match urls with
  | [] => ret []
  | url :: rest =>
      analysis <- analyzeLink url None ;;
      results <- analyzeLinks rest ;;
      ret (analysis :: results)
  end.

End WithPlatform.

End PhishingDetector.

(** ** An example platform

    A platform on which the definitions can be run: the [URL] constructor on
    the URLs [http(s)://[user@]host[:port][/path][?query]] written with
    letters, digits and [- . _ ~ %], with the results that the WHATWG parser
    gives on them, and refusing every other string; ASCII case mapping; a
    binary logarithm to sixteen fractional bits; no [window]. *)

Module Example.

(** The text before the first character that [stop] accepts, and the text
    from that character on. *)
Fixpoint break (stop : ascii -> bool) (s : string) : string * string :=
  match s with
  | EmptyString => (EmptyString, EmptyString)
  | String c s' =>
      if stop c then (EmptyString, s)
      else let (a, b) := break stop s' in (String c a, b)
  end.

Fixpoint all_chars (p : ascii -> bool) (s : string) : bool :=
  match s with
  | EmptyString => true
  | String c s' => p c && all_chars p s'
  end.

Definition same (a : ascii) (c : ascii) : bool := Ascii.eqb c a.

Definition host_char (c : ascii) : bool :=
  JS.is_alnum c || same "-" c || same "." c || same "_" c.

Definition path_char (c : ascii) : bool :=
  JS.is_alnum c || same "-" c || same "." c || same "_" c || same "~" c || same "%" c
  || same "/" c.

Definition query_char (c : ascii) : bool :=
  JS.is_alnum c || same "-" c || same "." c || same "_" c || same "~" c.

Definition drop1 (s : string) : string :=
  match s with
  | EmptyString => EmptyString
  | String _ s' => s'
  end.

(** A dotted quad of numbers below 256 without leading zeros, or a host
    whose last label is not a number. *)
Definition plain_number (s : string) : bool :=
  match JS.parseInt s with
  | Some n => all_chars JS.is_digit s && String.eqb (JS.of_int n) s && (n <? 256)
  | None => false
  end.

Definition host_ok (host : string) : bool :=
  let labels := JS.split "." host in
  negb (String.eqb host EmptyString)
  && all_chars host_char host
  && forallb (fun l => negb (String.eqb l EmptyString)) labels
  && (if all_chars JS.is_digit (List.last labels EmptyString)
      then (List.length labels =? 4)%nat && forallb plain_number labels
      else true).

Definition parse_pair (kv : string) : string * string :=
  let (k, v) := break (same "=") kv in (k, drop1 v).

Definition parse_query (q : string) : list (string * string) :=
  map parse_pair
    (filter (fun kv => negb (String.eqb kv EmptyString)) (JS.split "&" q)).

Definition parse_with (scheme : string) (defaultPort : string) (rest : string)
  : option URL :=
  let (authority, tail) := break (fun c => same "/" c || same "?" c || same "#" c) rest in
  let (path, tail) := break (fun c => same "?" c || same "#" c) tail in
  let (query, fragment) := break (same "#") tail in
  let (user, hostport) :=
    if JS.includes authority "@" then
      let (u, hp) := break (same "@") authority in (u, drop1 hp)
    else (EmptyString, authority) in
  let (host, port) := break (same ":") hostport in
  let host := JS.ascii_toLowerCase host in
  let port := drop1 port in
  if host_ok host
     && all_chars query_char user
     && all_chars JS.is_digit port
     && (String.eqb port EmptyString
         || match JS.parseInt port with
            | Some n => String.eqb (JS.of_int n) port && (n <? 65536)
            | None => false
            end)
     && all_chars path_char path
     && negb (JS.includes path "/.")
     && all_chars (fun c => query_char c || same "=" c || same "&" c) (drop1 query)
     && String.eqb fragment EmptyString
  then
    Some (mkURL (scheme ++ ":") user host
            (if String.eqb port defaultPort then EmptyString else port)
            (if String.eqb path EmptyString then "/" else path)
            (parse_query (drop1 query)))
  else None.

Definition parse (s : string) : option URL :=
  if JS.startsWith s "https://" then
    parse_with "https" "443" (substring 8 (String.length s - 8) s)
  else if JS.startsWith s "http://" then
    parse_with "http" "80" (substring 7 (String.length s - 7) s)
  else None.

(** The binary logarithm of a positive integer, rounded down to a multiple
    of [2^-16]: the integer part is the position of the leading bit, and
    each squaring of the mantissa yields one more bit. *)
Fixpoint log2_bits (n : nat) (m : Z) (acc : Z) : Z :=
  match n with
  | O => acc
  | S n' =>
      let m2 := Z.shiftr (m * m) 32 in
      if 2 ^ 33 <=? m2 then log2_bits n' (Z.shiftr m2 1) (2 * acc + 1)
      else log2_bits n' m2 (2 * acc)
  end.

Definition log2_int (n : Z) : Q :=
  let k := Z.log2 n in
  let m := Z.shiftl n 32 / 2 ^ k in
  Qred (inject_Z k + Qmake (log2_bits 16 m 0) (2 ^ 16)).

Definition log2 (q : Q) : Q :=
  if 0 <? Qnum q then Qred (log2_int (Qnum q) - log2_int (Zpos (Qden q)))
  else 0.

#[export] Instance platform : Platform := {|
  new_URL := parse;
  URL_error := "Invalid URL";
  toLowerCase := JS.ascii_toLowerCase;
  Math_log2 := log2;
  window_protocol := None
|}.

(** A world with nothing stored, no faults, and a worker that is not
    available, at clock reading [t]. *)
Definition no_faults : Faults := mkFaults false false false false.

Definition no_worker (url : string) : PhishTankResult :=
  mkPhishTankResult false false EmptyString true.

Definition empty_world (t : Z) : World :=
  mkWorld t no_faults [] None None [] [] no_worker [] [].

End Example.

(** ** The statements of the specification, in its words *)

Module Spec.

(** The threat level table of the URL analyzer: [H] and [M] high and medium
    issues out of [N] issues. *)
Definition threat_table (legitimate : bool) (H M N : nat) : ThreatLevel :=
  if legitimate then safe
  else if ((2 <=? H) || ((1 <=? H) && (1 <=? M)))%nat then dangerous
  else if ((1 <=? H) || (2 <=? M))%nat then suspicious
  else if (1 <=? N)%nat then suspicious
  else unknown.

Definition count (s : Severity) (issues : list Issue) : nat :=
  List.length (filter (fun i => Severity_eqb (severity i) s) issues).

(** The weight table of the heuristic scorer. *)
Definition weights (f : PatternDetector.Features) : list (bool * Z) :=
  let risky := ["tk"; "ml"; "ga"; "cf"; "gq"; "top"; "xyz"] in
  [ (75 <? PatternDetector.urlLength f, 2);
    (100 <? PatternDetector.urlLength f, 3);
    (30 <? PatternDetector.domainLength f, 2);
    (8 <? PatternDetector.digitCount f, 2);
    (10 <? PatternDetector.specialCharCount f, 2);
    (PatternDetector.domainLength f <? 2 * PatternDetector.uppercaseCount f, 1);
    (3 <? PatternDetector.subdomainCount f, 3);
    (PatternDetector.hasDash f, 1);
    (PatternDetector.hasUnderscore f, 2);
    (PatternDetector.hasIP f, 5);
    (PatternDetector.hasPort f, 2);
    (PatternDetector.hasAtSymbol f, 4);
    (negb (PatternDetector.isHTTPS f), 3);
    (negb (PatternDetector.isCommonTLD f), 2);
    (existsb (String.eqb (PatternDetector.tld f)) risky, 3);
    (PatternDetector.Qgtb (PatternDetector.entropy f) (45 # 10), 2);
    (PatternDetector.Qgtb (PatternDetector.entropy f) (5 # 1), 3) ].

Fixpoint total (ws : list (bool * Z)) : Z :=
  match ws with
  | [] => 0
  | (true, w) :: rest => w + total rest
  | (false, _) :: rest => total rest
  end.

Definition score (f : PatternDetector.Features) : Z :=
  Z.min (total (weights f) + 2 * Z.of_nat (PatternDetector.suspiciousKeywords f)) 100.

(** The keyword and spam score of a text: 1 for each phishing keyword and 3
    for each spam indicator that occurs in its lower-case form. *)
Fixpoint hits (text : string) (words : list string) : Z :=
  match words with
  | [] => 0
  | word :: rest => (if JS.includes text word then 1 else 0) + hits text rest
  end.

Definition keyword_score `{Platform} (text : string) : Z :=
  hits (toLowerCase text) Constants.PHISHING_KEYWORDS
  + 3 * hits (toLowerCase text) Constants.SPAM_INDICATORS.

End Spec.

(** ** What a run of the aggregator reads *)

(** The fields of the world that a later step of one call can read: a step
    keeps them. *)
Definition frame (w w' : World) : Prop :=
  now w' = now w /\ faults w' = faults w /\ blacklist w' = blacklist w
  /\ phishTankDB w' = phishTankDB w /\ worker w' = worker w.

(** A computation that neither throws nor touches the frame. *)
Definition runs {A} (m : M A) : Prop :=
  forall w, exists a w', m w = (Ok a, w') /\ frame w w'.

(** A computation that keeps the frame, whether it returns or throws. *)
Definition framed {A} (m : M A) : Prop :=
  forall w r w', m w = (r, w') -> frame w w'.

(** A computation that returns [a] and keeps the frame. *)
Definition returns {A} (m : M A) (a : A) : Prop :=
  forall w, exists w', m w = (Ok a, w') /\ frame w w'.

(** The keys of the cache. *)
Definition has_key (k : string) (cache : list (string * AnalysisResult)) : Prop :=
  exists v, In (k, v) cache.

(** The cache of [w'] has no key that the cache of [w] lacks, but for [url]. *)
Definition keys_le (url : string) (w w' : World) : Prop :=
  forall k, has_key k (threatCache w') -> k = url \/ has_key k (threatCache w).

Definition keeps_keys {A} (url : string) (m : M A) : Prop :=
  forall w r w', m w = (r, w') -> keys_le url w w'.

(** Every key of the cache is a string that the [URL] constructor accepts. *)
Definition parsed_keys `{Platform} (w : World) : Prop :=
  forall k, has_key k (threatCache w) -> new_URL k <> None.

(** The white list and the black list as a read of the store returns them. *)
Definition read_whitelist (w : World) : list string :=
  if sync_get_fails (faults w) then [] else whitelist w.

Definition read_blacklist (w : World) : list string :=
  if sync_get_fails (faults w) then [] else blacklist w.

Section Reads.
Context `{Platform}.

(** The answer of the reputation lookup in a world. *)
Definition reputation (w : World) (url : string) : PhishTankResult :=
  match fst (ThreatIntelligence.checkPhishTank url w) with
  | Ok r => r
  | Throw _ => mkPhishTankResult false false EmptyString true
  end.

(** The result of [analyzeLink] past the cache, for a URL that parsed: what
    the stages return, as a function of what they read. *)
Definition reputation_result (w : World) (url : string) (context : option string)
  (domain : string) : exc AnalysisResult :=
  if pt_found (reputation w url)
  then Ok (PhishingDetector.phishtank_result url domain (now w) (reputation w url))
  else PhishingDetector.localAnalysis url context.

Definition blacklist_result (w : World) (url : string) (context : option string)
  (domain : string) : exc AnalysisResult :=
  if StorageManager.listed domain (read_blacklist w)
  then Ok (PhishingDetector.blacklisted_result url domain (now w))
  else reputation_result w url context domain.

Definition uncached_result (w : World) (url : string) (context : option string)
  (urlObj : URL) : exc AnalysisResult :=
  let domain := url_hostname urlObj in
  if StorageManager.listed domain (read_whitelist w)
     && PhishingDetector.verifyWhitelistedDomain domain
  then Ok (PhishingDetector.whitelisted_result url domain (now w))
  else blacklist_result w url context domain.

(** [analyzeLink] when the cache is not consulted. *)
Definition fresh (url : string) (context : option string) : M AnalysisResult :=
  try_catch (PhishingDetector.analyzeUncached url context)
    (fun message => ret (PhishingDetector.error_result url message)).

End Reads.

(** A result without its time stamp. *)
Definition without_timestamp (a : AnalysisResult) : AnalysisResult :=
  mkResult (r_url a) (r_domain a) (r_hostname a) (r_threatLevel a) (r_issues a)
    (r_isLegitimate a) (r_mlScore a) (r_mlConfidence a) (r_mlClassification a)
    (r_contextScore a) (r_isWhitelisted a) (r_isBlacklisted a)
    (r_isPhishTankMatch a) (r_phishTankVerified a) (r_verified a) None
    (r_error a).

(** Two worlds with the same reference stores and an empty cache; the clock,
    the counters and the logs are free. *)
Definition same_stores (w1 w2 : World) : Prop :=
  faults w1 = faults w2 /\ whitelist w1 = whitelist w2
  /\ blacklist w1 = blacklist w2 /\ phishTankDB w1 = phishTankDB w2
  /\ worker w1 = worker w2 /\ threatCache w1 = [] /\ threatCache w2 = [].

(** ** Example inputs *)

(** The input of the test "should prioritize context score": no issue, not
    legitimate, context score 10. *)
Definition context_only (legitimate : bool) (contextScore : Z) : AnalysisResult :=
  mkResult EmptyString None None unknown [] (Some legitimate) None None None
    (Some contextScore) false false false None false None None.

(** A world whose every [chrome.storage] call rejects. *)
Definition faulty_world (t : Z) : World :=
  mkWorld t (mkFaults true true true true) [] None None [] []
    Example.no_worker [] [].

(** A world whose black list holds [evil.com]. *)
Definition blacklisting_world (t : Z) : World :=
  mkWorld t Example.no_faults [] None None [] ["evil.com"]
    Example.no_worker [] [].

(** A dangerous result as [cacheThreat] stored it at clock reading 1000, and
    a world that holds it in its cache. *)
Definition dangerous_entry : AnalysisResult :=
  PhishingDetector.blacklisted_result "https://evil.com" "evil.com" 1000.

Definition cached_world (t : Z) : World :=
  mkWorld t Example.no_faults [("https://evil.com", dangerous_entry)] None None
    [] [] Example.no_worker [] [].

(** ** Further definitions

    Helpers for the properties of the code that the theorems of the second
    part state. *)

(** The character [c] occurs in [s]. *)
Definition occurs (c : ascii) (s : string) : bool :=
  JS.includes s (String c EmptyString).

(** [analysis.issues.push(...more)] *)
Definition add_issues (more : list Issue) (a : AnalysisResult) : AnalysisResult :=
  mkResult (r_url a) (r_domain a) (r_hostname a) (r_threatLevel a)
    (r_issues a ++ more) (r_isLegitimate a) (r_mlScore a) (r_mlConfidence a)
    (r_mlClassification a) (r_contextScore a) (r_isWhitelisted a)
    (r_isBlacklisted a) (r_isPhishTankMatch a) (r_phishTankVerified a)
    (r_verified a) (r_timestamp a) (r_error a).

(** The elements of [l] whose flag is set, in the order of [l]. *)
Fixpoint select {A} (flags : list bool) (l : list A) : list A :=
  match flags, l with
  | c :: flags, x :: l => if c then x :: select flags l else select flags l
  | _, _ => []
  end.

(** The types of the issues of [getIssues], in the order of its tests. *)
Definition issue_types : list string := [
  "dangerous_scheme"; "username_in_url"; "subdomain_impersonation";
  "path_spoofing"; "double_encoding"; "punycode"; "ip_address";
  "suspicious_tld"; "encoded_chars"; "multiple_dots"; "url_shortener";
  "homograph"; "typosquatting"; "long_domain"; "non_standard_port";
  "insecure" ].

(** The verdicts in the order of their gravity. *)
Definition rank (l : ThreatLevel) : Z :=
  match l with
  | safe => 0
  | unknown => 1
  | suspicious => 2
  | dangerous => 3
  end.

(** The ASCII characters of the homograph table. *)
Definition ascii_lookalikes : list string := ["l"; "1"; "0"; "|"; "v"].

Section Reached.
Context `{Platform}.

(** The fields that [parseURL] fills for a URL that parsed to [u]. *)
Definition fields_of (url : string) (u : URL) : URLParser.Fields :=
  URLParser.mkFields url u (toLowerCase (url_hostname u))
    (URLParser.extractDomain (toLowerCase (url_hostname u)))
    (url_protocol u) (url_username u).

(** The call of [analyzeLink] on [url] gets to the local analysis: the cache
    has no entry for the URL, neither list matches its host, and the
    reputation lookup finds nothing. *)
Definition reaches_local_analysis (w : World) (url : string) (u : URL) : Prop :=
  StorageManager.lookup url (threatCache w) = None
  /\ StorageManager.listed (url_hostname u) (whitelist w) = false
  /\ StorageManager.listed (url_hostname u) (blacklist w) = false
  /\ pt_found (reputation w url) = false.

End Reached.

(** The ages at which [analyzeLink] returns a cached result of a level: the
    windows of [getCachedThreat], [isCacheValid] and [analyzeLink] together. *)
Definition served (level : ThreatLevel) (age : Z) : bool :=
  match level with
  | dangerous => age <? 3600000
  | suspicious | unknown => age <=? 3600000
  | safe => age <? 86400000
  end.

(** The counters as [getStats] reads them. *)
Definition stats_of (w : World) : Stats :=
  match stats w with
  | Some s => s
  | None => StorageManager.default_stats
  end.

(** The cache that [cacheThreat] writes. *)
Definition cache_after (url : string) (a : AnalysisResult) (w : World)
  : list (string * AnalysisResult) :=
  let cache :=
    StorageManager.assign url (StorageManager.with_timestamp (now w) a)
      (threatCache w) in
  if (1000 <? List.length cache)%nat
  then JS.slice_last 1000 (StorageManager.sort_entries cache)
  else cache.

(** The results of the local analysis that raise a notification. *)
Definition notified (a : AnalysisResult) : bool :=
  ThreatLevel_eqb (r_threatLevel a) dangerous
  || ThreatLevel_eqb (r_threatLevel a) suspicious
     && match r_contextScore a with
        | Some c => 5 <=? c
        | None => false
        end.

(** No call of [chrome.storage] rejects. *)
Definition fault_free (w : World) : Prop :=
  faults w = mkFaults false false false false.

(** [checkPhishTank] on the URL calls [updatePhishTankDatabase] on neither of
    its paths: the worker answers, or a database is stored and is at most a
    day old. *)
Definition no_download (w : World) (url : string) : Prop :=
  pt_error (worker w url) = false
  \/ exists urls lastUpdated,
       phishTankDB w = Some (urls, lastUpdated)
       /\ now w - lastUpdated <= 86400000.

(** A worker that has its database loaded and holds no entry: it answers
    every URL with [found: false]; and an empty world with that worker. *)
Definition answering_worker (url : string) : PhishTankResult :=
  mkPhishTankResult false false EmptyString false.

Definition quiet_world (t : Z) : World :=
  mkWorld t Example.no_faults [] None None [] [] answering_worker [] [].

(** A suspicious result as [cacheThreat] stored it at clock reading 1000, and
    a world that holds it in its cache. *)
Definition suspicious_entry : AnalysisResult :=
  mkResult "https://example.org" (Some "example.org") (Some "example.org")
    suspicious [issue "homograph" high "URL contains lookalike characters"]
    (Some false) None None None (Some 0) false false false None false
    (Some 1000) None.

Definition suspicious_world (t : Z) : World :=
  mkWorld t Example.no_faults [("https://example.org", suspicious_entry)] None
    None [] [] Example.no_worker [] [].

(** A computation whose every run relates the world before to the world
    after by [R], whether it returns or throws. *)
Definition preserves {A} (R : World -> World -> Prop) (m : M A) : Prop :=
  forall w r w', m w = (r, w') -> R w w'.

(** The white list is left as it is. *)
Definition same_whitelist (w w' : World) : Prop := whitelist w' = whitelist w.

(** The cache stays within its limit of 1000 results. *)
Definition bounded_cache (w w' : World) : Prop :=
  (List.length (threatCache w) <= 1000)%nat ->
  (List.length (threatCache w') <= 1000)%nat.

(** A world whose two lists both hold [mit.edu]. *)
Definition both_lists_world (t : Z) : World :=
  mkWorld t Example.no_faults [] None None ["mit.edu"] ["mit.edu"]
    Example.no_worker [] [].

(** A world whose white list holds [example.com]. *)
Definition whitelisting_world (t : Z) : World :=
  mkWorld t Example.no_faults [] None None ["example.com"] []
    Example.no_worker [] [].

(** ** utils/storage.js: the methods behind the actions of the user *)

Definition set_blacklist (l : list string) (w : World) : World :=
  mkWorld (now w) (faults w) (threatCache w) (stats w) (phishTankDB w)
    (whitelist w) l (worker w) (notifications w) (recorded w).

Module StorageActions.

(** [addToWhitelist]: the domain is pushed unless the array has it. *)
Definition addToWhitelist (domain : string) : M bool :=
  try_catch
    (whitelist <- StorageManager.getWhitelist ;;
     (if negb (JS.list_includes whitelist domain)
      then sync_set (set_whitelist (whitelist ++ [domain]))
      else ret tt) ;;;
     ret true)
    (fun _ => ret false).

(** [addToBlacklist] *)
Definition addToBlacklist (domain : string) : M bool :=
  try_catch
    (blacklist <- StorageManager.getBlacklist ;;
     (if negb (JS.list_includes blacklist domain)
      then sync_set (set_blacklist (blacklist ++ [domain]))
      else ret tt) ;;;
     ret true)
    (fun _ => ret false).

(** [removeFromBlacklist] *)
Definition removeFromBlacklist (domain : string) : M bool :=
  try_catch
    (blacklist <- StorageManager.getBlacklist ;;
     let filtered := filter (fun d => negb (String.eqb d domain)) blacklist in
     sync_set (set_blacklist filtered) ;;;
     ret true)
    (fun _ => ret false).

(** [clearCache] *)
Definition clearCache : M bool :=
  try_catch
    (local_set (set_threatCache []) ;;;
     ret true)
    (fun _ => ret false).

(** [resetStats] *)
Definition resetStats : M bool :=
  try_catch
    (local_set (set_stats StorageManager.default_stats) ;;;
     ret true)
    (fun _ => ret false).

End StorageActions.

(** ** background/service-worker.js: the handlers of the two lists *)

Module ServiceWorker.

(** What a handler passes to [sendResponse]. *)
Inductive Response : Type :=
| success
| failure (error : string).

(** [handleAddToWhitelist(domain, sendResponse)]; a domain that is missing or
    that [sanitizeDomain] refused is the empty string or [undefined]. *)
Definition handleAddToWhitelist (domain : option string) : M Response :=
  try_catch
    (match domain with
     | None => ret (failure "Domain required")
     | Some domain =>
         if String.eqb domain EmptyString then ret (failure "Domain required")
         else
           StorageActions.addToWhitelist domain ;;;
           StorageActions.clearCache ;;;
           ret success
     end)
    (fun _ => ret (failure "Operation failed")).

(** [handleAddToBlacklist(domain, sendResponse)] *)
Definition handleAddToBlacklist (domain : option string) : M Response :=
  try_catch
    (match domain with
     | None => ret (failure "Domain required")
     | Some domain =>
         if String.eqb domain EmptyString then ret (failure "Domain required")
         else
           StorageActions.addToBlacklist domain ;;;
           StorageActions.clearCache ;;;
           ret success
     end)
    (fun _ => ret (failure "Operation failed")).

End ServiceWorker.

(** A world that holds a dangerous result for [https://mit.edu] in its
    cache. *)
Definition stale_world (t : Z) : World :=
  mkWorld t Example.no_faults
    [("https://mit.edu",
      PhishingDetector.blacklisted_result "https://mit.edu" "mit.edu" 1000)]
    None None [] [] Example.no_worker [] [].

(** ** background/service-worker.js: the rate limiter *)

Module RateLimiter.

Record SenderData : Type := mkSenderData {
  count : Z;
  resetTime : Z
}.

(** [limit]: requests per window; [window]: one minute. *)
Definition limit : Z := 100.
Definition window : Z := 60000.

(** [requests], a [Map] from sender ids to their data. *)
Definition Requests : Type := list (string * SenderData).

(** [requests.get(senderId)] *)
Fixpoint get (senderId : string) (requests : Requests) : option SenderData :=
  match requests with
  | [] => None
  | (k, d) :: rest => if String.eqb k senderId then Some d else get senderId rest
  end.

(** [requests.set(senderId, d)] *)
Fixpoint set (senderId : string) (d : SenderData) (requests : Requests)
  : Requests :=
  match requests with
  | [] => [(senderId, d)]
  | (k, d') :: rest =>
      if String.eqb k senderId then (k, d) :: rest
      else (k, d') :: set senderId d rest
  end.

(** [checkLimit(senderId)] at the clock reading [now].  The data read from
    the map is the object that the map holds, and the reset writes into it;
    a call that resets goes on to count the request and to [set] the data,
    so the map changes on exactly the calls that are accepted. *)
Definition checkLimit (now : Z) (senderId : string) (requests : Requests)
  : bool * Requests :=
  let senderData :=
    match get senderId requests with
    | Some d => d
    | None => mkSenderData 0 (now + window)
    end in
  let senderData :=
    if resetTime senderData <? now then mkSenderData 0 (now + window)
    else senderData in
  if limit <=? count senderData then (false, requests)
  else
    (true,
     set senderId (mkSenderData (count senderData + 1) (resetTime senderData))
       requests).

(** The messages of a list of senders at their times, one after the other:
    the answer to each, and the map at the end. *)
Fixpoint run (calls : list (Z * string)) (requests : Requests)
  : list (string * bool) * Requests :=
  match calls with
  | [] => ([], requests)
  | (now, senderId) :: rest =>
      let (ok, requests') := checkLimit now senderId requests in
      let (oks, final) := run rest requests' in
      ((senderId, ok) :: oks, final)
  end.

(** The answers that one sender got. *)
Definition answers (senderId : string) (log : list (string * bool)) : list bool :=
  map snd (filter (fun r => String.eqb (fst r) senderId) log).

(** The number of messages of one sender. *)
Definition sent (senderId : string) (calls : list (Z * string)) : nat :=
  List.length (filter (fun c => String.eqb (snd c) senderId) calls).

End RateLimiter.

(** ** workers/phishtank-worker.js *)

(** A [Map] with string keys, in insertion order. *)
Module JSMap.

Fixpoint get {V} (key : string) (m : list (string * V)) : option V :=
  match m with
  | [] => None
  | (k, v) :: rest => if String.eqb k key then Some v else get key rest
  end.

Definition has {V} (key : string) (m : list (string * V)) : bool :=
  match get key m with
  | Some _ => true
  | None => false
  end.

Fixpoint set {V} (key : string) (v : V) (m : list (string * V))
  : list (string * V) :=
  match m with
  | [] => [(key, v)]
  | (k, v') :: rest =>
      if String.eqb k key then (k, v) :: rest else (k, v') :: set key v rest
  end.

End JSMap.

Module PhishTankWorker.

(** [phishTankDB] once [loadDatabase] has run: the entries, the [Set] of
    their domains and the two [Map]s. *)
Record Database : Type := mkDatabase {
  urls : list PhishEntry;
  domains : list string;
  urlMap : list (string * PhishEntry);
  domainMap : list (string * list PhishEntry)
}.

(** [set.add(x)] *)
Definition add (x : string) (s : list string) : list string :=
  if JS.list_includes s x then s else (s ++ [x])%list.

(** What [checkUrl] returns. *)
Record Check : Type := mkCheck {
  found : bool;
  verified : option bool;
  timestamp : option Z;
  source : option string;
  matchType : option string;
  error : option string
}.

Section WithPlatform.
Context `{Platform}.

(** [loadDatabase(urls)] *)
Definition loadDatabase (urls : list PhishEntry) : Database :=
  mkDatabase urls
    (fold_left (fun s entry => add (pe_domain entry) s) urls [])
    (fold_left (fun m entry => JSMap.set (toLowerCase (pe_url entry)) entry m)
       urls [])
    (fold_left
       (fun m entry =>
          let m :=
            if JSMap.has (pe_domain entry) m then m
            else JSMap.set (pe_domain entry) [] m in
          match JSMap.get (pe_domain entry) m with
          | Some entries =>
              JSMap.set (pe_domain entry) (entries ++ [entry])%list m
          | None => m
          end)
       urls []).

(** [checkUrl(url)]; [phishTankDB] is [None] before the first load. *)
Definition checkUrl (phishTankDB : option Database) (url : string) : Check :=
  match phishTankDB with
  | None => mkCheck false None None None None (Some "Database not loaded")
  | Some db =>
      let normalizedUrl := JS.strip_trailing_slash (toLowerCase url) in
      match new_URL url with
      | None => mkCheck false None None None None (Some URL_error)
      | Some urlObj =>
          let domain := url_hostname urlObj in
          match JSMap.get normalizedUrl (urlMap db) with
          | Some entry =>
              mkCheck true (Some (pe_verified entry)) (Some (pe_timestamp entry))
                (Some "PhishTank") (Some "exact") None
          | None =>
              if JS.list_includes (domains db) domain then
                match JSMap.get domain (domainMap db) with
                | Some (first :: _ as entries) =>
                    mkCheck true (Some (existsb pe_verified entries))
                      (Some (pe_timestamp first)) (Some "PhishTank")
                      (Some "domain") None
                | _ =>
                    mkCheck false None None None None
                      (Some "Cannot read properties of undefined")
                end
              else mkCheck false None None None None None
          end
      end
  end.

End WithPlatform.

End PhishTankWorker.

(** Two entries of one domain, the first not verified, and a world that holds
    them while its worker fails. *)
Definition phishing_entries : list PhishEntry := [
  mkPhishEntry "http://secure-login.example.net/a" "secure-login.example.net"
    false 1000;
  mkPhishEntry "http://secure-login.example.net/b" "secure-login.example.net"
    true 2000 ].

Definition scanning_world (t : Z) : World :=
  mkWorld t Example.no_faults [] None (Some (phishing_entries, 2000)) [] []
    Example.no_worker [] [].

(** ** utils/error-handler.js: [retryOperation] *)

Module ErrorHandler.

(** What a call of [retryOperation] does besides running the operation: the
    attempts, and the delays that it waits for. *)
Inductive Event : Type :=
| attempted
| waited (delay : Z).

Section Retry.
(** The state that the operation works on, what it returns and what it
    throws. *)
Variables (S A E : Type).

(** An asynchronous operation: it returns or throws, and leaves a state. *)
Definition Operation : Type := S -> (A + E) * S.

(** The [for] loop from [attempt] on, with [remaining] iterations to go;
    [lastError] is [None] while it is [undefined].  The result is the value
    returned, or the value thrown at the end. *)
Fixpoint retry_loop (operation : Operation) (maxRetries baseDelay : Z)
  (remaining : nat) (attempt : Z) (lastError : option E) (s : S)
  : (A + option E) * S * list Event :=
  match remaining with
  | O => (inr lastError, s, [])
  | Datatypes.S remaining' =>
      match operation s with
      | (inl a, s') => (inl a, s', [attempted])
      | (inr error, s') =>
          let wait :=
            if attempt <? maxRetries - 1
            then [waited (baseDelay * 2 ^ attempt)]
            else [] in
          let '(r, s'', events) :=
            retry_loop operation maxRetries baseDelay remaining' (attempt + 1)
              (Some error) s' in
          (r, s'', attempted :: wait ++ events)%list
      end
  end.

(** [retryOperation(operation, maxRetries = 3, baseDelay = 1000)] *)
Definition retryOperation (operation : Operation) (maxRetries baseDelay : Z)
  (s : S) : (A + option E) * S * list Event :=
  retry_loop operation maxRetries baseDelay (Z.to_nat maxRetries) 0 None s.

End Retry.

(** The number of attempts and the delays of a run. *)
Fixpoint attempts (events : list Event) : nat :=
  match events with
  | [] => 0
  | attempted :: rest => Datatypes.S (attempts rest)
  | waited _ :: rest => attempts rest
  end.

Fixpoint delays (events : list Event) : list Z :=
  match events with
  | [] => []
  | attempted :: rest => delays rest
  | waited d :: rest => d :: delays rest
  end.

End ErrorHandler.

(** ** utils/worker-manager.js: [ThreatIntelligence.validateTimestamp] *)

Module Timestamps.

(** The values that a field of the downloaded data can hold. *)
Inductive JSValue : Type :=
| js_undefined
| js_null
| js_boolean (b : bool)
| js_number (x : Q)
| js_NaN
| js_infinity (negative : bool)
| js_string (s : string)
| js_object.

(** [!v] *)
Definition falsy (v : JSValue) : bool :=
  match v with
  | js_undefined | js_null | js_NaN => true
  | js_boolean b => negb b
  | js_number x => Qeq_bool x 0
  | js_string s => String.eqb s EmptyString
  | js_infinity _ | js_object => false
  end.

Definition tenYears : Z := 10 * 365 * 24 * 60 * 60 * 1000.
Definition oneYear : Z := 365 * 24 * 60 * 60 * 1000.

(** [parsed >= tenYearsAgo && parsed <= oneYearFuture] *)
Definition reasonable (now : Z) (x : Q) : bool :=
  Qle_bool (inject_Z (now - tenYears)) x && Qle_bool x (inject_Z (now + oneYear)).

Section WithDate.
(** [Date.parse]; [None] is [NaN]. *)
Variable Date_parse : string -> option Z.

(** [validateTimestamp(timestamp)] at the clock reading [now]. *)
Definition validateTimestamp (timestamp : JSValue) (now : Z) : Q :=
  if falsy timestamp then inject_Z now
  else
    match timestamp with
    | js_string s =>
        match Date_parse s with
        | Some parsed =>
            if reasonable now (inject_Z parsed) then inject_Z parsed
            else inject_Z now
        | None => inject_Z now
        end
    | js_number x => if reasonable now x then x else inject_Z now
    | _ => inject_Z now
    end.

End WithDate.

End Timestamps.

(** ** utils/ssl-validator.js: the counters of [AnalyticsManager] *)

Module Analytics.

(** [threatBreakdown.byType] *)
Record ByType : Type := mkByType {
  phishing : Z;
  typosquatting : Z;
  homograph : Z;
  spam : Z;
  malicious_scheme : Z;
  ip_address : Z;
  suspicious_tld : Z;
  url_shortener : Z
}.

(** [threatBreakdown] *)
Record Breakdown : Type := mkBreakdown {
  n_dangerous : Z;
  n_suspicious : Z;
  n_safe : Z;
  n_unknown : Z;
  byType : ByType
}.

(** The breakdown of an empty store. *)
Definition empty : Breakdown :=
  mkBreakdown 0 0 0 0 (mkByType 0 0 0 0 0 0 0 0).

(** The counter of the level goes up. *)
Definition count_level (threatLevel : ThreatLevel) (b : Breakdown) : Breakdown :=
  match threatLevel with
  | dangerous =>
      mkBreakdown (n_dangerous b + 1) (n_suspicious b) (n_safe b) (n_unknown b)
        (byType b)
  | suspicious =>
      mkBreakdown (n_dangerous b) (n_suspicious b + 1) (n_safe b) (n_unknown b)
        (byType b)
  | safe =>
      mkBreakdown (n_dangerous b) (n_suspicious b) (n_safe b + 1) (n_unknown b)
        (byType b)
  | unknown =>
      mkBreakdown (n_dangerous b) (n_suspicious b) (n_safe b) (n_unknown b + 1)
        (byType b)
  end.

(** The body of [issueTypes.forEach]: one counter goes up. *)
Definition count_type (t : ByType) (type : string) : ByType :=
  if JS.includes type "typosquatting" then
    mkByType (phishing t) (typosquatting t + 1) (homograph t) (spam t)
      (malicious_scheme t) (ip_address t) (suspicious_tld t) (url_shortener t)
  else if JS.includes type "homograph" then
    mkByType (phishing t) (typosquatting t) (homograph t + 1) (spam t)
      (malicious_scheme t) (ip_address t) (suspicious_tld t) (url_shortener t)
  else if JS.includes type "spam" || JS.includes type "suspicious_context" then
    mkByType (phishing t) (typosquatting t) (homograph t) (spam t + 1)
      (malicious_scheme t) (ip_address t) (suspicious_tld t) (url_shortener t)
  else if JS.includes type "dangerous_scheme" then
    mkByType (phishing t) (typosquatting t) (homograph t) (spam t)
      (malicious_scheme t + 1) (ip_address t) (suspicious_tld t) (url_shortener t)
  else if JS.includes type "ip_address" then
    mkByType (phishing t) (typosquatting t) (homograph t) (spam t)
      (malicious_scheme t) (ip_address t + 1) (suspicious_tld t) (url_shortener t)
  else if JS.includes type "suspicious_tld" then
    mkByType (phishing t) (typosquatting t) (homograph t) (spam t)
      (malicious_scheme t) (ip_address t) (suspicious_tld t + 1) (url_shortener t)
  else if JS.includes type "url_shortener" then
    mkByType (phishing t) (typosquatting t) (homograph t) (spam t)
      (malicious_scheme t) (ip_address t) (suspicious_tld t) (url_shortener t + 1)
  else
    mkByType (phishing t + 1) (typosquatting t) (homograph t) (spam t)
      (malicious_scheme t) (ip_address t) (suspicious_tld t) (url_shortener t).

(** The breakdown that [recordThreat(threatLevel, issueTypes)] stores. *)
Definition record (b : Breakdown) (threat : ThreatLevel * list string)
  : Breakdown :=
  let b := count_level (fst threat) b in
  mkBreakdown (n_dangerous b) (n_suspicious b) (n_safe b) (n_unknown b)
    (fold_left count_type (snd threat) (byType b)).

(** The breakdown in the store of a world: the threats recorded, counted
    from the empty breakdown. *)
Definition breakdown_of (recorded : list (ThreatLevel * list string))
  : Breakdown :=
  fold_left record recorded empty.

Definition levels (b : Breakdown) : Z :=
  n_dangerous b + n_suspicious b + n_safe b + n_unknown b.

Definition types (b : Breakdown) : Z :=
  let t := byType b in
  phishing t + typosquatting t + homograph t + spam t + malicious_scheme t
  + ip_address t + suspicious_tld t + url_shortener t.

(** One entry of [dailyStats]. *)
Record Day : Type := mkDay {
  date : string;
  scanned : Z;
  blocked : Z;
  day_dangerous : Z;
  day_suspicious : Z
}.

(** The counts of the entry go up. *)
Definition count_day (threatLevel : ThreatLevel) (d : Day) : Day :=
  match threatLevel with
  | dangerous =>
      mkDay (date d) (scanned d + 1) (blocked d + 1) (day_dangerous d + 1)
        (day_suspicious d)
  | suspicious =>
      mkDay (date d) (scanned d + 1) (blocked d) (day_dangerous d)
        (day_suspicious d + 1)
  | _ => mkDay (date d) (scanned d + 1) (blocked d) (day_dangerous d)
           (day_suspicious d)
  end.

(** The write into the entry that [stats.find] returned: the first entry of
    the date. *)
Fixpoint update_first (today : string) (threatLevel : ThreatLevel)
  (stats : list Day) : list Day :=
  match stats with
  | [] => []
  | d :: rest =>
      if String.eqb (date d) today then count_day threatLevel d :: rest
      else d :: update_first today threatLevel rest
  end.

(** The array that [recordDailyActivity(threatLevel)] stores on the day
    [today], which is [new Date().toDateString()]. *)
Definition recordDailyActivity (today : string) (threatLevel : ThreatLevel)
  (stats : list Day) : list Day :=
  let stats :=
    if existsb (fun s => String.eqb (date s) today) stats then stats
    else (stats ++ [mkDay today 0 0 0 0])%list in
  let stats := update_first today threatLevel stats in
  if (30 <? List.length stats)%nat then List.tl stats else stats.

(** The count of the links of a day, zero when the day has no entry. *)
Definition scanned_on (today : string) (stats : list Day) : Z :=
  match find (fun s => String.eqb (date s) today) stats with
  | Some d => scanned d
  | None => 0
  end.

End Analytics.

(** The verdict of [calculateFinalThreatLevel] for a domain that is not
    legitimate, as a function of what it reads: the context score, and [h],
    [m] and [l] issues of the three severities out of [n]. *)
Definition verdict (contextScore : option Z) (h m l n : Z) : ThreatLevel :=
  let score := h * 3 + m * 2 + l in
  let score :=
    match contextScore with
    | Some c => if c =? 0 then score else score + c
    | None => score
    end in
  let at_least (k : Z) :=
    match contextScore with
    | Some c => k <=? c
    | None => false
    end in
  if at_least 9 then dangerous
  else if at_least 5 then suspicious
  else if (5 <=? score) || (2 <=? h) then dangerous
  else if (2 <=? score) || (1 <=? h) || (2 <=? m) then suspicious
  else if 0 <? n then suspicious
  else unknown.

(** The row [i] of the matrix of a string against itself, from the column
    [j] on: the distances between the prefixes are the differences of their
    lengths. *)
Definition diagonal_row (i j : Z) (columns : nat) : list Z :=
  map (fun k => Z.abs (i - (j + Z.of_nat k))) (seq 0 columns).

(** A world whose reads are rejected and whose writes are not, with a white
    list and counters in its store. *)
Definition reading_fails_world (t : Z) : World :=
  mkWorld t (mkFaults true false true false) [] (Some (mkStats 41 7 (Some 900)))
    None ["example.com"; "example.org"] [] Example.no_worker [] [].

(** * Theorems *)

(** ** The URL analyzer *)

Lemma leb_of_nat (k n : nat) : (Z.of_nat k <=? Z.of_nat n) = (k <=? n)%nat.
Proof.
  destruct (Z.leb_spec (Z.of_nat k) (Z.of_nat n));
    destruct (Nat.leb_spec k n); try reflexivity; lia.
Qed.

Lemma ltb_0_of_nat (n : nat) : (0 <? Z.of_nat n) = (1 <=? n)%nat.
Proof.
  destruct (Z.ltb_spec 0 (Z.of_nat n)); destruct (Nat.leb_spec 1 n);
    try reflexivity; lia.
Qed.

Lemma make_parsed `{Platform} (url : string) (u : URL) :
  new_URL url = Some u ->
  URLParser.make url =
    URLParser.Parsed
      (URLParser.mkFields url u (toLowerCase (url_hostname u))
         (URLParser.extractDomain (toLowerCase (url_hostname u)))
         (url_protocol u) (url_username u)).
Proof. intros Hu. unfold URLParser.make. rewrite Hu. reflexivity. Qed.

Lemma make_invalid `{Platform} (url : string) :
  new_URL url = None -> URLParser.make url = URLParser.Invalid url.
Proof. intros Hu. unfold URLParser.make. rewrite Hu. reflexivity. Qed.

(** The table on a parser whose fields are filled. *)
Lemma getThreatLevel_parsed (this : URLParser.Fields) :
  URLParser.getThreatLevel (URLParser.Parsed this) =
    Ok (Spec.threat_table (URLParser.isLegitimate this)
          (Spec.count high (URLParser.detected this))
          (Spec.count medium (URLParser.detected this))
          (List.length (URLParser.detected this))).
Proof.
  unfold URLParser.getThreatLevel, URLParser.isLegitimate_method,
    URLParser.getIssues, Spec.threat_table.
  destruct (URLParser.isLegitimate this); [reflexivity |].
  unfold count_severity, Spec.count.
  change 2 with (Z.of_nat 2). change 1 with (Z.of_nat 1).
  rewrite !leb_of_nat, ltb_0_of_nat.
  repeat match goal with
         | |- context [if ?b then _ else _] => destruct b
         end; reflexivity.
Qed.

(** C1. For every URL string that parses, [getThreatLevel] is the table of
    the specification over the parser's own issue list: safe when the domain
    is legitimate; otherwise dangerous when H >= 2 or (H >= 1 and M >= 1),
    else suspicious when H >= 1 or M >= 2, else suspicious when there is an
    issue, else unknown. *)
Theorem C1_threat_level_table `{Platform} (url : string) (u : URL) :
  new_URL url = Some u ->
  exists this,
    URLParser.make url = URLParser.Parsed this /\
    URLParser.getThreatLevel (URLParser.make url) =
      Ok (Spec.threat_table (URLParser.isLegitimate this)
            (Spec.count high (URLParser.getIssues (URLParser.make url)))
            (Spec.count medium (URLParser.getIssues (URLParser.make url)))
            (List.length (URLParser.getIssues (URLParser.make url)))).
Proof.
  intros Hu. rewrite (make_parsed url u Hu).
  eexists. split; [reflexivity |]. apply getThreatLevel_parsed.
Qed.

Lemma C1_witness :
  exists this,
    URLParser.make (H := Example.platform) "http://192.168.1.1"
      = URLParser.Parsed this /\
    URLParser.getThreatLevel
      (URLParser.make (H := Example.platform) "http://192.168.1.1") =
      Ok (Spec.threat_table (URLParser.isLegitimate this)
            (Spec.count high
               (URLParser.getIssues
                  (URLParser.make (H := Example.platform) "http://192.168.1.1")))
            (Spec.count medium
               (URLParser.getIssues
                  (URLParser.make (H := Example.platform) "http://192.168.1.1")))
            (List.length
               (URLParser.getIssues
                  (URLParser.make (H := Example.platform) "http://192.168.1.1")))).
Proof.
  apply (C1_threat_level_table (H := Example.platform) "http://192.168.1.1"
           (mkURL "http:" EmptyString "192.168.1.1" EmptyString "/" [])).
  reflexivity.
Defined.

(** ** The final threat level *)

(** C3, as the specification has it, fails on an analysis that is marked
    legitimate: the legitimacy test comes first, and a context score of 10
    leaves the verdict safe. *)
Lemma C3_counterexample :
  r_contextScore (context_only true 10) = Some 10 /\
  PhishingDetector.calculateFinalThreatLevel (context_only true 10) = safe /\
  PhishingDetector.calculateFinalThreatLevel (context_only true 10) <> dangerous.
Proof. repeat split. discriminate. Qed.

(** The override of the context score, on an analysis that is not marked
    legitimate. *)
Lemma context_override (analysis : AnalysisResult) (c : Z) :
  r_contextScore analysis = Some c ->
  9 <= c ->
  r_isLegitimate analysis <> Some true ->
  PhishingDetector.calculateFinalThreatLevel analysis = dangerous.
Proof.
  intros Hc H9 Hl. unfold PhishingDetector.calculateFinalThreatLevel.
  rewrite Hc.
  destruct (r_isLegitimate analysis) as [[|]|]; try congruence;
    replace (9 <=? c) with true by (symmetry; apply Z.leb_le; exact H9);
    reflexivity.
Qed.

(** C3, amended. For every analysis that is not marked legitimate and whose
    context score is at least 9, the final threat level is dangerous,
    whatever the issues are, and also when there is none. *)
Theorem C3_context_override (analysis : AnalysisResult) (c : Z) :
  r_isLegitimate analysis <> Some true ->
  r_contextScore analysis = Some c ->
  9 <= c ->
  PhishingDetector.calculateFinalThreatLevel analysis = dangerous.
Proof.
  intros Hl Hc H9. exact (context_override analysis c Hc H9 Hl).
Qed.

Lemma C3_witness :
  PhishingDetector.calculateFinalThreatLevel (context_only false 10) = dangerous.
Proof.
  apply (C3_context_override (context_only false 10) 10).
  - discriminate.
  - reflexivity.
  - lia.
Defined.

(** ** The heuristic scorer *)

Lemma add_if_total (c : bool) (w s : Z) :
  PatternDetector.add_if c w s = s + Spec.total [(c, w)].
Proof. destruct c; simpl; lia. Qed.

Lemma total_cons (c : bool) (w : Z) (rest : list (bool * Z)) :
  Spec.total ((c, w) :: rest) = Spec.total [(c, w)] + Spec.total rest.
Proof. destruct c; simpl; lia. Qed.

Lemma total_one_bounds (c : bool) (w : Z) :
  0 <= w -> 0 <= Spec.total [(c, w)] <= w.
Proof. destruct c; simpl; lia. Qed.

(** [uppercaseCount > domainLength * 0.5] on integers. *)
Lemma half_compare (u d : Z) :
  PatternDetector.Qgtb (inject_Z u) (inject_Z d * (1 # 2)) = (d <? 2 * u).
Proof.
  unfold PatternDetector.Qgtb, Qle_bool, Qmult, inject_Z. cbn [Qnum Qden].
  destruct (Z.leb_spec (u * Z.pos (1 * 2)) (d * 1 * 1));
    destruct (Z.ltb_spec d (2 * u)); simpl; try reflexivity; lia.
Qed.

(** [entropy > 4.5] does not depend on how 4.5 is written. *)
Lemma entropy_compare (e : Q) :
  PatternDetector.Qgtb e (9 # 2) = PatternDetector.Qgtb e (45 # 10).
Proof.
  unfold PatternDetector.Qgtb, Qle_bool. cbn [Qnum Qden].
  destruct (Z.leb_spec (Qnum e * 2) (9 * Zpos (Qden e)));
    destruct (Z.leb_spec (Qnum e * 10) (45 * Zpos (Qden e)));
    simpl; try reflexivity; lia.
Qed.

Lemma list_includes_existsb (l : list string) (x : string) :
  JS.list_includes l x = existsb (String.eqb x) l.
Proof. reflexivity. Qed.

Lemma score_is_table (f : PatternDetector.Features) :
  PatternDetector.calculatePhishingScore (Some f) = Spec.score f.
Proof.
  unfold PatternDetector.calculatePhishingScore, Spec.score, Spec.weights.
  cbv zeta. rewrite !add_if_total, half_compare, entropy_compare.
  rewrite list_includes_existsb.
  repeat (rewrite (total_cons _ _ (_ :: _))).
  unfold PatternDetector.freeTLDs.
  f_equal. simpl (Spec.total []). lia.
Qed.

Lemma weights_bounds (f : PatternDetector.Features) :
  0 <= Spec.total (Spec.weights f) <= 42.
Proof.
  unfold Spec.weights. cbv zeta.
  repeat (rewrite (total_cons _ _ (_ :: _))).
  repeat match goal with
         | |- context [Spec.total [(?c, ?w)]] =>
             let x := fresh "x" in
             let Hx := fresh "Hx" in
             pose proof (total_one_bounds c w ltac:(lia)) as Hx;
             set (x := Spec.total [(c, w)]) in *; clearbody x
         end.
  lia.
Qed.

(** C8. The heuristic score of a feature vector is the sum of the listed
    weights plus 2 for each suspicious keyword, capped at 100: an integer
    between 0 and 100; and feature extraction returns null exactly when the
    URL does not parse. *)
Theorem C8_score_is_weight_table `{Platform} (f : PatternDetector.Features)
  (url : string) :
  PatternDetector.calculatePhishingScore (Some f) = Spec.score f
  /\ 0 <= PatternDetector.calculatePhishingScore (Some f) <= 100
  /\ (PatternDetector.extractFeatures url = None <-> new_URL url = None).
Proof.
  split; [apply score_is_table |]. split.
  - rewrite score_is_table. unfold Spec.score.
    pose proof (weights_bounds f). lia.
  - unfold PatternDetector.extractFeatures.
    destruct (new_URL url); split; intros E; try reflexivity; discriminate.
Qed.

(** ** Steps of the asynchronous code *)

Lemma frame_refl (w : World) : frame w w.
Proof. repeat split. Qed.

Lemma frame_trans (w1 w2 w3 : World) : frame w1 w2 -> frame w2 w3 -> frame w1 w3.
Proof.
  unfold frame. intros (A1 & A2 & A3 & A4 & A5) (B1 & B2 & B3 & B4 & B5).
  repeat split; congruence.
Qed.

Lemma runs_framed {A} (m : M A) : runs m -> framed m.
Proof.
  intros Hm w r w' E. destruct (Hm w) as (a & w2 & E2 & F).
  rewrite E in E2. inversion E2; subst. exact F.
Qed.

Lemma framed_ret {A} (a : A) : framed (ret a).
Proof. intros w r w' E. inversion E; subst. apply frame_refl. Qed.

Lemma framed_throw {A} (e : string) : framed (@throw A e).
Proof. intros w r w' E. inversion E; subst. apply frame_refl. Qed.

Lemma framed_bind {A B} (m : M A) (k : A -> M B) :
  framed m -> (forall a, framed (k a)) -> framed (bind m k).
Proof.
  intros Hm Hk w r w' E. unfold bind in E.
  destruct (m w) as [[a | e] w1] eqn:Em.
  - eapply frame_trans; [eapply Hm; eassumption | eapply Hk; eassumption].
  - inversion E; subst. eapply Hm; eassumption.
Qed.

Lemma framed_try_catch {A} (m : M A) (h : string -> M A) :
  framed m -> (forall e, framed (h e)) -> framed (try_catch m h).
Proof.
  intros Hm Hh w r w' E. unfold try_catch in E.
  destruct (m w) as [[a | e] w1] eqn:Em.
  - inversion E; subst. eapply Hm; eassumption.
  - eapply frame_trans; [eapply Hm; eassumption | eapply Hh; eassumption].
Qed.

Lemma framed_Date_now : framed Date_now.
Proof. intros w r w' E. inversion E; subst. apply frame_refl. Qed.

Lemma framed_local_get {A} (read : World -> A) : framed (local_get read).
Proof.
  intros w r w' E. unfold local_get in E.
  destruct (local_get_fails (faults w)); inversion E; subst; apply frame_refl.
Qed.

Lemma framed_sync_get {A} (read : World -> A) : framed (sync_get read).
Proof.
  intros w r w' E. unfold sync_get in E.
  destruct (sync_get_fails (faults w)); inversion E; subst; apply frame_refl.
Qed.

Lemma framed_local_set (write : World -> World) :
  (forall w, frame w (write w)) -> framed (local_set write).
Proof.
  intros Hw w r w' E. unfold local_set in E.
  destruct (local_set_fails (faults w)); inversion E; subst;
    [apply frame_refl | apply Hw].
Qed.

Lemma framed_sync_set (write : World -> World) :
  (forall w, frame w (write w)) -> framed (sync_set write).
Proof.
  intros Hw w r w' E. unfold sync_set in E.
  destruct (sync_set_fails (faults w)); inversion E; subst;
    [apply frame_refl | apply Hw].
Qed.

Lemma runs_ret {A} (a : A) : runs (ret a).
Proof. intros w. exists a, w. split; [reflexivity | apply frame_refl]. Qed.

Lemma runs_bind {A B} (m : M A) (k : A -> M B) :
  runs m -> (forall a, runs (k a)) -> runs (bind m k).
Proof.
  intros Hm Hk w. destruct (Hm w) as (a & w1 & E1 & F1).
  destruct (Hk a w1) as (b & w2 & E2 & F2).
  exists b, w2. unfold bind. rewrite E1. split; [exact E2 |].
  eapply frame_trans; eassumption.
Qed.

Lemma runs_try_catch {A} (m : M A) (h : string -> M A) :
  framed m -> (forall e, runs (h e)) -> runs (try_catch m h).
Proof.
  intros Hm Hh w. unfold try_catch.
  destruct (m w) as [[a | e] w1] eqn:Em.
  - exists a, w1. split; [reflexivity | eapply Hm; eassumption].
  - destruct (Hh e w1) as (b & w2 & E2 & F2). exists b, w2.
    split; [exact E2 |]. eapply frame_trans; [eapply Hm |]; eassumption.
Qed.

Lemma runs_Date_now : runs Date_now.
Proof. intros w. exists (now w), w. split; [reflexivity | apply frame_refl]. Qed.

(** The writes of the program keep the frame. *)
Lemma frame_set_threatCache c w : frame w (set_threatCache c w).
Proof. repeat split. Qed.

Lemma frame_set_stats s w : frame w (set_stats s w).
Proof. repeat split. Qed.

Lemma frame_set_whitelist l w : frame w (set_whitelist l w).
Proof. repeat split. Qed.

Lemma frame_add_notification n w : frame w (add_notification n w).
Proof. repeat split. Qed.

Lemma frame_add_recorded r w : frame w (add_recorded r w).
Proof. repeat split. Qed.

Create HintDb steps.
#[local] Hint Resolve framed_ret framed_throw framed_Date_now framed_local_get
  framed_sync_get runs_ret runs_Date_now runs_framed
  frame_set_threatCache frame_set_stats frame_set_whitelist
  frame_add_notification frame_add_recorded frame_refl : steps.

(** Decompose a goal [framed m] or [runs m] along the shape of [m]. *)
Ltac step :=
  repeat first
    [ progress intros
    | apply framed_local_set | apply framed_sync_set
    | apply framed_bind | apply framed_try_catch
    | apply runs_try_catch | apply runs_bind
    | match goal with
      | |- framed (if ?b then _ else _) => destruct b
      | |- runs (if ?b then _ else _) => destruct b
      | |- framed (match ?x with _ => _ end) => destruct x
      | |- runs (match ?x with _ => _ end) => destruct x
      end
    | solve [auto with steps] ].

Lemma runs_getWhitelist : runs StorageManager.getWhitelist.
Proof. unfold StorageManager.getWhitelist. step. Qed.

Lemma runs_getBlacklist : runs StorageManager.getBlacklist.
Proof. unfold StorageManager.getBlacklist. step. Qed.

Lemma runs_isWhitelisted d : runs (StorageManager.isWhitelisted d).
Proof.
  unfold StorageManager.isWhitelisted. pose proof runs_getWhitelist. step.
Qed.

Lemma runs_isBlacklisted d : runs (StorageManager.isBlacklisted d).
Proof.
  unfold StorageManager.isBlacklisted. pose proof runs_getBlacklist. step.
Qed.

Lemma runs_removeFromWhitelist d : runs (StorageManager.removeFromWhitelist d).
Proof.
  unfold StorageManager.removeFromWhitelist. pose proof runs_getWhitelist. step.
Qed.

Lemma runs_getCachedThreat url : runs (StorageManager.getCachedThreat url).
Proof. unfold StorageManager.getCachedThreat. step. Qed.

Lemma runs_cacheThreat url a : runs (StorageManager.cacheThreat url a).
Proof. unfold StorageManager.cacheThreat. step. Qed.

Lemma runs_getStats : runs StorageManager.getStats.
Proof. unfold StorageManager.getStats. step. Qed.

Lemma runs_updateStats f : runs (StorageManager.updateStats f).
Proof. unfold StorageManager.updateStats. pose proof runs_getStats. step. Qed.

Lemma runs_incrementScanned : runs StorageManager.incrementScanned.
Proof.
  unfold StorageManager.incrementScanned.
  pose proof runs_getStats. pose proof runs_updateStats. step.
Qed.

Lemma runs_incrementBlocked : runs StorageManager.incrementBlocked.
Proof.
  unfold StorageManager.incrementBlocked.
  pose proof runs_getStats. pose proof runs_updateStats. step.
Qed.

Lemma runs_recordThreat level types :
  runs (AnalyticsManager.recordThreat level types).
Proof. unfold AnalyticsManager.recordThreat. step. Qed.

Lemma returns_ret {A} (a : A) : returns (ret a) a.
Proof. intros w. exists w. split; [reflexivity | apply frame_refl]. Qed.

Lemma returns_bind {A B} (m : M A) (k : A -> M B) (b : B) :
  runs m -> (forall a, returns (k a) b) -> returns (bind m k) b.
Proof.
  intros Hm Hk w. destruct (Hm w) as (a & w1 & E1 & F1).
  destruct (Hk a w1) as (w2 & E2 & F2).
  exists w2. unfold bind. rewrite E1. split; [exact E2 |].
  eapply frame_trans; eassumption.
Qed.

Section Stages.
Context `{Platform}.

Lemma runs_showThreatBlocked url u level count :
  new_URL url = Some u ->
  runs (NotificationManager.showThreatBlocked url level count).
Proof.
  intros Hu w. unfold NotificationManager.showThreatBlocked. rewrite Hu.
  destruct level; eexists; eexists; (split; [reflexivity |]);
    auto with steps.
Qed.

Lemma isWhitelisted_run d w :
  StorageManager.isWhitelisted d w
  = (Ok (StorageManager.listed d (read_whitelist w)), w).
Proof.
  unfold StorageManager.isWhitelisted, StorageManager.getWhitelist, bind,
    try_catch, sync_get, ret, read_whitelist.
  destruct (sync_get_fails (faults w)); reflexivity.
Qed.

Lemma isBlacklisted_run d w :
  StorageManager.isBlacklisted d w
  = (Ok (StorageManager.listed d (read_blacklist w)), w).
Proof.
  unfold StorageManager.isBlacklisted, StorageManager.getBlacklist, bind,
    try_catch, sync_get, ret, read_blacklist.
  destruct (sync_get_fails (faults w)); reflexivity.
Qed.

Lemma checkPhishTank_run url w :
  ThreatIntelligence.checkPhishTank url w = (Ok (reputation w url), w).
Proof.
  assert (exists r, ThreatIntelligence.checkPhishTank url w = (Ok r, w)) as [r E].
  { unfold ThreatIntelligence.checkPhishTank, try_catch, bind, local_get, ret,
      throw.
    destruct (pt_error (worker w url)); simpl; [| eauto].
    destruct (local_get_fails (faults w)); simpl; [eauto |].
    destruct (phishTankDB w) as [[urls t] |]; [| eauto].
    destruct (new_URL url); [| eauto].
    destruct (find _ urls); eauto. }
  unfold reputation. rewrite E. reflexivity.
Qed.

Lemma reputation_frame w w' url :
  frame w w' -> reputation w' url = reputation w url.
Proof.
  intros (_ & Hf & _ & Hd & Hw).
  unfold reputation, ThreatIntelligence.checkPhishTank, try_catch, bind,
    local_get, ret, throw.
  rewrite Hf, Hd, Hw.
  destruct (pt_error (worker w url)); simpl; [| reflexivity].
  destruct (local_get_fails (faults w)); simpl; [reflexivity |].
  destruct (phishTankDB w) as [[urls t] |]; [| reflexivity].
  destruct (new_URL url); [| reflexivity].
  destruct (find _ urls); reflexivity.
Qed.

Lemma read_blacklist_frame w w' :
  frame w w' -> read_blacklist w' = read_blacklist w.
Proof.
  intros (_ & Hf & Hb & _). unfold read_blacklist. rewrite Hf, Hb. reflexivity.
Qed.

Lemma blacklist_result_frame w w' url context domain :
  frame w w' ->
  blacklist_result w' url context domain = blacklist_result w url context domain.
Proof.
  intros F. unfold blacklist_result, reputation_result.
  rewrite (read_blacklist_frame w w' F), (reputation_frame w w' url F).
  destruct F as (Hn & _). rewrite Hn. reflexivity.
Qed.

(** The local analysis of a URL that parsed does not throw. *)
Lemma analyzeURL_parsed url u :
  new_URL url = Some u -> exists a, analyzeURL url = Ok a.
Proof.
  intros Hu. unfold analyzeURL. rewrite (make_parsed url u Hu).
  rewrite getThreatLevel_parsed. simpl. eauto.
Qed.

Lemma localAnalysis_parsed url context u :
  new_URL url = Some u -> exists a, PhishingDetector.localAnalysis url context = Ok a.
Proof.
  intros Hu. unfold PhishingDetector.localAnalysis.
  destruct (analyzeURL_parsed url u Hu) as [a E]. rewrite E. eauto.
Qed.

Lemma returns_finish url u a :
  new_URL url = Some u -> returns (PhishingDetector.finish url a) a.
Proof.
  intros Hu. unfold PhishingDetector.finish.
  pose proof (runs_showThreatBlocked url u) as Hs.
  apply returns_bind; [apply runs_cacheThreat | intros _].
  apply returns_bind; [apply runs_incrementScanned | intros _].
  apply returns_bind.
  - destruct (ThreatLevel_eqb (r_threatLevel a) dangerous).
    + apply runs_bind; [apply runs_incrementBlocked | intros _]. apply Hs, Hu.
    + destruct (_ && _); [apply Hs, Hu | apply runs_ret].
  - intros _. apply returns_bind; [apply runs_recordThreat | intros _].
    apply returns_ret.
Qed.

Lemma localStage_run url context u w :
  new_URL url = Some u ->
  exists w',
    PhishingDetector.localStage url context w
    = (PhishingDetector.localAnalysis url context, w') /\ frame w w'.
Proof.
  intros Hu. unfold PhishingDetector.localStage.
  destruct (localAnalysis_parsed url context u Hu) as [a E]. rewrite E.
  apply (returns_finish url u a Hu).
Qed.

Lemma reputationStage_run url context u domain w :
  new_URL url = Some u ->
  exists w',
    PhishingDetector.reputationStage url context domain w
    = (reputation_result w url context domain, w') /\ frame w w'.
Proof.
  intros Hu. unfold PhishingDetector.reputationStage, reputation_result.
  unfold bind at 1. rewrite checkPhishTank_run.
  destruct (pt_found (reputation w url)).
  - unfold bind at 1. unfold Date_now at 1.
    set (result := PhishingDetector.phishtank_result url domain (now w) _).
    assert (returns
              (StorageManager.cacheThreat url result ;;;
               StorageManager.incrementBlocked ;;;
               NotificationManager.showThreatBlocked url (r_threatLevel result) 1 ;;;
               ret result) result) as R.
    { apply returns_bind; [apply runs_cacheThreat | intros _].
      apply returns_bind; [apply runs_incrementBlocked | intros _].
      apply returns_bind; [apply (runs_showThreatBlocked url u), Hu | intros _].
      apply returns_ret. }
    apply R.
  - apply (localStage_run url context u w Hu).
Qed.

Lemma blacklistStage_run url context u domain w :
  new_URL url = Some u ->
  exists w',
    PhishingDetector.blacklistStage url context domain w
    = (blacklist_result w url context domain, w') /\ frame w w'.
Proof.
  intros Hu. unfold PhishingDetector.blacklistStage, blacklist_result.
  unfold bind at 1. rewrite isBlacklisted_run.
  destruct (StorageManager.listed domain (read_blacklist w)).
  - unfold bind at 1. unfold Date_now at 1.
    set (result := PhishingDetector.blacklisted_result url domain (now w)).
    assert (returns
              (StorageManager.cacheThreat url result ;;;
               StorageManager.incrementBlocked ;;;
               ret result) result) as R.
    { apply returns_bind; [apply runs_cacheThreat | intros _].
      apply returns_bind; [apply runs_incrementBlocked | intros _].
      apply returns_ret. }
    apply R.
  - apply (reputationStage_run url context u domain w Hu).
Qed.

(** What [analyzeLink] does past the cache on a URL that parsed. *)
Lemma analyzeUncached_run url context u w :
  new_URL url = Some u ->
  exists w',
    PhishingDetector.analyzeUncached url context w
    = (uncached_result w url context u, w') /\ frame w w'.
Proof.
  intros Hu. unfold PhishingDetector.analyzeUncached, uncached_result.
  rewrite Hu. cbv zeta. unfold bind at 1. rewrite isWhitelisted_run.
  destruct (StorageManager.listed (url_hostname u) (read_whitelist w)); simpl andb.
  - destruct (PhishingDetector.verifyWhitelistedDomain (url_hostname u)).
    + unfold bind at 1. unfold ret at 1. unfold bind at 1. unfold Date_now at 1.
      set (result := PhishingDetector.whitelisted_result url _ (now w)).
      assert (returns (StorageManager.cacheThreat url result ;;; ret result) result) as R.
      { apply returns_bind; [apply runs_cacheThreat | intros _]. apply returns_ret. }
      apply R.
    + unfold bind at 1. unfold bind at 1.
      destruct (runs_removeFromWhitelist (url_hostname u) w) as (b & w1 & E1 & F1).
      rewrite E1. unfold ret at 1.
      destruct (blacklistStage_run url context u (url_hostname u) w1 Hu)
        as (w2 & E2 & F2).
      exists w2. rewrite E2, (blacklist_result_frame w w1 _ _ _ F1).
      split; [reflexivity | eapply frame_trans; eassumption].
  - unfold bind at 1. unfold ret at 1.
    apply (blacklistStage_run url context u (url_hostname u) w Hu).
Qed.

(** Past the cache, a URL that does not parse throws the [TypeError] of the
    [URL] constructor. *)
Lemma analyzeUncached_invalid url context w :
  new_URL url = None ->
  PhishingDetector.analyzeUncached url context w = (Throw URL_error, w).
Proof.
  intros Hu. unfold PhishingDetector.analyzeUncached. rewrite Hu. reflexivity.
Qed.

Lemma uncached_result_ok url context u w :
  new_URL url = Some u -> exists a, uncached_result w url context u = Ok a.
Proof.
  intros Hu. unfold uncached_result, blacklist_result, reputation_result.
  destruct (_ && _); [eauto |].
  destruct (StorageManager.listed _ _); [eauto |].
  destruct (pt_found _); [eauto |].
  apply (localAnalysis_parsed url context u Hu).
Qed.

End Stages.

(** ** The cache stage *)

Section Cache.
Context `{Platform}.

Lemma getCachedThreat_miss url w :
  StorageManager.lookup url (threatCache w) = None ->
  StorageManager.getCachedThreat url w = (Ok None, w).
Proof.
  intros Hm. unfold StorageManager.getCachedThreat, try_catch, bind, local_get.
  destruct (local_get_fails (faults w)); [reflexivity |]. rewrite Hm. reflexivity.
Qed.

(** With no entry for the URL, [analyzeLink] is the analysis past the cache. *)
Lemma analyzeLink_try_miss url context w :
  StorageManager.lookup url (threatCache w) = None ->
  PhishingDetector.analyzeLink_try url context w
  = PhishingDetector.analyzeUncached url context w.
Proof.
  intros Hm. unfold PhishingDetector.analyzeLink_try.
  unfold bind at 1. rewrite (getCachedThreat_miss url w Hm).
  reflexivity.
Qed.

Lemma analyzeLink_miss url context w :
  StorageManager.lookup url (threatCache w) = None ->
  PhishingDetector.analyzeLink url context w = fresh url context w.
Proof.
  intros Hm. unfold PhishingDetector.analyzeLink, fresh, try_catch.
  rewrite (analyzeLink_try_miss url context w Hm). reflexivity.
Qed.

Lemma runs_isCacheValid c : runs (PhishingDetector.isCacheValid c).
Proof. unfold PhishingDetector.isCacheValid. step. Qed.

(** The result of a fresh analysis of a URL that parsed. *)
Lemma fresh_parsed url context u w :
  new_URL url = Some u ->
  exists a w',
    fresh url context w = (Ok a, w') /\ uncached_result w url context u = Ok a
    /\ frame w w'.
Proof.
  intros Hu. unfold fresh, try_catch.
  destruct (analyzeUncached_run url context u w Hu) as (w' & E & F).
  destruct (uncached_result_ok url context u w Hu) as (a & Ea).
  rewrite E, Ea. eauto.
Qed.

Lemma fresh_invalid url context w :
  new_URL url = None ->
  fresh url context w = (Ok (PhishingDetector.error_result url URL_error), w).
Proof.
  intros Hu. unfold fresh, try_catch.
  rewrite (analyzeUncached_invalid url context w Hu). reflexivity.
Qed.

(** The try block returns on every URL that parses. *)
Lemma analyzeLink_try_parsed url context u w :
  new_URL url = Some u ->
  exists a w', PhishingDetector.analyzeLink_try url context w = (Ok a, w').
Proof.
  intros Hu.
  assert (forall w0, exists a w',
             PhishingDetector.analyzeUncached url context w0 = (Ok a, w')) as U.
  { intros w0. destruct (analyzeUncached_run url context u w0 Hu) as (w' & E & _).
    destruct (uncached_result_ok url context u w0 Hu) as (a & Ea).
    rewrite Ea in E. eauto. }
  unfold PhishingDetector.analyzeLink_try. unfold bind at 1.
  destruct (runs_getCachedThreat url w) as ([c |] & w1 & E1 & _); rewrite E1.
  - unfold bind at 1.
    destruct (runs_isCacheValid c w1) as (v & w2 & E2 & _). rewrite E2.
    destruct v; [| apply U].
    destruct (_ || _); [| unfold ret; eauto].
    unfold bind, Date_now. destruct (_ <? _); [apply U | unfold ret; eauto].
  - unfold bind at 1. unfold ret at 1. apply U.
Qed.

End Cache.

(** ** Shape of the local analysis *)

Section Local.
Context `{Platform}.

Lemma hits_filter (text : string) (words : list string) :
  Z.of_nat (List.length (filter (fun word => JS.includes text word) words))
  = Spec.hits text words.
Proof.
  induction words as [| word rest IH]; [reflexivity |].
  cbn [filter Spec.hits]. destruct (JS.includes text word); cbn [List.length]; lia.
Qed.

Lemma analyzeContext_score (text : string) :
  text <> EmptyString ->
  PhishingDetector.analyzeContext text = Spec.keyword_score text.
Proof.
  intros Ht. unfold PhishingDetector.analyzeContext, Spec.keyword_score.
  destruct (String.eqb_spec text EmptyString); [contradiction |].
  rewrite !hits_filter. reflexivity.
Qed.

(** The fields that the local analysis sets. *)
Lemma localAnalysis_shape url context a :
  PhishingDetector.localAnalysis url context = Ok a ->
  let k := PhishingDetector.analyzeContext
             (PhishingDetector.context_or_url context url) in
  r_contextScore a = Some k
  /\ (exists base, r_issues a = (base ++ PhishingDetector.context_issues k)%list)
  /\ r_threatLevel a = PhishingDetector.calculateFinalThreatLevel a
  /\ r_timestamp a = None
  /\ r_error a = None.
Proof.
  unfold PhishingDetector.localAnalysis.
  destruct (analyzeURL url) as [ua | e]; [| discriminate].
  intros E. inversion E; subst; clear E. cbv zeta.
  unfold PhishingDetector.set_threatLevel.
  cbn [r_contextScore r_issues r_threatLevel r_timestamp r_error].
  repeat split.
  exists (ua_issues ua ++ PhishingDetector.ml_issues (PatternDetector.analyze url)
          ++ SSLValidator.issues (SSLValidator.validateURL url))%list.
  rewrite <- !app_assoc. reflexivity.
Qed.

(** A legitimate domain makes the local analysis safe. *)
Lemma localAnalysis_legitimate url context u :
  new_URL url = Some u ->
  URLParser.isLegitimate
    (URLParser.mkFields url u (toLowerCase (url_hostname u))
       (URLParser.extractDomain (toLowerCase (url_hostname u)))
       (url_protocol u) (url_username u)) = true ->
  exists a,
    PhishingDetector.localAnalysis url context = Ok a
    /\ r_threatLevel a = safe
    /\ r_isLegitimate a = Some true
    /\ r_issues a =
       (URLParser.getIssues (URLParser.make url)
        ++ PhishingDetector.ml_issues (PatternDetector.analyze url)
        ++ SSLValidator.issues (SSLValidator.validateURL url)
        ++ PhishingDetector.context_issues
             (PhishingDetector.analyzeContext
                (PhishingDetector.context_or_url context url)))%list.
Proof.
  intros Hu Hl. unfold PhishingDetector.localAnalysis, analyzeURL.
  rewrite (make_parsed url u Hu), getThreatLevel_parsed.
  unfold URLParser.isLegitimate_method. rewrite Hl.
  eexists. split; [reflexivity |].
  unfold PhishingDetector.set_threatLevel.
  cbn [r_threatLevel r_isLegitimate r_issues ua_isLegitimate ua_issues].
  unfold PhishingDetector.calculateFinalThreatLevel.
  cbn [r_isLegitimate]. repeat split.
Qed.

(** A positive context score leaves its issue and a verdict that is at least
    suspicious, unless the domain is legitimate. *)
Lemma context_forces (a : AnalysisResult) (k : Z) (base : list Issue) :
  r_contextScore a = Some k ->
  r_issues a = (base ++ PhishingDetector.context_issues k)%list ->
  0 < k ->
  (exists i, In i (r_issues a) /\ type i = "suspicious_context")
  /\ (r_isLegitimate a = Some true
      \/ PhishingDetector.calculateFinalThreatLevel a = suspicious
      \/ PhishingDetector.calculateFinalThreatLevel a = dangerous).
Proof.
  intros Hk Hi Hpos. split.
  - rewrite Hi. unfold PhishingDetector.context_issues.
    replace (0 <? k) with true by (symmetry; apply Z.ltb_lt; exact Hpos).
    eexists. split; [apply in_or_app; right; left; reflexivity |].
    destruct (9 <=? k); [reflexivity |].
    destruct (5 <=? k); [reflexivity |].
    destruct (3 <=? k); reflexivity.
  - unfold PhishingDetector.calculateFinalThreatLevel. rewrite Hk.
    destruct (r_isLegitimate a) as [[|] |]; [left; reflexivity | |];
      right;
      (destruct (9 <=? k); [right; reflexivity |]);
      (destruct (5 <=? k); [left; reflexivity |]);
      (destruct (_ || _); [right; reflexivity |]);
      (destruct (_ || _); [left; reflexivity |]);
      (replace (0 <? Z.of_nat (List.length (r_issues a))) with true;
       [left; reflexivity |]);
      symmetry; apply Z.ltb_lt; rewrite Hi, length_app;
      unfold PhishingDetector.context_issues;
      replace (0 <? k) with true by (symmetry; apply Z.ltb_lt; exact Hpos);
      cbn [List.length]; lia.
Qed.

End Local.

(** ** Legitimate domains *)

Section Legitimate.
Context `{Platform}.

Lemma listed_nil d : StorageManager.listed d [] = false.
Proof. reflexivity. Qed.

Lemma read_whitelist_empty w : whitelist w = [] -> read_whitelist w = [].
Proof.
  intros E. unfold read_whitelist. rewrite E.
  destruct (sync_get_fails (faults w)); reflexivity.
Qed.

Lemma read_blacklist_empty w : blacklist w = [] -> read_blacklist w = [].
Proof.
  intros E. unfold read_blacklist. rewrite E.
  destruct (sync_get_fails (faults w)); reflexivity.
Qed.

Lemma reputation_empty w url :
  phishTankDB w = None -> pt_found (worker w url) = false ->
  pt_found (reputation w url) = false.
Proof.
  intros Hd Hw.
  unfold reputation, ThreatIntelligence.checkPhishTank, try_catch, bind,
    local_get, ret.
  rewrite Hd.
  destruct (pt_error (worker w url)); simpl; [| exact Hw].
  destruct (local_get_fails (faults w)); reflexivity.
Qed.

(** C2, amended. For every URL whose registrable domain is, or whose host is
    a subdomain of, an entry of the legitimate-domain set, with empty cache,
    white list, black list and reputation stores, [analyzeLink] returns the
    safe threat level.  The issues are not cleared: the result carries the
    issues that the detectors, the pattern scorer, the TLS checks and the
    context score produced. *)
Theorem C2_legitimate_is_safe (url : string) (context : option string)
  (u : URL) (w : World) (d : string) :
  new_URL url = Some u ->
  In d Constants.LEGITIMATE_DOMAINS ->
  URLParser.extractDomain (toLowerCase (url_hostname u)) = d
  \/ JS.endsWith (toLowerCase (url_hostname u)) ("." ++ d) = true ->
  threatCache w = [] ->
  whitelist w = [] ->
  blacklist w = [] ->
  phishTankDB w = None ->
  pt_found (worker w url) = false ->
  exists a w',
    PhishingDetector.analyzeLink url context w = (Ok a, w')
    /\ r_threatLevel a = safe
    /\ r_issues a =
       (URLParser.getIssues (URLParser.make url)
        ++ PhishingDetector.ml_issues (PatternDetector.analyze url)
        ++ SSLValidator.issues (SSLValidator.validateURL url)
        ++ PhishingDetector.context_issues
             (PhishingDetector.analyzeContext
                (PhishingDetector.context_or_url context url)))%list.
Proof.
  intros Hu Hd Hl Hc Hwl Hbl Hdb Hwk.
  assert (URLParser.isLegitimate
            (URLParser.mkFields url u (toLowerCase (url_hostname u))
               (URLParser.extractDomain (toLowerCase (url_hostname u)))
               (url_protocol u) (url_username u)) = true) as Hleg.
  { unfold URLParser.isLegitimate. apply existsb_exists. exists d.
    split; [exact Hd |]. cbn [URLParser.domain URLParser.hostname].
    destruct Hl as [E | E]; rewrite E.
    - rewrite String.eqb_refl. reflexivity.
    - apply orb_true_r. }
  destruct (localAnalysis_legitimate url context u Hu Hleg)
    as (a & Ea & Hsafe & _ & Hissues).
  destruct (fresh_parsed url context u w Hu) as (a' & w' & Ef & Er & _).
  exists a, w'. rewrite analyzeLink_miss by (rewrite Hc; reflexivity).
  unfold uncached_result, blacklist_result, reputation_result in Er.
  rewrite (read_whitelist_empty w Hwl), (read_blacklist_empty w Hbl) in Er.
  rewrite !listed_nil, (reputation_empty w url Hdb Hwk) in Er.
  cbn [andb] in Er. rewrite Ea in Er. inversion Er; subst a'.
  repeat split; assumption.
Qed.

End Legitimate.

Lemma C2_witness :
  exists a w',
    PhishingDetector.analyzeLink (H := Example.platform)
      "https://mail.google.com" None (Example.empty_world 0) = (Ok a, w')
    /\ r_threatLevel a = safe
    /\ r_issues a =
       (URLParser.getIssues
          (URLParser.make (H := Example.platform) "https://mail.google.com")
        ++ PhishingDetector.ml_issues
             (PatternDetector.analyze (H := Example.platform)
                "https://mail.google.com")
        ++ SSLValidator.issues
             (SSLValidator.validateURL (H := Example.platform)
                "https://mail.google.com")
        ++ PhishingDetector.context_issues
             (PhishingDetector.analyzeContext (H := Example.platform)
                (PhishingDetector.context_or_url None
                   "https://mail.google.com")))%list.
Proof.
  apply (C2_legitimate_is_safe (H := Example.platform)
           "https://mail.google.com" None
           (mkURL "https:" EmptyString "mail.google.com" EmptyString "/" [])
           (Example.empty_world 0) "google.com");
    try reflexivity.
  - simpl. left. reflexivity.
  - right. reflexivity.
Defined.

(** C2, as the specification has it, fails on the issues: [http://zoho.com]
    is on a legitimate domain and is rated safe, and its result carries the
    issue of [URLParser.isInsecure] and the issue of the protocol check of
    [SSLValidator.validateURL], both raised because the URL is not https. *)
Lemma C2_counterexample :
  exists a w',
    PhishingDetector.analyzeLink (H := Example.platform)
      "http://zoho.com" None (quiet_world 0) = (Ok a, w')
    /\ r_isLegitimate a = Some true
    /\ r_threatLevel a = safe
    /\ map (fun i => (type i, severity i)) (r_issues a)
       = [("insecure", medium); ("insecure_protocol", high)]
    /\ r_issues a <> [].
Proof.
  eexists. eexists. split; [vm_compute; reflexivity |].
  repeat split. discriminate.
Qed.

(** ** Typosquatting *)

(** C4. What the code does on [gooogle.com].  The host does not contain the
    target [google], so the loop of [isTyposquatting] never reaches the edit
    distance, which is 1; the detector returns false, the only issue of the
    full analysis is the homograph issue (the letter l), and the verdict is
    suspicious, not dangerous. *)
Theorem C4_gooogle_is_missed :
  exists this a w',
    URLParser.make (H := Example.platform) "https://gooogle.com"
      = URLParser.Parsed this
    /\ URLParser.hostname this = "gooogle.com"
    /\ URLParser.levenshteinDistance "gooogle.com" "google.com" = 1
    /\ JS.includes "gooogle.com" "google" = false
    /\ URLParser.isTyposquatting this = false
    /\ PhishingDetector.analyzeLink (H := Example.platform)
         "https://gooogle.com" None (Example.empty_world 0) = (Ok a, w')
    /\ map type (r_issues a) = ["homograph"]
    /\ r_threatLevel a = suspicious.
Proof.
  eexists. eexists. eexists.
  split; [vm_compute; reflexivity |].
  split; [reflexivity |].
  split; [vm_compute; reflexivity |].
  split; [vm_compute; reflexivity |].
  split; [vm_compute; reflexivity |].
  split; [vm_compute; reflexivity |].
  split; reflexivity.
Qed.

(** The other misspelling that the README names, [paypa1.com], is missed for
    the same reason: the host does not contain [paypal], so neither the edit
    distance nor the character substitutions are tried. *)
Example paypa1_is_missed :
  exists this,
    URLParser.make (H := Example.platform) "https://paypa1.com"
      = URLParser.Parsed this
    /\ JS.includes (URLParser.hostname this) "paypal" = false
    /\ URLParser.levenshteinDistance "paypa1.com" "paypal.com" = 1
    /\ URLParser.isTyposquatting this = false.
Proof.
  eexists. split; [vm_compute; reflexivity |].
  repeat split; vm_compute; reflexivity.
Qed.

(** ** Malformed URLs and the error boundary *)

Section Boundary.
Context `{Platform}.

(** C5, amended. For every string that the URL parser rejects and that has
    no entry in the cache, [analyzeLink] returns the unknown verdict with
    exactly one issue, of type [error] and low severity, and throws nothing.
    The issue of type [invalid_url] and high severity is what
    [URLParser.getIssues] reports on such a string; it does not reach the
    result of [analyzeLink]. *)
Theorem C5_malformed_url (url : string) (context : option string) (w : World) :
  new_URL url = None ->
  StorageManager.lookup url (threatCache w) = None ->
  exists a,
    PhishingDetector.analyzeLink url context w = (Ok a, w)
    /\ r_threatLevel a = unknown
    /\ r_issues a = [issue "error" low "Analysis failed"]
    /\ URLParser.getIssues (URLParser.make url)
       = [issue "invalid_url" high "Invalid URL format"].
Proof.
  intros Hu Hm. exists (PhishingDetector.error_result url URL_error).
  rewrite (analyzeLink_miss url context w Hm), (fresh_invalid url context w Hu).
  rewrite (make_invalid url Hu). repeat split.
Qed.

(** C6, amended. [analyzeLink] never throws.  An error that reaches its
    boundary becomes the result with the unknown verdict and the single
    issue of type [error] and low severity.  On a URL that parses no error
    reaches the boundary, whatever calls of the store reject: the store
    helpers catch those errors themselves and the analysis goes on with
    their defaults. *)
Theorem C6_error_boundary (url : string) (context : option string) (w : World) :
  exists a w',
    PhishingDetector.analyzeLink url context w = (Ok a, w')
    /\ match PhishingDetector.analyzeLink_try url context w with
       | (Throw e, _) =>
           a = PhishingDetector.error_result url e
           /\ r_threatLevel a = unknown
           /\ r_issues a = [issue "error" low "Analysis failed"]
       | (Ok a', _) => a = a'
       end
    /\ match new_URL url with
       | Some _ =>
           exists a', fst (PhishingDetector.analyzeLink_try url context w) = Ok a'
       | None => True
       end.
Proof.
  unfold PhishingDetector.analyzeLink, try_catch.
  destruct (new_URL url) as [u |] eqn:Hu.
  - destruct (analyzeLink_try_parsed url context u w Hu) as (a & w' & E).
    rewrite E. exists a, w'. repeat split. exists a. reflexivity.
  - destruct (PhishingDetector.analyzeLink_try url context w) as [[a | e] w'].
    + exists a, w'. repeat split.
    + exists (PhishingDetector.error_result url e), w'. repeat split.
Qed.

End Boundary.

Lemma C5_witness :
  exists a,
    PhishingDetector.analyzeLink (H := Example.platform) "not-a-url" None
      (Example.empty_world 0) = (Ok a, Example.empty_world 0)
    /\ r_threatLevel a = unknown
    /\ r_issues a = [issue "error" low "Analysis failed"]
    /\ URLParser.getIssues (URLParser.make (H := Example.platform) "not-a-url")
       = [issue "invalid_url" high "Invalid URL format"].
Proof.
  apply (C5_malformed_url (H := Example.platform) "not-a-url" None
           (Example.empty_world 0)); reflexivity.
Defined.

(** C5, as the specification has it, fails on the test input [not-a-url]:
    the one issue of the result has type [error] and low severity, not
    [invalid_url] and high. *)
Lemma C5_counterexample :
  exists a w',
    new_URL (Platform := Example.platform) "not-a-url" = None
    /\ PhishingDetector.analyzeLink (H := Example.platform) "not-a-url" None
         (Example.empty_world 0) = (Ok a, w')
    /\ map (fun i => (type i, severity i)) (r_issues a) = [("error", low)]
    /\ map (fun i => (type i, severity i)) (r_issues a)
       <> [("invalid_url", high)].
Proof.
  eexists. eexists. split; [reflexivity |].
  split; [vm_compute; reflexivity |].
  split; [reflexivity | discriminate].
Qed.

(** C6, as the specification has it, fails when the store rejects its calls:
    the read of the cache throws inside [getCachedThreat], yet the analysis
    of [http://192.168.1.1] goes on and returns the dangerous verdict with
    the issues of the analysis, not the result of the error boundary. *)
Lemma C6_counterexample :
  exists a w',
    fst (local_get threatCache (faulty_world 0))
      = Throw "chrome.storage.local.get"
    /\ PhishingDetector.analyzeLink (H := Example.platform)
         "http://192.168.1.1" None (faulty_world 0) = (Ok a, w')
    /\ r_threatLevel a = dangerous
    /\ map type (r_issues a)
       = ["ip_address"; "homograph"; "insecure"; "insecure_protocol"]
    /\ r_threatLevel a <> unknown.
Proof.
  eexists. eexists. split; [reflexivity |].
  split; [vm_compute; reflexivity |].
  split; [reflexivity |]. split; [reflexivity | discriminate].
Qed.

(** ** Time stamps, the cache window and repeated runs *)

Section Windows.
Context `{Platform}.

Lemma reputation_ext w w' url :
  faults w' = faults w -> phishTankDB w' = phishTankDB w -> worker w' = worker w ->
  reputation w' url = reputation w url.
Proof.
  intros Hf Hd Hw.
  unfold reputation, ThreatIntelligence.checkPhishTank, try_catch, bind,
    local_get, ret, throw.
  rewrite Hf, Hd, Hw.
  destruct (pt_error (worker w url)); simpl; [| reflexivity].
  destruct (local_get_fails (faults w)); simpl; [reflexivity |].
  destruct (phishTankDB w) as [[urls t] |]; [| reflexivity].
  destruct (new_URL url); [| reflexivity].
  destruct (find _ urls); reflexivity.
Qed.

(** The time stamp of a result past the cache: none on the local analysis,
    the clock reading on a short cut. *)
Lemma uncached_result_timestamp w url context u a :
  uncached_result w url context u = Ok a ->
  r_timestamp a = None \/ r_timestamp a = Some (now w).
Proof.
  unfold uncached_result, blacklist_result, reputation_result.
  destruct (_ && _); [intros E; inversion E; right; reflexivity |].
  destruct (StorageManager.listed _ _); [intros E; inversion E; right; reflexivity |].
  destruct (pt_found _); [intros E; inversion E; right; reflexivity |].
  intros E. left. apply (localAnalysis_shape url context a E).
Qed.

Lemma fresh_timestamp url context w a w' :
  fresh url context w = (Ok a, w') ->
  r_timestamp a = None \/ r_timestamp a = Some (now w).
Proof.
  intros E. destruct (new_URL url) as [u |] eqn:Hu.
  - destruct (fresh_parsed url context u w Hu) as (a2 & w2 & E2 & Er & _).
    rewrite E in E2. inversion E2; subst.
    apply (uncached_result_timestamp w url context u a2 Er).
  - rewrite (fresh_invalid url context w Hu) in E. inversion E. left. reflexivity.
Qed.

Lemma fresh_returns url context w :
  exists a w', fresh url context w = (Ok a, w').
Proof.
  unfold fresh, try_catch.
  destruct (PhishingDetector.analyzeUncached url context w) as [[a | e] w'];
    unfold ret; eauto.
Qed.

(** What the analysis past the cache returns: on a URL that parses, the
    result of the white list, the black list, the reputation data or the
    local analysis, whichever comes first; the error result on one that does
    not parse.  Its time stamp is absent or the clock reading. *)
Lemma fresh_result url context w :
  exists a w',
    fresh url context w = (Ok a, w')
    /\ match new_URL url with
       | Some u => uncached_result w url context u = Ok a
       | None => a = PhishingDetector.error_result url URL_error
       end
    /\ (r_timestamp a = None \/ r_timestamp a = Some (now w)).
Proof.
  destruct (fresh_returns url context w) as (a & w' & Ef).
  exists a, w'. split; [exact Ef |].
  split; [| exact (fresh_timestamp url context w a w' Ef)].
  destruct (new_URL url) as [u |] eqn:Hu.
  - destruct (fresh_parsed url context u w Hu) as (a2 & w2 & E2 & Er & _).
    rewrite Ef in E2. inversion E2; subst. exact Er.
  - rewrite (fresh_invalid url context w Hu) in Ef. inversion Ef. reflexivity.
Qed.

Lemma isCacheValid_dangerous c ts w :
  r_threatLevel c = dangerous -> r_timestamp c = Some ts -> 0 < ts ->
  PhishingDetector.isCacheValid c w = (Ok (now w - ts <? 3600000), w).
Proof.
  intros Hd Ht Hpos. unfold PhishingDetector.isCacheValid. rewrite Ht, Hd.
  replace (ts =? 0) with false by (symmetry; apply Z.eqb_neq; lia).
  reflexivity.
Qed.

(** C7. A cached result with the dangerous threat level, read back by the
    next lookup of its URL: while its age is under one hour [analyzeLink]
    returns it as it is and changes nothing; once its age has reached one
    hour (so also when it exceeds one hour) [analyzeLink] runs the analysis
    past the cache and returns its result, which is not the cached one: on a
    URL that parses it is the result of the white list, the black list, the
    reputation data or the local analysis ([uncached_result]), read in the
    world that the lookup of the cache leaves, and on a URL that does not
    parse it is the error result. *)
Theorem C7_dangerous_cache_window (url : string) (context : option string)
  (w : World) (c : AnalysisResult) (ts : Z) :
  local_get_fails (faults w) = false ->
  StorageManager.lookup url (threatCache w) = Some c ->
  r_threatLevel c = dangerous ->
  r_timestamp c = Some ts ->
  0 < ts ->
  if now w - ts <? 3600000
  then PhishingDetector.analyzeLink url context w = (Ok c, w)
  else PhishingDetector.analyzeLink url context w
       = fresh url context (snd (StorageManager.getCachedThreat url w))
       /\ fst (PhishingDetector.analyzeLink url context w) <> Ok c
       /\ exists a w',
            PhishingDetector.analyzeLink url context w = (Ok a, w')
            /\ match new_URL url with
               | Some u =>
                   uncached_result (snd (StorageManager.getCachedThreat url w))
                     url context u = Ok a
               | None => a = PhishingDetector.error_result url URL_error
               end.
Proof.
  intros Hf Hl Hd Ht Hpos.
  assert (StorageManager.getCachedThreat url w
          = if 604800000 <? now w - ts
            then (if local_set_fails (faults w) then (Ok None, w)
                  else (Ok None,
                        set_threatCache
                          (StorageManager.remove url (threatCache w)) w))
            else (Ok (Some c), w)) as Eg.
  { unfold StorageManager.getCachedThreat, try_catch, bind, local_get, Date_now,
      local_set, ret.
    rewrite Hf, Hl, Ht, Hd. cbn [Constants.CACHE_DURATION].
    destruct (604800000 <? now w - ts); [| reflexivity].
    destruct (local_set_fails (faults w)); reflexivity. }
  destruct (Z.ltb_spec (now w - ts) 3600000) as [Hyoung | Hold].
  - unfold PhishingDetector.analyzeLink, try_catch,
      PhishingDetector.analyzeLink_try.
    unfold bind at 1. rewrite Eg.
    replace (604800000 <? now w - ts) with false
      by (symmetry; apply Z.ltb_ge; lia).
    unfold bind at 1. rewrite (isCacheValid_dangerous c ts w Hd Ht Hpos).
    replace (now w - ts <? 3600000) with true
      by (symmetry; apply Z.ltb_lt; lia).
    rewrite Hd. cbn [ThreatLevel_eqb orb]. unfold bind, Date_now, ret.
    rewrite Ht.
    replace (3600000 <? now w - ts) with false
      by (symmetry; apply Z.ltb_ge; lia).
    reflexivity.
  - assert (PhishingDetector.analyzeLink url context w
            = fresh url context (snd (StorageManager.getCachedThreat url w)))
      as Ea.
    { unfold PhishingDetector.analyzeLink, fresh, try_catch,
        PhishingDetector.analyzeLink_try.
      unfold bind at 1. rewrite Eg.
      destruct (604800000 <? now w - ts).
      - destruct (local_set_fails (faults w)); reflexivity.
      - unfold bind at 1. rewrite (isCacheValid_dangerous c ts w Hd Ht Hpos).
        replace (now w - ts <? 3600000) with false
          by (symmetry; apply Z.ltb_ge; lia).
        reflexivity. }
    split; [exact Ea |]. rewrite Ea.
    destruct (fresh_result url context
                (snd (StorageManager.getCachedThreat url w)))
      as (a & w' & Ef & Er & En).
    split; [| exists a, w'; split; [exact Ef | exact Er]].
    rewrite Ef. cbn [fst]. intros Ec. inversion Ec; subst a.
    destruct En as [En | En]; rewrite Ht in En; [discriminate |].
    inversion En as [En'].
    destruct (runs_getCachedThreat url w) as (r & w1 & E1 & (Hn & _)).
    rewrite E1 in En'. cbn [snd] in En'. lia.
Qed.

(** Two runs on the same reference stores read the same white list, black
    list and reputation. *)
Lemma uncached_result_same_stores w1 w2 url context u a1 a2 :
  same_stores w1 w2 ->
  uncached_result w1 url context u = Ok a1 ->
  uncached_result w2 url context u = Ok a2 ->
  without_timestamp a1 = without_timestamp a2
  /\ (r_timestamp a1 = None /\ r_timestamp a2 = None
      \/ r_timestamp a1 = Some (now w1) /\ r_timestamp a2 = Some (now w2)).
Proof.
  intros (Hf & Hwl & Hbl & Hdb & Hwk & _ & _).
  unfold uncached_result, blacklist_result, reputation_result,
    read_whitelist, read_blacklist.
  rewrite (reputation_ext w2 w1 url Hf Hdb Hwk), Hf, Hwl, Hbl.
  destruct (_ && _);
    [intros E1 E2; inversion E1; inversion E2; split;
     [reflexivity | right; split; reflexivity] |].
  destruct (StorageManager.listed _ _);
    [intros E1 E2; inversion E1; inversion E2; split;
     [reflexivity | right; split; reflexivity] |].
  destruct (pt_found _);
    [intros E1 E2; inversion E1; inversion E2; split;
     [reflexivity | right; split; reflexivity] |].
  intros E1 E2. rewrite E1 in E2. inversion E2; subst a2.
  split; [reflexivity |]. left.
  split; apply (localAnalysis_shape url context a1 E1).
Qed.

(** C9, amended. Two runs of [analyzeLink] on the same URL and context, from
    an empty cache and the same white list, black list, reputation data and
    store faults, return results with the same url, domain, threat level,
    issues and scores: the results are equal once the time stamp is set
    aside.  The time stamp is absent from both (local analysis, error
    result) or is, in each, the clock reading of its own run (white list,
    black list and reputation short cuts). *)
Theorem C9_same_stores_same_result (url : string) (context : option string)
  (w1 w2 : World) :
  same_stores w1 w2 ->
  exists a1 a2 w1' w2',
    PhishingDetector.analyzeLink url context w1 = (Ok a1, w1')
    /\ PhishingDetector.analyzeLink url context w2 = (Ok a2, w2')
    /\ without_timestamp a1 = without_timestamp a2
    /\ (r_timestamp a1 = None /\ r_timestamp a2 = None
        \/ r_timestamp a1 = Some (now w1) /\ r_timestamp a2 = Some (now w2)).
Proof.
  intros S. pose proof S as (_ & _ & _ & _ & _ & Hc1 & Hc2).
  rewrite !analyzeLink_miss by (rewrite ?Hc1, ?Hc2; reflexivity).
  destruct (new_URL url) as [u |] eqn:Hu.
  - destruct (fresh_parsed url context u w1 Hu) as (a1 & w1' & E1 & R1 & _).
    destruct (fresh_parsed url context u w2 Hu) as (a2 & w2' & E2 & R2 & _).
    exists a1, a2, w1', w2'. rewrite E1, E2.
    split; [reflexivity |]. split; [reflexivity |].
    apply (uncached_result_same_stores w1 w2 url context u a1 a2 S R1 R2).
  - rewrite !(fresh_invalid url context _ Hu).
    do 4 eexists. split; [reflexivity |]. split; [reflexivity |].
    split; [reflexivity |]. left. split; reflexivity.
Qed.

End Windows.

Lemma C7_witness :
  PhishingDetector.analyzeLink (H := Example.platform) "https://evil.com" None
    (cached_world 61000) = (Ok dangerous_entry, cached_world 61000)
  /\ (PhishingDetector.analyzeLink (H := Example.platform) "https://evil.com"
        None (cached_world 7201000)
      = fresh (H := Example.platform) "https://evil.com" None
          (snd (StorageManager.getCachedThreat "https://evil.com"
                  (cached_world 7201000)))
      /\ fst (PhishingDetector.analyzeLink (H := Example.platform)
                "https://evil.com" None (cached_world 7201000))
         <> Ok dangerous_entry
      /\ exists a w',
           PhishingDetector.analyzeLink (H := Example.platform)
             "https://evil.com" None (cached_world 7201000) = (Ok a, w')
           /\ uncached_result (H := Example.platform)
                (snd (StorageManager.getCachedThreat "https://evil.com"
                        (cached_world 7201000)))
                "https://evil.com" None
                (mkURL "https:" EmptyString "evil.com" EmptyString "/" [])
              = Ok a).
Proof.
  split.
  - exact (C7_dangerous_cache_window (H := Example.platform) "https://evil.com"
             None (cached_world 61000) dangerous_entry 1000
             eq_refl eq_refl eq_refl eq_refl eq_refl).
  - exact (C7_dangerous_cache_window (H := Example.platform) "https://evil.com"
             None (cached_world 7201000) dangerous_entry 1000
             eq_refl eq_refl eq_refl eq_refl eq_refl).
Defined.

Lemma C9_witness :
  exists a1 a2 w1' w2',
    PhishingDetector.analyzeLink (H := Example.platform) "https://evil.com" None
      (blacklisting_world 1000) = (Ok a1, w1')
    /\ PhishingDetector.analyzeLink (H := Example.platform) "https://evil.com"
         None (blacklisting_world 2000) = (Ok a2, w2')
    /\ without_timestamp a1 = without_timestamp a2
    /\ (r_timestamp a1 = None /\ r_timestamp a2 = None
        \/ r_timestamp a1 = Some (now (blacklisting_world 1000))
           /\ r_timestamp a2 = Some (now (blacklisting_world 2000))).
Proof.
  apply (C9_same_stores_same_result (H := Example.platform) "https://evil.com"
           None (blacklisting_world 1000) (blacklisting_world 2000)).
  repeat split; reflexivity.
Defined.

(** C9, as the specification has it, fails on a black-listed domain: two runs
    from the same stores, one at clock reading 1000 and one at 2000, return
    results whose time stamps are 1000 and 2000. *)
Lemma C9_counterexample :
  exists a1 a2 w1' w2',
    same_stores (blacklisting_world 1000) (blacklisting_world 2000)
    /\ PhishingDetector.analyzeLink (H := Example.platform) "https://evil.com"
         None (blacklisting_world 1000) = (Ok a1, w1')
    /\ PhishingDetector.analyzeLink (H := Example.platform) "https://evil.com"
         None (blacklisting_world 2000) = (Ok a2, w2')
    /\ r_timestamp a1 = Some 1000
    /\ r_timestamp a2 = Some 2000
    /\ a1 <> a2.
Proof.
  do 4 eexists. split; [repeat split; reflexivity |].
  split; [vm_compute; reflexivity |].
  split; [vm_compute; reflexivity |].
  split; [reflexivity |]. split; [reflexivity |].
  intros E. discriminate E.
Qed.

(** ** The URL as its own context *)

Section Context.
Context `{Platform}.

(** C10, amended. When [analyzeLink] is called with no context, or with an
    empty one, and the call reaches the local analysis (the URL parses, has
    no cache entry, is on neither list and has no reputation match), the URL
    string is the context text: the context score of the result is the
    keyword and spam score of the URL.  When that score is positive the
    result carries a [suspicious_context] issue, and unless the domain is
    legitimate the verdict is suspicious or dangerous; it is dangerous from a
    score of 9 on. *)
Theorem C10_url_is_the_context (url : string) (context : option string)
  (u : URL) (w : World) :
  context = None \/ context = Some EmptyString ->
  url <> EmptyString ->
  new_URL url = Some u ->
  StorageManager.lookup url (threatCache w) = None ->
  StorageManager.listed (url_hostname u) (whitelist w) = false ->
  StorageManager.listed (url_hostname u) (blacklist w) = false ->
  pt_found (reputation w url) = false ->
  exists a w',
    PhishingDetector.analyzeLink url context w = (Ok a, w')
    /\ r_contextScore a = Some (Spec.keyword_score url)
    /\ if 0 <? Spec.keyword_score url then
         (exists i, In i (r_issues a) /\ type i = "suspicious_context")
         /\ (r_isLegitimate a = Some true
             \/ r_threatLevel a = suspicious
             \/ r_threatLevel a = dangerous)
         /\ (if 9 <=? Spec.keyword_score url
             then r_isLegitimate a = Some true \/ r_threatLevel a = dangerous
             else True)
       else True.
Proof.
  intros Hctx Hne Hu Hm Hwl Hbl Hrep.
  destruct (fresh_parsed url context u w Hu) as (a & w' & Ef & Er & _).
  exists a, w'. rewrite (analyzeLink_miss url context w Hm).
  split; [exact Ef |].
  assert (PhishingDetector.localAnalysis url context = Ok a) as El.
  { unfold uncached_result, blacklist_result, reputation_result in Er.
    unfold read_whitelist, read_blacklist in Er.
    destruct (sync_get_fails (faults w));
      rewrite ?Hwl, ?Hbl, ?listed_nil, Hrep in Er; exact Er. }
  assert (PhishingDetector.context_or_url context url = url) as Hc.
  { destruct Hctx as [-> | ->]; reflexivity. }
  destruct (localAnalysis_shape url context a El)
    as (Hk & (base & Hi) & Ht & _ & _).
  rewrite Hc, (analyzeContext_score url Hne) in Hk, Hi.
  split; [exact Hk |].
  destruct (Z.ltb_spec 0 (Spec.keyword_score url)) as [Hpos |]; [| exact I].
  destruct (context_forces a _ base Hk Hi Hpos) as (Hin & Hv).
  rewrite Ht. repeat split; [exact Hin | exact Hv |].
  destruct (Z.leb_spec 9 (Spec.keyword_score url)) as [H9 |]; [| exact I].
  destruct (r_isLegitimate a) as [[|] |] eqn:Hleg; [left; reflexivity | |];
    right; apply (context_override a _ Hk H9); rewrite Hleg; discriminate.
Qed.

End Context.

Lemma C10_witness :
  exists a w',
    PhishingDetector.analyzeLink (H := Example.platform)
      "https://test.org/bitcoin-forex-viagra" None (Example.empty_world 0)
    = (Ok a, w')
    /\ r_contextScore a
       = Some (Spec.keyword_score (H := Example.platform)
                 "https://test.org/bitcoin-forex-viagra")
    /\ if 0 <? Spec.keyword_score (H := Example.platform)
                 "https://test.org/bitcoin-forex-viagra" then
         (exists i, In i (r_issues a) /\ type i = "suspicious_context")
         /\ (r_isLegitimate a = Some true
             \/ r_threatLevel a = suspicious
             \/ r_threatLevel a = dangerous)
         /\ (if 9 <=? Spec.keyword_score (H := Example.platform)
                        "https://test.org/bitcoin-forex-viagra"
             then r_isLegitimate a = Some true \/ r_threatLevel a = dangerous
             else True)
       else True.
Proof.
  apply (C10_url_is_the_context (H := Example.platform)
           "https://test.org/bitcoin-forex-viagra" None
           (mkURL "https:" EmptyString "test.org" EmptyString
              "/bitcoin-forex-viagra" [])
           (Example.empty_world 0)).
  - left. reflexivity.
  - discriminate.
  - reflexivity.
  - reflexivity.
  - reflexivity.
  - reflexivity.
  - reflexivity.
Defined.

(** Keywords that occur only in the URL decide the verdict: with three spam
    indicators in its path, a URL with no structural issue gets the context
    score 9, the single issue [suspicious_context] of high severity and the
    dangerous verdict; the same host without them has no issue and the
    unknown verdict. *)
Lemma url_keywords_force_the_verdict :
  exists a w' b w'',
    PhishingDetector.analyzeLink (H := Example.platform)
      "https://test.org/bitcoin-forex-viagra" None (Example.empty_world 0)
    = (Ok a, w')
    /\ r_contextScore a = Some 9
    /\ map (fun i => (type i, severity i)) (r_issues a)
       = [("suspicious_context", high)]
    /\ r_threatLevel a = dangerous
    /\ PhishingDetector.analyzeLink (H := Example.platform)
         "https://test.org/" None (Example.empty_world 0) = (Ok b, w'')
    /\ r_contextScore b = Some 0
    /\ r_issues b = []
    /\ r_threatLevel b = unknown.
Proof.
  do 4 eexists. split; [vm_compute; reflexivity |].
  split; [reflexivity |]. split; [reflexivity |]. split; [reflexivity |].
  split; [vm_compute; reflexivity |].
  repeat split.
Qed.

(** C10, as it is stated for every call without a context, fails on a call
    that a short cut answers: on a black-listed domain the result has no
    context score, though the URL contains the keyword [verify]. *)
Lemma C10_counterexample :
  exists a w',
    PhishingDetector.analyzeLink (H := Example.platform)
      "https://evil.com/verify" None (blacklisting_world 0) = (Ok a, w')
    /\ Spec.keyword_score (H := Example.platform) "https://evil.com/verify" = 1
    /\ r_contextScore a = None
    /\ r_contextScore a
       <> Some (Spec.keyword_score (H := Example.platform)
                  "https://evil.com/verify").
Proof.
  do 2 eexists. split; [vm_compute; reflexivity |].
  split; [vm_compute; reflexivity |].
  split; [reflexivity | discriminate].
Qed.

(** ** The keys of the cache

    [analyzeLink] writes the cache only under a URL that parsed, so a cache
    that starts empty never holds an entry for a malformed string, and the
    side condition of C5 holds in every world that the program reaches. *)

Lemma has_key_lookup k cache :
  (exists v, StorageManager.lookup k cache = Some v) -> has_key k cache.
Proof.
  induction cache as [| [k' v'] rest IH]; intros [v E]; [discriminate |].
  cbn [StorageManager.lookup] in E.
  destruct (String.eqb_spec k' k) as [-> | _].
  - exists v'. left. reflexivity.
  - destruct (IH (ex_intro _ v E)) as [v2 Hin]. exists v2. right. exact Hin.
Qed.

Lemma in_assign k v url a cache :
  In (k, v) (StorageManager.assign url a cache) ->
  k = url \/ In (k, v) cache.
Proof.
  induction cache as [| [k' v'] rest IH]; cbn [StorageManager.assign].
  - intros [E | []]. inversion E. left. reflexivity.
  - destruct (String.eqb_spec k' url) as [-> | _].
    + intros [E | Hin]; [inversion E; left; reflexivity | right; right; exact Hin].
    + intros [E | Hin]; [right; left; exact E |].
      destruct (IH Hin) as [-> | Hin']; [left; reflexivity | right; right; exact Hin'].
Qed.

Lemma in_insert_entry x y sorted :
  In x (StorageManager.insert_entry y sorted) -> x = y \/ In x sorted.
Proof.
  induction sorted as [| z rest IH]; cbn [StorageManager.insert_entry].
  - intros [E | []]. left. symmetry. exact E.
  - destruct (_ <=? _).
    + intros [E | Hin]; [left; symmetry; exact E | right; exact Hin].
    + intros [E | Hin]; [right; left; exact E |].
      destruct (IH Hin) as [E | Hin']; [left; exact E | right; right; exact Hin'].
Qed.

Lemma in_sort_entries x entries :
  In x (StorageManager.sort_entries entries) -> In x entries.
Proof.
  induction entries as [| y rest IH]; cbn [StorageManager.sort_entries fold_right];
    [intros [] |].
  intros Hin. destruct (in_insert_entry _ _ _ Hin) as [-> | Hin'];
    [left; reflexivity | right; apply IH; exact Hin'].
Qed.

Lemma in_slice_last {A} (n : nat) (x : A) (l : list A) :
  In x (JS.slice_last n l) -> In x l.
Proof.
  unfold JS.slice_last. intros Hin.
  rewrite <- (firstn_skipn (List.length l - n) l).
  apply in_or_app. right. exact Hin.
Qed.

Lemma keeps_keys_ret {A} url (a : A) : keeps_keys url (ret a).
Proof. intros w r w' E. inversion E; subst. intros k Hk. right. exact Hk. Qed.

Lemma keeps_keys_throw {A} url (e : string) : keeps_keys url (@throw A e).
Proof. intros w r w' E. inversion E; subst. intros k Hk. right. exact Hk. Qed.

Lemma keys_le_trans url w1 w2 w3 :
  keys_le url w1 w2 -> keys_le url w2 w3 -> keys_le url w1 w3.
Proof.
  intros H12 H23 k Hk. destruct (H23 k Hk) as [E | Hk2]; [left; exact E |].
  apply H12. exact Hk2.
Qed.

Lemma keeps_keys_bind {A B} url (m : M A) (k : A -> M B) :
  keeps_keys url m -> (forall a, keeps_keys url (k a)) -> keeps_keys url (bind m k).
Proof.
  intros Hm Hk w r w' E. unfold bind in E.
  destruct (m w) as [[a | e] w1] eqn:Em.
  - eapply keys_le_trans; [eapply Hm; eassumption | eapply Hk; eassumption].
  - inversion E; subst. eapply Hm; eassumption.
Qed.

Lemma keeps_keys_try_catch {A} url (m : M A) (h : string -> M A) :
  keeps_keys url m -> (forall e, keeps_keys url (h e)) ->
  keeps_keys url (try_catch m h).
Proof.
  intros Hm Hh w r w' E. unfold try_catch in E.
  destruct (m w) as [[a | e] w1] eqn:Em.
  - inversion E; subst. eapply Hm; eassumption.
  - eapply keys_le_trans; [eapply Hm; eassumption | eapply Hh; eassumption].
Qed.

(** A step that leaves the cache as it is. *)
Lemma keeps_keys_same_cache {A} url (m : M A) :
  (forall w r w', m w = (r, w') -> threatCache w' = threatCache w) ->
  keeps_keys url m.
Proof.
  intros Hm w r w' E k Hk. right. rewrite <- (Hm w r w' E). exact Hk.
Qed.

Lemma keeps_keys_getCachedThreat url : keeps_keys url (StorageManager.getCachedThreat url).
Proof.
  intros w r w' E k [v Hin].
  unfold StorageManager.getCachedThreat, try_catch, bind, local_get, local_set,
    Date_now, ret in E.
  destruct (local_get_fails (faults w));
    [inversion E; subst; right; exists v; exact Hin |].
  destruct (StorageManager.lookup url (threatCache w)) as [c |];
    [| inversion E; subst; right; exists v; exact Hin].
  destruct (match r_timestamp c with Some t => _ | None => false end);
    [| inversion E; subst; right; exists v; exact Hin].
  destruct (local_set_fails (faults w)); inversion E; subst;
    right; exists v; [exact Hin |].
  cbn [threatCache set_threatCache] in Hin.
  unfold StorageManager.remove in Hin. apply filter_In in Hin. apply Hin.
Qed.

Lemma keeps_keys_cacheThreat url a : keeps_keys url (StorageManager.cacheThreat url a).
Proof.
  intros w r w' E k [v Hin].
  unfold StorageManager.cacheThreat, try_catch, bind, local_get, local_set,
    Date_now, ret in E.
  destruct (local_get_fails (faults w));
    [inversion E; subst; right; exists v; exact Hin |].
  destruct (_ <? _)%nat; destruct (local_set_fails (faults w));
    inversion E; subst; try (right; exists v; exact Hin);
    cbn [threatCache set_threatCache] in Hin.
  - apply in_slice_last, in_sort_entries, in_assign in Hin.
    destruct Hin as [-> | Hin]; [left; reflexivity | right; exists v; exact Hin].
  - apply in_assign in Hin.
    destruct Hin as [-> | Hin]; [left; reflexivity | right; exists v; exact Hin].
Qed.

Section Keys.
Context `{Platform}.

Ltac same_cache :=
  apply keeps_keys_same_cache; intros w r w' E;
  repeat (unfold StorageManager.isWhitelisted, StorageManager.isBlacklisted,
            StorageManager.getWhitelist, StorageManager.getBlacklist,
            StorageManager.removeFromWhitelist, StorageManager.getStats,
            StorageManager.updateStats, StorageManager.incrementScanned,
            StorageManager.incrementBlocked, AnalyticsManager.recordThreat,
            ThreatIntelligence.checkPhishTank,
            NotificationManager.showThreatBlocked, PhishingDetector.isCacheValid,
            try_catch, bind, local_get, local_set, sync_get, sync_set, Date_now,
            ret, throw in E);
  repeat match type of E with
         | context [if ?b then _ else _] => destruct b
         | context [match ?x with _ => _ end] => destruct x
         end;
  inversion E; subst; reflexivity.

Lemma keeps_keys_isWhitelisted url d : keeps_keys url (StorageManager.isWhitelisted d).
Proof. same_cache. Qed.

Lemma keeps_keys_isBlacklisted url d : keeps_keys url (StorageManager.isBlacklisted d).
Proof. same_cache. Qed.

Lemma keeps_keys_removeFromWhitelist url d :
  keeps_keys url (StorageManager.removeFromWhitelist d).
Proof. same_cache. Qed.

Lemma keeps_keys_incrementScanned url : keeps_keys url StorageManager.incrementScanned.
Proof. same_cache. Qed.

Lemma keeps_keys_incrementBlocked url : keeps_keys url StorageManager.incrementBlocked.
Proof. same_cache. Qed.

Lemma keeps_keys_recordThreat url l t :
  keeps_keys url (AnalyticsManager.recordThreat l t).
Proof. same_cache. Qed.

Lemma keeps_keys_checkPhishTank url u : keeps_keys url (ThreatIntelligence.checkPhishTank u).
Proof.
  apply keeps_keys_same_cache. intros w r w' E.
  rewrite checkPhishTank_run in E. inversion E. reflexivity.
Qed.

Lemma keeps_keys_showThreatBlocked url u l n :
  keeps_keys url (NotificationManager.showThreatBlocked u l n).
Proof. same_cache. Qed.

Lemma keeps_keys_isCacheValid url c : keeps_keys url (PhishingDetector.isCacheValid c).
Proof. same_cache. Qed.

Lemma keeps_keys_Date_now url : keeps_keys url Date_now.
Proof. same_cache. Qed.

#[local] Hint Resolve keeps_keys_ret keeps_keys_throw keeps_keys_getCachedThreat
  keeps_keys_cacheThreat keeps_keys_isWhitelisted keeps_keys_isBlacklisted
  keeps_keys_removeFromWhitelist keeps_keys_incrementScanned
  keeps_keys_incrementBlocked keeps_keys_recordThreat keeps_keys_checkPhishTank
  keeps_keys_showThreatBlocked keeps_keys_isCacheValid keeps_keys_Date_now : steps.

Ltac keys :=
  repeat first
    [ progress intros
    | solve [auto with steps]
    | match goal with
      | |- keeps_keys _ (if ?b then _ else _) => destruct b
      | |- keeps_keys _ (match ?x with _ => _ end) => destruct x
      end
    | apply keeps_keys_bind | apply keeps_keys_try_catch ].

(** Every step of [analyzeLink] on [url] leaves the keys of the cache as they
    are, but for [url] itself. *)
Lemma keeps_keys_analyzeUncached url context :
  keeps_keys url (PhishingDetector.analyzeUncached url context).
Proof.
  unfold PhishingDetector.analyzeUncached, PhishingDetector.blacklistStage,
    PhishingDetector.reputationStage, PhishingDetector.localStage,
    PhishingDetector.finish.
  keys.
Qed.

Lemma keeps_keys_analyzeLink url context :
  keeps_keys url (PhishingDetector.analyzeLink url context).
Proof.
  pose proof (keeps_keys_analyzeUncached url context).
  unfold PhishingDetector.analyzeLink, PhishingDetector.analyzeLink_try.
  keys.
Qed.

Lemma isCacheValid_run c w :
  exists v, PhishingDetector.isCacheValid c w = (Ok v, w).
Proof.
  unfold PhishingDetector.isCacheValid, bind, Date_now, ret.
  destruct (r_timestamp c) as [t |]; [| eauto].
  destruct (t =? 0); [eauto |].
  destruct (ThreatLevel_eqb _ _); eauto.
Qed.

(** [getCachedThreat] adds no key. *)
Lemma getCachedThreat_shrinks url w r w1 k :
  StorageManager.getCachedThreat url w = (r, w1) ->
  has_key k (threatCache w1) -> has_key k (threatCache w).
Proof.
  intros Eg [v Hin]. exists v.
  unfold StorageManager.getCachedThreat, try_catch, bind, local_get,
    local_set, Date_now, ret in Eg.
  destruct (local_get_fails (faults w)); [inversion Eg; subst; exact Hin |].
  destruct (StorageManager.lookup url (threatCache w)) as [c |];
    [| inversion Eg; subst; exact Hin].
  destruct (match r_timestamp c with Some t => _ | None => false end);
    [| inversion Eg; subst; exact Hin].
  destruct (local_set_fails (faults w)); inversion Eg; subst; [exact Hin |].
  cbn [threatCache set_threatCache] in Hin.
  unfold StorageManager.remove in Hin. apply filter_In in Hin. apply Hin.
Qed.

(** On a URL that does not parse, the only step of [analyzeLink] that can
    change the world is the cache lookup. *)
Lemma analyzeLink_invalid_world url context w :
  new_URL url = None ->
  snd (PhishingDetector.analyzeLink url context w)
  = snd (StorageManager.getCachedThreat url w).
Proof.
  intros Hu.
  assert (forall w2, PhishingDetector.analyzeUncached url context w2
                     = (Throw URL_error, w2)) as U
      by (intros w2; apply analyzeUncached_invalid; exact Hu).
  unfold PhishingDetector.analyzeLink, try_catch,
    PhishingDetector.analyzeLink_try.
  unfold bind at 1.
  destruct (runs_getCachedThreat url w) as (c & w1 & Eg & _). rewrite Eg.
  cbn [snd]. destruct c as [c |].
  - unfold bind at 1. destruct (isCacheValid_run c w1) as [v Ev]. rewrite Ev.
    destruct v; [| rewrite U; reflexivity].
    destruct (_ || _); [| reflexivity].
    unfold bind, Date_now. destruct (_ <? _); [rewrite U |]; reflexivity.
  - unfold bind at 1. unfold ret at 1. rewrite U. reflexivity.
Qed.

(** A cache whose keys all parse stays so over a call of [analyzeLink]. *)
Lemma analyzeLink_keeps_parsed_keys url context w :
  parsed_keys w ->
  parsed_keys (snd (PhishingDetector.analyzeLink url context w)).
Proof.
  intros Inv k Hk. destruct (new_URL url) as [u |] eqn:Hu.
  - destruct (PhishingDetector.analyzeLink url context w) as [r w'] eqn:E.
    cbn [snd] in Hk.
    destruct (keeps_keys_analyzeLink url context w r w' E k Hk) as [-> | Hk'];
      [rewrite Hu; discriminate | apply Inv; exact Hk'].
  - rewrite (analyzeLink_invalid_world url context w Hu) in Hk.
    destruct (StorageManager.getCachedThreat url w) as [r w1] eqn:Eg.
    apply Inv. apply (getCachedThreat_shrinks url w r w1 k Eg Hk).
Qed.

(** In a world whose cache keys all parse, a malformed URL has no entry. *)
Lemma parsed_keys_miss url w :
  parsed_keys w -> new_URL url = None ->
  StorageManager.lookup url (threatCache w) = None.
Proof.
  intros Inv Hu.
  destruct (StorageManager.lookup url (threatCache w)) as [v |] eqn:E;
    [| reflexivity].
  exfalso. apply (Inv url); [| exact Hu].
  apply has_key_lookup. exists v. exact E.
Qed.

End Keys.

(** ** The tests of the repository, on the example platform

    The expectations of [tests/integration/phishing-detector.test.js] that the
    embedding can evaluate. *)

Example test_multiple_issues :
  PhishingDetector.calculateFinalThreatLevel
    (mkResult EmptyString None None unknown
       [issue EmptyString high EmptyString; issue EmptyString high EmptyString;
        issue EmptyString medium EmptyString]
       (Some false) None None None (Some 0) false false false None false None
       None) = dangerous.
Proof. reflexivity. Qed.

Example test_context_keywords :
  0 < PhishingDetector.analyzeContext (H := Example.platform)
        "urgent verify your account password suspended"
  /\ 5 < PhishingDetector.analyzeContext (H := Example.platform)
           "viagra cialis free money work from home"
  /\ PhishingDetector.analyzeContext (H := Example.platform)
       "hello how are you today" = 0.
Proof. vm_compute. repeat split. Qed.

Example test_safe_url :
  exists a w',
    PhishingDetector.analyzeLink (H := Example.platform) "https://google.com"
      None (Example.empty_world 0) = (Ok a, w')
    /\ r_threatLevel a = safe.
Proof. do 2 eexists. split; [vm_compute; reflexivity | reflexivity]. Qed.

Example test_invalid_url :
  exists a w',
    PhishingDetector.analyzeLink (H := Example.platform) "not-a-url" None
      (Example.empty_world 0) = (Ok a, w')
    /\ r_threatLevel a = unknown.
Proof. do 2 eexists. split; [vm_compute; reflexivity | reflexivity]. Qed.

Example test_blacklisted_domain :
  exists a w',
    PhishingDetector.analyzeLink (H := Example.platform) "https://evil.com" None
      (blacklisting_world 0) = (Ok a, w')
    /\ r_threatLevel a = dangerous
    /\ r_isBlacklisted a = true.
Proof.
  do 2 eexists. split; [vm_compute; reflexivity |]. split; reflexivity.
Qed.

Example test_batch :
  exists results w',
    PhishingDetector.analyzeLinks (H := Example.platform)
      ["https://google.com"; "https://test.org/"; "http://192.168.1.1"]
      (Example.empty_world 0) = (Ok results, w')
    /\ map r_threatLevel results = [safe; unknown; dangerous]
    /\ map fst (threatCache w')
       = ["https://google.com"; "https://test.org/"; "http://192.168.1.1"]
    /\ option_map linksScanned (stats w') = Some 3.
Proof.
  do 2 eexists. split; [vm_compute; reflexivity |]. repeat split.
Qed.

(** * Properties of the code beyond the claims *)

(** ** The detectors of the URL parser *)

Lemma existsb_ext_in {A} (f g : A -> bool) (l : list A) :
  (forall x, In x l -> f x = g x) -> existsb f l = existsb g l.
Proof.
  induction l as [| x l IH]; intros E; [reflexivity |].
  cbn [existsb]. rewrite (E x (or_introl eq_refl)), IH; [reflexivity |].
  intros y Hy. apply E. right. exact Hy.
Qed.

Lemma replace_all_absent (c : ascii) (sub s : string) :
  occurs c s = false -> JS.replace_all c sub s = s.
Proof.
  unfold occurs. induction s as [| d s IH]; [reflexivity |].
  cbn [JS.includes JS.replace_all]. unfold JS.startsWith.
  cbn [String.prefix]. intros E. apply orb_false_iff in E. destruct E as [E1 E2].
  destruct (Ascii.eqb_spec d c) as [-> | Hne].
  - destruct (ascii_dec c c) as [_ | n]; [| contradiction].
    destruct s; discriminate E1.
  - rewrite (IH E2). reflexivity.
Qed.

(** Every configured target lacks one of the letters that
    [hasCharacterSubstitution] replaces. *)
Lemma targets_lack_a_letter :
  forallb (fun t =>
             existsb (fun row => negb (occurs (fst row) t)
                                 && match snd row with [] => false | _ => true end)
               URLParser.substitutions)
    Constants.TYPOSQUATTING_TARGETS = true.
Proof. vm_compute. reflexivity. Qed.

Lemma hasCharacterSubstitution_of_included this target :
  In target Constants.TYPOSQUATTING_TARGETS ->
  JS.includes (URLParser.hostname this) target = true ->
  URLParser.hasCharacterSubstitution this target = true.
Proof.
  intros Hin Hinc.
  pose proof targets_lack_a_letter as L.
  rewrite forallb_forall in L. specialize (L target Hin).
  apply existsb_exists in L. destruct L as ([c subs] & Hrow & Hc).
  apply andb_prop in Hc. destruct Hc as [Hc Hs]. cbn [fst snd] in Hc, Hs.
  unfold URLParser.hasCharacterSubstitution. apply existsb_exists.
  exists (c, subs). split; [exact Hrow |]. cbn [fst snd].
  destruct subs as [| sub subs]; [discriminate |].
  cbn [existsb]. rewrite replace_all_absent, Hinc; [reflexivity |].
  destruct (occurs c target); [discriminate | reflexivity].
Qed.

(** X1. On the configured targets, [isTyposquatting] is the test that the
    host contains one of them: the edit distance is only asked about a host
    that contains a target, and for such a host the character substitution
    test always succeeds, because every target lacks one of the letters it
    replaces and the unchanged target is then looked up in the host. *)
Theorem isTyposquatting_is_containment (this : URLParser.Fields) :
  URLParser.isTyposquatting this
  = existsb (fun target => JS.includes (URLParser.hostname this) target)
      Constants.TYPOSQUATTING_TARGETS.
Proof.
  unfold URLParser.isTyposquatting. apply existsb_ext_in. intros t Hin.
  destruct (JS.includes (URLParser.hostname this) t) eqn:E; [| reflexivity].
  rewrite (hasCharacterSubstitution_of_included this t Hin E).
  rewrite orb_true_r. reflexivity.
Qed.

(** A host that contains one of the characters l, 1, 0, | or v passes the
    test of [hasHomographAttack]: the table lists them as lookalikes of the
    letters i, l, o and v. *)
Lemma homograph_of_lookalike (this : URLParser.Fields) :
  existsb (fun c => JS.includes (URLParser.hostname this) c) ascii_lookalikes
  = true ->
  URLParser.hasHomographAttack this = true.
Proof.
  intros E. apply existsb_exists in E. destruct E as (c & Hc & Hinc).
  unfold URLParser.hasHomographAttack. apply orb_true_iff. left.
  apply existsb_exists.
  assert (exists row cp, In row URLParser.homographs /\ In cp (snd row)
                         /\ JS.utf8 cp = c) as (row & cp & Hrow & Hcp & Hu).
  { unfold ascii_lookalikes in Hc. cbn [In] in Hc.
    destruct Hc as [<- | [<- | [<- | [<- | [<- | []]]]]].
    - exists (nth 8 URLParser.homographs (EmptyString, [])), 0x6C.
      repeat split; [| cbn; tauto]. apply nth_In. cbn. lia.
    - exists (nth 8 URLParser.homographs (EmptyString, [])), 0x31.
      repeat split; [| cbn; tauto]. apply nth_In. cbn. lia.
    - exists (nth 14 URLParser.homographs (EmptyString, [])), 0x30.
      repeat split; [| cbn; tauto]. apply nth_In. cbn. lia.
    - exists (nth 8 URLParser.homographs (EmptyString, [])), 0x7C.
      repeat split; [| cbn; tauto]. apply nth_In. cbn. lia.
    - exists (nth 21 URLParser.homographs (EmptyString, [])), 0x76.
      repeat split; [| cbn; tauto]. apply nth_In. cbn. lia. }
  exists row. split; [exact Hrow |]. apply existsb_exists.
  exists cp. split; [exact Hcp |]. rewrite Hu. exact Hinc.
Qed.


Lemma push_if_app (c : bool) (i : Issue) (l : list Issue) :
  URLParser.push_if c i l = (l ++ if c then [i] else [])%list.
Proof. destruct c; cbn; [reflexivity | rewrite app_nil_r; reflexivity]. Qed.

Lemma select_cons {A} (c : bool) (flags : list bool) (x : A) (l : list A) :
  select (c :: flags) (x :: l) = ((if c then [x] else []) ++ select flags l)%list.
Proof. destruct c; reflexivity. Qed.

Lemma select_incl {A} (flags : list bool) (l : list A) (x : A) :
  In x (select flags l) -> In x l.
Proof.
  revert flags. induction l as [| y l IH]; intros [| c flags]; cbn; try tauto.
  destruct c; cbn; [intros [E | E] | intros E]; eauto.
Qed.

Lemma select_map {A B} (f : A -> B) (flags : list bool) (l : list A) :
  map f (select flags l) = select flags (map f l).
Proof.
  revert flags. induction l as [| y l IH]; intros [| c flags]; cbn;
    try reflexivity.
  destruct c; cbn; rewrite IH; reflexivity.
Qed.

Lemma select_NoDup {A} (flags : list bool) (l : list A) :
  NoDup l -> NoDup (select flags l).
Proof.
  revert flags. induction l as [| y l IH]; intros [| c flags] N; cbn.
  - constructor.
  - constructor.
  - constructor.
  - inversion N; subst. destruct c.
    + constructor; [| apply IH; assumption].
      intros Hin. apply select_incl in Hin. contradiction.
    + apply IH; assumption.
Qed.

Lemma select_length {A} (flags : list bool) (l : list A) :
  (List.length (select flags l) <= List.length l)%nat.
Proof.
  revert flags. induction l as [| y l IH]; intros [| c flags]; cbn; try lia.
  specialize (IH flags). destruct c; cbn; lia.
Qed.

(** The issues of a parsed URL are a selection of the sixteen that the
    method can push. *)
Lemma detected_types (this : URLParser.Fields) :
  exists flags, map type (URLParser.detected this) = select flags issue_types.
Proof.
  eexists [_; _; _; _; _; _; _; _; _; _; _; _; _; _; _; _].
  unfold URLParser.detected. cbv zeta. rewrite !push_if_app.
  unfold issue_types. rewrite !select_cons, !map_app.
  rewrite <- !app_assoc. change (map type []) with (@nil string). cbn [app].
  repeat (f_equal; [match goal with
                    | |- map _ (if ?c then _ else _) = (if ?e then _ else _) =>
                        unify e c; destruct c; reflexivity
                    end |]).
  cbn [select]. rewrite app_nil_r.
  match goal with
  | |- map _ (if ?c then _ else _) = (if ?e then _ else _) =>
                        unify e c; destruct c; reflexivity
  end.
Qed.

(** X3. [getIssues] reports every kind of issue at most once: the types of
    the issues of one URL are pairwise distinct, and there are at most
    sixteen issues. *)
Theorem getIssues_types_distinct (p : URLParser.Parser) :
  NoDup (map type (URLParser.getIssues p))
  /\ (List.length (URLParser.getIssues p) <= 16)%nat.
Proof.
  destruct p as [this | url]; cbn [URLParser.getIssues].
  - destruct (detected_types this) as (flags & E).
    rewrite <- (length_map type), E. split.
    + apply select_NoDup. unfold issue_types.
      repeat (constructor; [cbn; intuition discriminate |]). constructor.
    + apply (select_length flags issue_types).
  - split; [repeat constructor; cbn; tauto | cbn; lia].
Qed.

(** ** The verdict of the aggregator *)

Lemma count_severity_app (s : Severity) (a b : list Issue) :
  count_severity s (a ++ b) = count_severity s a + count_severity s b.
Proof.
  unfold count_severity. rewrite filter_app, length_app. lia.
Qed.

Lemma count_severity_nonneg (s : Severity) (l : list Issue) :
  0 <= count_severity s l.
Proof. unfold count_severity. lia. Qed.

Lemma count_severity_in (s : Severity) (l : list Issue) (i : Issue) :
  In i l -> severity i = s -> 1 <= count_severity s l.
Proof.
  intros Hin Hs. unfold count_severity.
  assert (In i (filter (fun i => Severity_eqb (severity i) s) l)) as F.
  { apply filter_In. split; [exact Hin |]. rewrite Hs. destruct s; reflexivity. }
  destruct (filter _ l); [destruct F | cbn [List.length]; lia].
Qed.

(** Boolean comparisons in the hypotheses, as propositions. *)
Ltac props :=
  repeat match goal with
         | H : (_ || _) = true |- _ => apply orb_true_iff in H; destruct H as [H | H]
         | H : (_ || _) = false |- _ =>
             let H' := fresh H in apply orb_false_iff in H; destruct H as [H H']
         | H : (_ && _) = true |- _ =>
             let H' := fresh H in apply andb_true_iff in H; destruct H as [H H']
         | H : (_ && _) = false |- _ => apply andb_false_iff in H; destruct H as [H | H]
         | H : (_ <=? _) = true |- _ => apply Z.leb_le in H
         | H : (_ <=? _) = false |- _ => apply Z.leb_gt in H
         | H : (_ <? _) = true |- _ => apply Z.ltb_lt in H
         | H : (_ <? _) = false |- _ => apply Z.ltb_ge in H
         | H : (_ =? _) = true |- _ => apply Z.eqb_eq in H
         | H : (_ =? _) = false |- _ => apply Z.eqb_neq in H
         end.

(** [calculateFinalThreatLevel] reads the issues through their counts. *)
Lemma final_is_verdict (a : AnalysisResult) :
  PhishingDetector.calculateFinalThreatLevel a
  = if match r_isLegitimate a with Some b => b | None => false end then safe
    else verdict (r_contextScore a) (count_severity high (r_issues a))
           (count_severity medium (r_issues a))
           (count_severity low (r_issues a))
           (Z.of_nat (List.length (r_issues a))).
Proof. reflexivity. Qed.

Lemma verdict_monotone (c : option Z) (h m l n h' m' l' n' : Z) :
  h <= h' -> m <= m' -> l <= l' -> n <= n' ->
  rank (verdict c h m l n) <= rank (verdict c h' m' l' n').
Proof.
  intros Hh Hm Hl Hn. unfold verdict. cbv zeta.
  destruct c as [c |];
    [destruct (9 <=? c); [cbn; lia |];
     destruct (5 <=? c); [cbn; lia |];
     destruct (c =? 0) |];
    repeat match goal with
           | |- rank (if ?b then _ else _) <= _ =>
               let E := fresh "E" in destruct b eqn:E
           end;
    props;
    repeat match goal with
           | |- _ <= rank (if ?b then _ else _) =>
               let E := fresh "E" in destruct b eqn:E
           end;
    try (cbn; lia); props; cbn; lia.
Qed.

(** X4. Further issues never lower the verdict of
    [calculateFinalThreatLevel]: with the issues of the analysis extended,
    and everything else as it was, the verdict is the same or graver. *)
Theorem more_issues_never_lower (a : AnalysisResult) (more : list Issue) :
  rank (PhishingDetector.calculateFinalThreatLevel a)
  <= rank (PhishingDetector.calculateFinalThreatLevel (add_issues more a)).
Proof.
  rewrite !final_is_verdict. unfold add_issues.
  cbn [r_issues r_isLegitimate r_contextScore].
  destruct (r_isLegitimate a) as [[|] |]; [cbn; lia | |];
    apply verdict_monotone;
    rewrite ?count_severity_app, ?length_app, ?Nat2Z.inj_add;
    try (pose proof (count_severity_nonneg high more);
         pose proof (count_severity_nonneg medium more);
         pose proof (count_severity_nonneg low more); lia).
Qed.

(** A context score from 5 to 8 fixes the verdict of a domain that is not
    legitimate at suspicious, whatever the issues are: the test of the
    context score stands before the tests of the issue counts. *)
Lemma context_score_caps (a : AnalysisResult) (c : Z) :
  r_isLegitimate a <> Some true ->
  r_contextScore a = Some c ->
  5 <= c < 9 ->
  PhishingDetector.calculateFinalThreatLevel a = suspicious.
Proof.
  intros Hl Hc Hr. unfold PhishingDetector.calculateFinalThreatLevel.
  rewrite Hc.
  replace (9 <=? c) with false by (symmetry; apply Z.leb_gt; lia).
  replace (5 <=? c) with true by (symmetry; apply Z.leb_le; lia).
  destruct (r_isLegitimate a) as [[|] |]; [congruence | reflexivity | reflexivity].
Qed.

(** ** The pattern scorer *)

Lemma matchKnownPatterns_score (url : string) :
  0 <= PatternDetector.pm_score (PatternDetector.matchKnownPatterns url) <= 51.
Proof.
  unfold PatternDetector.matchKnownPatterns, PatternDetector.patterns.
  cbv zeta. cbn [filter PatternDetector.regex PatternDetector.pm_score].
  repeat match goal with
         | |- context [if Regex.test ?r url then _ else _] =>
             destruct (Regex.test r url)
         end; cbn; lia.
Qed.

Lemma classify_confidence (score : Z) :
  0 <= score ->
  (2 # 5 <= PatternDetector.confidence (PatternDetector.classify score))%Q
  /\ (PatternDetector.confidence (PatternDetector.classify score) <= 1)%Q.
Proof.
  intros Hs. unfold PatternDetector.classify.
  destruct (Z.leb_spec 15 score); [| destruct (Z.leb_spec 8 score);
                                     [| destruct (Z.leb_spec 4 score)]];
    cbn [PatternDetector.confidence]; unfold PatternDetector.Math_min;
    try match goal with
        | |- context [Qle_bool ?a ?b] =>
            let E := fresh "E" in
            destruct (Qle_bool a b) eqn:E;
            [apply Qle_bool_iff in E; unfold Qle in E; cbn in E |]
        end;
    unfold Qle, Qminus, Qplus, Qopp; cbn [Qnum Qden Pos.mul]; lia.
Qed.

Section Scores.
Context `{Platform}.

(** X5. The score of [PatternDetector.analyze] lies between 0 and 151 (a
    heuristic score of at most 100 and pattern scores of at most 51), and its
    confidence between 0 and 1. *)
Theorem analyze_score_and_confidence (url : string) :
  0 <= PatternDetector.a_score (PatternDetector.analyze url) <= 151
  /\ (0 <= PatternDetector.a_confidence (PatternDetector.analyze url))%Q
  /\ (PatternDetector.a_confidence (PatternDetector.analyze url) <= 1)%Q.
Proof.
  unfold PatternDetector.analyze.
  destruct (PatternDetector.extractFeatures url) as [f |].
  - cbv zeta. cbn [PatternDetector.a_score PatternDetector.a_confidence].
    pose proof (matchKnownPatterns_score url) as Hp.
    assert (0 <= PatternDetector.calculatePhishingScore (Some f) <= 100) as Hb.
    { rewrite score_is_table. unfold Spec.score.
      pose proof (weights_bounds f). lia. }
    split; [lia |].
    destruct (classify_confidence
                (PatternDetector.calculatePhishingScore (Some f)
                 + PatternDetector.pm_score (PatternDetector.matchKnownPatterns url))
                ltac:(lia)) as [Hlo Hhi].
    split; [| exact Hhi].
    eapply Qle_trans; [| exact Hlo]. unfold Qle. cbn. lia.
  - cbn. repeat split; try lia; unfold Qle; cbn; lia.
Qed.

End Scores.

(** ** The checks of the connection *)

Section Connection.
Context `{Platform}.

(** A plain HTTP address that is not a local one has the high issue
    [insecure_protocol] and is not secure. *)
Lemma validateURL_http (url : string) (u : URL) :
  new_URL url = Some u ->
  url_protocol u = "http:" ->
  String.eqb (url_hostname u) "localhost"
  || String.eqb (url_hostname u) "127.0.0.1"
  || JS.endsWith (url_hostname u) ".local" = false ->
  (exists i, In i (SSLValidator.issues (SSLValidator.validateURL url))
             /\ type i = "insecure_protocol" /\ severity i = high)
  /\ SSLValidator.secure (SSLValidator.validateURL url) = false.
Proof.
  intros Hu Hp Hl.
  assert (exists i, In i (SSLValidator.issues (SSLValidator.validateURL url))
                    /\ type i = "insecure_protocol" /\ severity i = high) as Hi.
  { unfold SSLValidator.validateURL. rewrite Hu. cbv zeta. rewrite Hp, Hl.
    cbn [String.eqb Ascii.eqb Bool.eqb andb SSLValidator.issues].
    exists (mkIssue "insecure_protocol" high
              "Insecure HTTP connection (not encrypted)" None
              (Some "Always use HTTPS for sensitive data")).
    split; [| split; reflexivity].
    repeat match goal with
           | |- In _ (match ?x with _ => _ end) => destruct x
           | |- In _ (if ?b then _ else _) => destruct b
           | |- In _ (_ ++ _) => apply in_or_app; left
           end; left; reflexivity. }
  split; [exact Hi |].
  destruct Hi as (i & Hin & _ & Hs).
  pose proof (count_severity_in high _ i Hin Hs) as Hc.
  unfold SSLValidator.validateURL in *. rewrite Hu in *. cbv zeta in *.
  cbn [SSLValidator.secure SSLValidator.issues] in *.
  apply Z.eqb_neq. lia.
Qed.

End Connection.

(** ** The results of [analyzeLink] *)

Section Results.
Context `{Platform}.

(** The fields of a parser whose URL parsed to [u]. *)
Lemma getIssues_make url u :
  new_URL url = Some u ->
  URLParser.getIssues (URLParser.make url) = URLParser.detected (fields_of url u).
Proof. intros Hu. rewrite (make_parsed url u Hu). reflexivity. Qed.

(** The local analysis of a URL that parsed, field by field. *)
Lemma localAnalysis_fields url context u a :
  new_URL url = Some u ->
  PhishingDetector.localAnalysis url context = Ok a ->
  r_isLegitimate a = Some (URLParser.isLegitimate (fields_of url u))
  /\ r_issues a =
     (URLParser.detected (fields_of url u)
      ++ PhishingDetector.ml_issues (PatternDetector.analyze url)
      ++ SSLValidator.issues (SSLValidator.validateURL url)
      ++ PhishingDetector.context_issues
           (PhishingDetector.analyzeContext
              (PhishingDetector.context_or_url context url)))%list
  /\ r_contextScore a
     = Some (PhishingDetector.analyzeContext
               (PhishingDetector.context_or_url context url))
  /\ r_threatLevel a = PhishingDetector.calculateFinalThreatLevel a
  /\ r_isWhitelisted a = false.
Proof.
  intros Hu. unfold PhishingDetector.localAnalysis, analyzeURL.
  rewrite (make_parsed url u Hu), getThreatLevel_parsed.
  unfold URLParser.isLegitimate_method. intros E. inversion E; subst; clear E.
  repeat split.
Qed.

(** A call that finds nothing in the cache, on either list or in the
    reputation data returns the local analysis. *)
Lemma analyzeLink_local url context u w :
  new_URL url = Some u ->
  reaches_local_analysis w url u ->
  exists a w',
    PhishingDetector.analyzeLink url context w = (Ok a, w')
    /\ PhishingDetector.localAnalysis url context = Ok a.
Proof.
  intros Hu (Hm & Hwl & Hbl & Hrep).
  destruct (fresh_parsed url context u w Hu) as (a & w' & Ef & Er & _).
  exists a, w'. rewrite (analyzeLink_miss url context w Hm).
  split; [exact Ef |].
  unfold uncached_result, blacklist_result, reputation_result in Er.
  unfold read_whitelist, read_blacklist in Er.
  destruct (sync_get_fails (faults w));
    rewrite ?Hwl, ?Hbl, ?listed_nil, Hrep in Er; exact Er.
Qed.

Lemma analyzeContext_nonneg text : 0 <= PhishingDetector.analyzeContext text.
Proof.
  unfold PhishingDetector.analyzeContext.
  destruct (String.eqb text EmptyString); lia.
Qed.

(** X6. A context score from 5 to 8 caps the verdict: for a link that
    reaches the local analysis and whose domain is not legitimate,
    [analyzeLink] returns suspicious when the keyword score of the context is
    between 5 and 8, whatever the detectors found; the test of the context
    score stands before the tests of the issue counts. *)
Theorem context_score_caps_the_verdict (url : string) (context : option string)
  (u : URL) (w : World) :
  new_URL url = Some u ->
  reaches_local_analysis w url u ->
  URLParser.isLegitimate (fields_of url u) = false ->
  5 <= PhishingDetector.analyzeContext
         (PhishingDetector.context_or_url context url) < 9 ->
  exists a w',
    PhishingDetector.analyzeLink url context w = (Ok a, w')
    /\ r_threatLevel a = suspicious.
Proof.
  intros Hu Hr Hl Hk.
  destruct (analyzeLink_local url context u w Hu Hr) as (a & w' & E & El).
  exists a, w'. split; [exact E |].
  destruct (localAnalysis_fields url context u a Hu El)
    as (Hleg & _ & Hc & Ht & _).
  rewrite Ht. eapply context_score_caps; [| exact Hc | exact Hk].
  rewrite Hleg, Hl. discriminate.
Qed.

(** X7. A plain HTTP link is dangerous: for a link with the scheme [http:]
    whose host is not a local one and whose domain is not legitimate, and
    that reaches the local analysis, the verdict of [analyzeLink] is
    dangerous, but for a context score from 5 to 8, where it is suspicious.
    The URL analyzer and the connection check each add an issue for the
    scheme, one medium and one high. *)
Theorem plain_http_is_dangerous (url : string) (context : option string)
  (u : URL) (w : World) :
  new_URL url = Some u ->
  reaches_local_analysis w url u ->
  URLParser.isLegitimate (fields_of url u) = false ->
  url_protocol u = "http:" ->
  String.eqb (url_hostname u) "localhost"
  || String.eqb (url_hostname u) "127.0.0.1"
  || JS.endsWith (url_hostname u) ".local" = false ->
  exists a w',
    PhishingDetector.analyzeLink url context w = (Ok a, w')
    /\ r_threatLevel a
       = (let k := PhishingDetector.analyzeContext
                     (PhishingDetector.context_or_url context url) in
          if (5 <=? k) && (k <? 9) then suspicious else dangerous)
    /\ (exists i, In i (r_issues a) /\ type i = "insecure" /\ severity i = medium)
    /\ (exists i, In i (r_issues a) /\ type i = "insecure_protocol"
                  /\ severity i = high).
Proof.
  intros Hu Hr Hl Hp Hlocal.
  destruct (analyzeLink_local url context u w Hu Hr) as (a & w' & E & El).
  exists a, w'. split; [exact E |].
  destruct (localAnalysis_fields url context u a Hu El)
    as (Hleg & Hi & Hc & Ht & _).
  destruct (validateURL_http url u Hu Hp Hlocal) as ((i & Hin & Hty & Hsev) & _).
  assert (In (issue "insecure" medium "URL uses insecure HTTP protocol")
            (URLParser.detected (fields_of url u))) as Hm.
  { unfold URLParser.detected. cbv zeta.
    replace (URLParser.isInsecure (fields_of url u)) with true
      by (unfold URLParser.isInsecure, fields_of; cbn [URLParser.protocol];
          rewrite Hp; reflexivity).
    unfold URLParser.push_if at 1. apply in_or_app. right. left. reflexivity. }
  assert (In i (r_issues a)) as Hin'.
  { rewrite Hi. apply in_or_app. right. apply in_or_app. right.
    apply in_or_app. left. exact Hin. }
  assert (In (issue "insecure" medium "URL uses insecure HTTP protocol")
            (r_issues a)) as Hm'.
  { rewrite Hi. apply in_or_app. left. exact Hm. }
  split; [| split; [eexists; split; [exact Hm' | split; reflexivity]
                   | exists i; auto]].
  rewrite Ht. cbv zeta.
  set (k := PhishingDetector.analyzeContext _) in *.
  pose proof (analyzeContext_nonneg (PhishingDetector.context_or_url context url))
    as Hk. fold k in Hk.
  destruct (Z.leb_spec 5 k) as [H5 | H5];
    [destruct (Z.ltb_spec k 9) as [H9 | H9] |];
    cbn [andb].
  - apply (context_score_caps a k); [rewrite Hleg, Hl; discriminate | exact Hc | lia].
  - apply (context_override a k Hc H9). rewrite Hleg, Hl. discriminate.
  - pose proof (count_severity_in high _ i Hin' Hsev) as Hh.
    pose proof (count_severity_in medium _ _ Hm' eq_refl) as Hmed.
    pose proof (count_severity_nonneg low (r_issues a)) as Hlow.
    unfold PhishingDetector.calculateFinalThreatLevel. rewrite Hleg, Hl, Hc.
    replace (9 <=? k) with false by (symmetry; apply Z.leb_gt; lia).
    replace (5 <=? k) with false by (symmetry; apply Z.leb_gt; lia).
    destruct (k =? 0);
      match goal with
      | |- (if ?b || _ then _ else _) = _ =>
          replace b with true by (symmetry; apply Z.leb_le; lia)
      end; reflexivity.
Qed.



End Results.

Lemma context_score_caps_the_verdict_witness :
  exists a w',
    PhishingDetector.analyzeLink (H := Example.platform) "http://192.168.1.1"
      (Some "urgent verify your account password suspended")
      (Example.empty_world 1000) = (Ok a, w')
    /\ r_threatLevel a = suspicious.
Proof.
  apply (context_score_caps_the_verdict (H := Example.platform)
           "http://192.168.1.1"
           (Some "urgent verify your account password suspended")
           (mkURL "http:" EmptyString "192.168.1.1" EmptyString "/" [])
           (Example.empty_world 1000)).
  - reflexivity.
  - repeat split; reflexivity.
  - reflexivity.
  - vm_compute. split; [discriminate | reflexivity].
Defined.

Lemma plain_http_is_dangerous_witness :
  exists a w',
    PhishingDetector.analyzeLink (H := Example.platform) "http://example.org"
      None (Example.empty_world 1000) = (Ok a, w')
    /\ r_threatLevel a = dangerous
    /\ (exists i, In i (r_issues a) /\ type i = "insecure" /\ severity i = medium)
    /\ (exists i, In i (r_issues a) /\ type i = "insecure_protocol"
                  /\ severity i = high).
Proof.
  apply (plain_http_is_dangerous (H := Example.platform) "http://example.org"
           None (mkURL "http:" EmptyString "example.org" EmptyString "/" [])
           (Example.empty_world 1000)).
  - reflexivity.
  - repeat split; reflexivity.
  - reflexivity.
  - reflexivity.
  - reflexivity.
Defined.


(** ** What a call of [analyzeLink] leaves in the stores *)

(** Reduce the tests of the faults away, given that there are none. *)
Ltac settle Hf :=
  repeat (progress (cbv beta iota zeta; rewrite ?Hf;
                    cbn [local_get_fails local_set_fails sync_get_fails
                           sync_set_fails])).

(** Decide the comparisons of the goal from the hypotheses. *)
Ltac compare :=
  repeat match goal with
         | |- context [?x <? ?y] =>
             first [ replace (x <? y) with true by (symmetry; apply Z.ltb_lt; lia)
                   | replace (x <? y) with false by (symmetry; apply Z.ltb_ge; lia) ]
         | |- context [?x <=? ?y] =>
             first [ replace (x <=? y) with true by (symmetry; apply Z.leb_le; lia)
                   | replace (x <=? y) with false by (symmetry; apply Z.leb_gt; lia) ]
         | |- context [?x =? ?y] =>
             first [ replace (x =? y) with true by (symmetry; apply Z.eqb_eq; lia)
                   | replace (x =? y) with false by (symmetry; apply Z.eqb_neq; lia) ]
         end.

Section Effects.
Context `{Platform}.

(** On the way to the local analysis nothing is written: the call is the end
    of the [try] block on the result of the local analysis. *)
Lemma analyzeLink_is_finish url context u w :
  new_URL url = Some u ->
  reaches_local_analysis w url u ->
  exists a,
    PhishingDetector.localAnalysis url context = Ok a
    /\ PhishingDetector.analyzeLink url context w
       = PhishingDetector.finish url a w.
Proof.
  intros Hu (Hm & Hwl & Hbl & Hrep).
  destruct (localAnalysis_parsed url context u Hu) as (a & El).
  exists a. split; [exact El |].
  rewrite (analyzeLink_miss url context w Hm).
  unfold fresh, try_catch, PhishingDetector.analyzeUncached. rewrite Hu.
  cbv zeta. unfold bind at 1. rewrite isWhitelisted_run.
  replace (StorageManager.listed (url_hostname u) (read_whitelist w)) with false
    by (unfold read_whitelist; destruct (sync_get_fails (faults w));
        [reflexivity | symmetry; exact Hwl]).
  unfold bind at 1. unfold ret at 1.
  unfold PhishingDetector.blacklistStage. unfold bind at 1.
  rewrite isBlacklisted_run.
  replace (StorageManager.listed (url_hostname u) (read_blacklist w)) with false
    by (unfold read_blacklist; destruct (sync_get_fails (faults w));
        [reflexivity | symmetry; exact Hbl]).
  unfold PhishingDetector.reputationStage. unfold bind at 1.
  rewrite checkPhishTank_run, Hrep.
  unfold PhishingDetector.localStage. rewrite El.
  destruct (returns_finish url u a Hu w) as (w' & E & _). rewrite E. reflexivity.
Qed.

(** The steps of the end of the [try] block, when no storage call rejects. *)
Lemma cacheThreat_run url a w :
  fault_free w ->
  StorageManager.cacheThreat url a w
  = (Ok true, set_threatCache (cache_after url a w) w).
Proof.
  intros Hf. unfold fault_free in Hf.
  unfold StorageManager.cacheThreat, cache_after, try_catch, bind, local_get,
    local_set, Date_now, ret.
  settle Hf. destruct (1000 <? _)%nat; settle Hf; reflexivity.
Qed.

Lemma incrementScanned_run w :
  fault_free w ->
  StorageManager.incrementScanned w
  = (Ok tt,
     set_stats (mkStats (linksScanned (stats_of w) + 1)
                  (threatsBlocked (stats_of w)) (Some (now w))) w).
Proof.
  intros Hf. unfold fault_free in Hf.
  unfold StorageManager.incrementScanned, StorageManager.updateStats,
    StorageManager.getStats, stats_of, try_catch, bind, local_get, local_set,
    Date_now, ret.
  settle Hf. reflexivity.
Qed.

Lemma incrementBlocked_run w :
  fault_free w ->
  StorageManager.incrementBlocked w
  = (Ok tt,
     set_stats (mkStats (linksScanned (stats_of w))
                  (threatsBlocked (stats_of w) + 1) (lastScan (stats_of w))) w).
Proof.
  intros Hf. unfold fault_free in Hf.
  unfold StorageManager.incrementBlocked, StorageManager.updateStats,
    StorageManager.getStats, stats_of, try_catch, bind, local_get, local_set,
    Date_now, ret.
  settle Hf. reflexivity.
Qed.

Lemma recordThreat_run level types w :
  fault_free w ->
  AnalyticsManager.recordThreat level types w
  = (Ok tt, add_recorded (level, types) w).
Proof.
  intros Hf. unfold fault_free in Hf.
  unfold AnalyticsManager.recordThreat, try_catch, bind, local_get, local_set.
  settle Hf. reflexivity.
Qed.

(** The stores after the end of the [try] block, when no storage call
    rejects. *)
Lemma finish_world url u a w :
  new_URL url = Some u ->
  fault_free w ->
  exists w',
    PhishingDetector.finish url a w = (Ok a, w')
    /\ threatCache w' = cache_after url a w
    /\ stats w'
       = Some (mkStats (linksScanned (stats_of w) + 1)
                 (threatsBlocked (stats_of w)
                  + (if ThreatLevel_eqb (r_threatLevel a) dangerous then 1 else 0))
                 (Some (now w)))
    /\ notifications w'
       = (notifications w
          ++ if notified a
             then [(url_hostname u, r_threatLevel a,
                    Z.of_nat (List.length (r_issues a)))]
             else [])%list
    /\ recorded w' = (recorded w ++ [(r_threatLevel a, map type (r_issues a))])%list
    /\ whitelist w' = whitelist w /\ blacklist w' = blacklist w.
Proof.
  intros Hu Hf.
  unfold PhishingDetector.finish, NotificationManager.showThreatBlocked, notified.
  rewrite Hu.
  unfold bind at 1. rewrite (cacheThreat_run url a w Hf).
  unfold bind at 1. rewrite incrementScanned_run by exact Hf.
  unfold bind at 1.
  destruct (r_threatLevel a) eqn:Hlevel; cbn [ThreatLevel_eqb orb andb].
  - unfold ret at 1. unfold bind at 1. rewrite recordThreat_run by exact Hf.
    eexists. split; [reflexivity |]. cbn. unfold stats_of.
    rewrite ?app_nil_r, ?Z.add_0_r. repeat split.
  - destruct (match r_contextScore a with Some c => _ | None => false end).
    + unfold bind at 1. rewrite recordThreat_run by exact Hf.
      eexists. split; [reflexivity |]. cbn. unfold stats_of.
      rewrite ?Z.add_0_r. repeat split.
    + unfold ret at 1. unfold bind at 1. rewrite recordThreat_run by exact Hf.
      eexists. split; [reflexivity |]. cbn. unfold stats_of.
      rewrite ?app_nil_r, ?Z.add_0_r. repeat split.
  - unfold bind at 1. rewrite incrementBlocked_run by exact Hf.
    unfold bind at 1. rewrite recordThreat_run by exact Hf.
    eexists. split; [reflexivity |]. cbn. unfold stats_of. repeat split.
  - unfold ret at 1. unfold bind at 1. rewrite recordThreat_run by exact Hf.
    eexists. split; [reflexivity |]. cbn. unfold stats_of.
    rewrite ?app_nil_r, ?Z.add_0_r. repeat split.
Qed.


(** X9. A link that reaches the local analysis is counted: with no storage
    fault, and on a call whose reputation lookup starts no download (the
    worker answers, or a database at most a day old is stored),
    [analyzeLink] adds one to [linksScanned], sets [lastScan] to the clock,
    adds one to [threatsBlocked] exactly when the verdict is dangerous,
    raises one notification exactly when the verdict is dangerous or it is
    suspicious with a context score of at least 5, and records the verdict
    with the types of its issues. *)
Theorem analysed_link_is_counted (url : string) (context : option string)
  (u : URL) (w : World) :
  new_URL url = Some u ->
  reaches_local_analysis w url u ->
  fault_free w ->
  no_download w url ->
  exists a w',
    PhishingDetector.analyzeLink url context w = (Ok a, w')
    /\ stats w'
       = Some (mkStats (linksScanned (stats_of w) + 1)
                 (threatsBlocked (stats_of w)
                  + (if ThreatLevel_eqb (r_threatLevel a) dangerous then 1 else 0))
                 (Some (now w)))
    /\ notifications w'
       = (notifications w
          ++ if notified a
             then [(url_hostname u, r_threatLevel a,
                    Z.of_nat (List.length (r_issues a)))]
             else [])%list
    /\ recorded w' = (recorded w ++ [(r_threatLevel a, map type (r_issues a))])%list.
Proof.
  intros Hu Hr Hf _.
  destruct (analyzeLink_is_finish url context u w Hu Hr) as (a & _ & E).
  destruct (finish_world url u a w Hu Hf) as (w' & Ef & _ & Hs & Hn & Hrec & _).
  exists a, w'. rewrite E. auto.
Qed.

Lemma lookup_assign url v cache :
  StorageManager.lookup url (StorageManager.assign url v cache) = Some v.
Proof.
  induction cache as [| [k v'] rest IH]; cbn [StorageManager.assign StorageManager.lookup].
  - rewrite String.eqb_refl. reflexivity.
  - destruct (String.eqb_spec k url) as [-> | Hne];
      cbn [StorageManager.lookup].
    + rewrite String.eqb_refl. reflexivity.
    + destruct (String.eqb_spec k url); [contradiction | exact IH].
Qed.

Lemma length_assign url v cache :
  (List.length (StorageManager.assign url v cache) <= S (List.length cache))%nat.
Proof.
  induction cache as [| [k v'] rest IH]; cbn [StorageManager.assign List.length];
    [lia |].
  destruct (String.eqb k url); cbn [List.length]; lia.
Qed.

(** The cache lookup of an entry that the store returns. *)
Lemma getCachedThreat_hit url w c ts :
  local_get_fails (faults w) = false ->
  StorageManager.lookup url (threatCache w) = Some c ->
  r_timestamp c = Some ts ->
  StorageManager.getCachedThreat url w
  = if Constants.CACHE_DURATION (r_threatLevel c) <? now w - ts
    then (Ok None,
          if local_set_fails (faults w) then w
          else set_threatCache (StorageManager.remove url (threatCache w)) w)
    else (Ok (Some c), w).
Proof.
  intros Hf Hl Ht.
  unfold StorageManager.getCachedThreat, try_catch, bind, local_get, Date_now,
    local_set, ret.
  rewrite Hf, Hl, Ht.
  destruct (_ <? _); [| reflexivity].
  destruct (local_set_fails (faults w)); reflexivity.
Qed.

(** Inside its window a cached result is returned as it is, and the world
    stays as it was. *)
Lemma cache_hit url context w c ts :
  local_get_fails (faults w) = false ->
  StorageManager.lookup url (threatCache w) = Some c ->
  r_timestamp c = Some ts ->
  ts <> 0 ->
  served (r_threatLevel c) (now w - ts) = true ->
  PhishingDetector.analyzeLink url context w = (Ok c, w).
Proof.
  intros Hf Hl Ht Hts Hs.
  unfold PhishingDetector.analyzeLink, try_catch, PhishingDetector.analyzeLink_try.
  unfold bind at 1. rewrite (getCachedThreat_hit url w c ts Hf Hl Ht).
  destruct (r_threatLevel c) eqn:Hlev; cbn [served] in Hs; props;
    cbn [Constants.CACHE_DURATION]; compare;
    unfold PhishingDetector.isCacheValid; rewrite Ht, Hlev;
    unfold bind, Date_now, ret; rewrite ?Ht;
    cbn [ThreatLevel_eqb orb]; compare; reflexivity.
Qed.

(** X10. The windows of the cache.  A cached result that the store returns,
    with a time stamp, is served by [analyzeLink] as it is, the world left
    unchanged, while its age is under one hour for a dangerous result, at
    most one hour for a suspicious or an unknown one, and under twenty-four
    hours for a safe one; past that the call analyses the URL afresh: it
    returns a result that is not the cached one, on a URL that parses the
    result of the white list, the black list, the reputation data or the
    local analysis ([uncached_result]) read in the world that the lookup of
    the cache leaves, and on a URL that does not parse the error result.
    The six hours that [analyzeLink] grants a suspicious result are never
    reached: [getCachedThreat] drops it after one hour. *)
Theorem cache_windows (url : string) (context : option string) (w : World)
  (c : AnalysisResult) (ts : Z) :
  local_get_fails (faults w) = false ->
  StorageManager.lookup url (threatCache w) = Some c ->
  r_timestamp c = Some ts ->
  ts <> 0 ->
  if served (r_threatLevel c) (now w - ts)
  then PhishingDetector.analyzeLink url context w = (Ok c, w)
  else PhishingDetector.analyzeLink url context w
       = fresh url context (snd (StorageManager.getCachedThreat url w))
       /\ exists a w',
            PhishingDetector.analyzeLink url context w = (Ok a, w')
            /\ a <> c
            /\ match new_URL url with
               | Some u =>
                   uncached_result (snd (StorageManager.getCachedThreat url w))
                     url context u = Ok a
               | None => a = PhishingDetector.error_result url URL_error
               end.
Proof.
  intros Hf Hl Ht Hts.
  destruct (served (r_threatLevel c) (now w - ts)) eqn:Hs.
  - apply (cache_hit url context w c ts Hf Hl Ht Hts Hs).
  - assert (PhishingDetector.analyzeLink url context w
            = fresh url context (snd (StorageManager.getCachedThreat url w)))
      as Ea.
    { unfold PhishingDetector.analyzeLink, fresh, try_catch,
        PhishingDetector.analyzeLink_try.
      unfold bind at 1. rewrite (getCachedThreat_hit url w c ts Hf Hl Ht).
      destruct (Z.ltb_spec (Constants.CACHE_DURATION (r_threatLevel c))
                  (now w - ts)) as [Hexp | Hexp]; [reflexivity |].
      cbn [snd]. unfold bind at 1. unfold PhishingDetector.isCacheValid.
      rewrite Ht. unfold bind, Date_now, ret.
      destruct (r_threatLevel c); cbn [served] in Hs; props;
        cbn [Constants.CACHE_DURATION ThreatLevel_eqb orb] in *; compare;
        try reflexivity; lia. }
    split; [exact Ea |]. rewrite Ea.
    destruct (fresh_result url context
                (snd (StorageManager.getCachedThreat url w)))
      as (a & w' & Ef & Er & En).
    exists a, w'. split; [exact Ef |]. split; [| exact Er].
    intros Ec. subst a.
    destruct En as [En | En]; rewrite Ht in En; [discriminate |].
    inversion En as [En'].
    destruct (runs_getCachedThreat url w) as (r & w1 & E1 & (Hn & _)).
    rewrite E1 in En'. cbn [snd] in En'.
    assert (served (r_threatLevel c) 0 = true) as H0
      by (destruct (r_threatLevel c); reflexivity).
    replace (now w - ts) with 0 in Hs by lia.
    rewrite H0 in Hs. discriminate Hs.
Qed.

(** X11. The result of a local analysis is served to the next call: with no
    storage fault, fewer than 1000 cached results and a clock that is not at
    zero, [analyzeLink] stores its result under the URL with the time of the
    call, and a second call at the same clock reading, whatever its context,
    returns that result and leaves the stores as they are. *)
Theorem second_call_is_served (url : string) (context context' : option string)
  (u : URL) (w : World) :
  new_URL url = Some u ->
  reaches_local_analysis w url u ->
  fault_free w ->
  (List.length (threatCache w) < 1000)%nat ->
  now w <> 0 ->
  exists a w',
    PhishingDetector.analyzeLink url context w = (Ok a, w')
    /\ StorageManager.lookup url (threatCache w')
       = Some (StorageManager.with_timestamp (now w) a)
    /\ PhishingDetector.analyzeLink url context' w'
       = (Ok (StorageManager.with_timestamp (now w) a), w').
Proof.
  intros Hu Hr Hf Hlen Hnow.
  destruct (analyzeLink_is_finish url context u w Hu Hr) as (a & _ & E).
  destruct (returns_finish url u a Hu w) as (w' & Ef & (Hn & Hfa & _)).
  destruct (finish_world url u a w Hu Hf) as (w2 & Ef2 & Hc & _).
  rewrite Ef in Ef2. inversion Ef2; subst w2; clear Ef2.
  exists a, w'. rewrite E. split; [exact Ef |].
  assert (StorageManager.lookup url (threatCache w')
          = Some (StorageManager.with_timestamp (now w) a)) as Hl.
  { rewrite Hc. unfold cache_after. cbv zeta.
    pose proof (length_assign url (StorageManager.with_timestamp (now w) a)
                  (threatCache w)) as Hla.
    destruct (Nat.ltb_spec 1000
                (List.length
                   (StorageManager.assign url
                      (StorageManager.with_timestamp (now w) a) (threatCache w))));
      [lia | apply lookup_assign]. }
  split; [exact Hl |].
  apply (cache_hit url context' w' _ (now w)); try assumption.
  - rewrite Hfa, Hf. reflexivity.
  - reflexivity.
  - rewrite Hn, Z.sub_diag.
    destruct (r_threatLevel (StorageManager.with_timestamp (now w) a)); reflexivity.
Qed.

End Effects.

Lemma analysed_link_is_counted_witness :
  exists a w',
    PhishingDetector.analyzeLink (H := Example.platform) "http://192.168.1.1"
      None (quiet_world 1000) = (Ok a, w')
    /\ stats w'
       = Some (mkStats (linksScanned (stats_of (quiet_world 1000)) + 1)
                 (threatsBlocked (stats_of (quiet_world 1000))
                  + (if ThreatLevel_eqb (r_threatLevel a) dangerous then 1 else 0))
                 (Some 1000))
    /\ notifications w'
       = (if notified a
          then [("192.168.1.1", r_threatLevel a,
                 Z.of_nat (List.length (r_issues a)))]
          else [])
    /\ recorded w' = [(r_threatLevel a, map type (r_issues a))].
Proof.
  apply (analysed_link_is_counted (H := Example.platform) "http://192.168.1.1"
           None (mkURL "http:" EmptyString "192.168.1.1" EmptyString "/" [])
           (quiet_world 1000)).
  - reflexivity.
  - repeat split; reflexivity.
  - reflexivity.
  - left. reflexivity.
Defined.

Lemma cache_windows_witness :
  PhishingDetector.analyzeLink (H := Example.platform) "https://example.org"
    None (suspicious_world 3601000)
  = (Ok suspicious_entry, suspicious_world 3601000)
  /\ PhishingDetector.analyzeLink (H := Example.platform) "https://example.org"
       None (suspicious_world 3601001)
     = fresh (H := Example.platform) "https://example.org" None
         (snd (StorageManager.getCachedThreat "https://example.org"
                 (suspicious_world 3601001)))
  /\ exists a w',
       PhishingDetector.analyzeLink (H := Example.platform)
         "https://example.org" None (suspicious_world 3601001) = (Ok a, w')
       /\ a <> suspicious_entry
       /\ uncached_result (H := Example.platform)
            (snd (StorageManager.getCachedThreat "https://example.org"
                    (suspicious_world 3601001)))
            "https://example.org" None
            (mkURL "https:" EmptyString "example.org" EmptyString "/" [])
          = Ok a.
Proof.
  split.
  - apply (cache_windows (H := Example.platform) "https://example.org" None
             (suspicious_world 3601000) suspicious_entry 1000);
      [reflexivity | reflexivity | reflexivity | lia].
  - apply (cache_windows (H := Example.platform) "https://example.org" None
             (suspicious_world 3601001) suspicious_entry 1000);
      [reflexivity | reflexivity | reflexivity | lia].
Defined.

Lemma second_call_is_served_witness :
  exists a w',
    PhishingDetector.analyzeLink (H := Example.platform) "https://mit.edu" None
      (Example.empty_world 1000) = (Ok a, w')
    /\ StorageManager.lookup "https://mit.edu" (threatCache w')
       = Some (StorageManager.with_timestamp 1000 a)
    /\ PhishingDetector.analyzeLink (H := Example.platform) "https://mit.edu"
         (Some "urgent verify your account") w'
       = (Ok (StorageManager.with_timestamp 1000 a), w').
Proof.
  apply (second_call_is_served (H := Example.platform) "https://mit.edu" None
           (Some "urgent verify your account")
           (mkURL "https:" EmptyString "mit.edu" EmptyString "/" [])
           (Example.empty_world 1000)).
  - reflexivity.
  - repeat split; reflexivity.
  - reflexivity.
  - simpl. lia.
  - simpl. lia.
Defined.

(** ** Relations that every step of a call keeps *)

Section Preserved.
Variable R : World -> World -> Prop.
Hypothesis R_refl : forall w, R w w.
Hypothesis R_trans : forall w1 w2 w3, R w1 w2 -> R w2 w3 -> R w1 w3.

Lemma preserves_ret {A} (a : A) : preserves R (ret a).
Proof. intros w r w' E. inversion E; subst. apply R_refl. Qed.

Lemma preserves_throw {A} (e : string) : preserves R (@throw A e).
Proof. intros w r w' E. inversion E; subst. apply R_refl. Qed.

Lemma preserves_bind {A B} (m : M A) (k : A -> M B) :
  preserves R m -> (forall a, preserves R (k a)) -> preserves R (bind m k).
Proof.
  intros Hm Hk w r w' E. unfold bind in E.
  destruct (m w) as [[a | e] w1] eqn:Em.
  - eapply R_trans; [eapply Hm; eassumption | eapply Hk; eassumption].
  - inversion E; subst. eapply Hm; eassumption.
Qed.

Lemma preserves_try_catch {A} (m : M A) (h : string -> M A) :
  preserves R m -> (forall e, preserves R (h e)) -> preserves R (try_catch m h).
Proof.
  intros Hm Hh w r w' E. unfold try_catch in E.
  destruct (m w) as [[a | e] w1] eqn:Em.
  - inversion E; subst. eapply Hm; eassumption.
  - eapply R_trans; [eapply Hm; eassumption | eapply Hh; eassumption].
Qed.

End Preserved.

(** Run a step of the library to its end: every result and the world that
    comes with it. *)
Ltac run_step E :=
  repeat (unfold StorageManager.isWhitelisted, StorageManager.isBlacklisted,
            StorageManager.getWhitelist, StorageManager.getBlacklist,
            StorageManager.removeFromWhitelist, StorageManager.getStats,
            StorageManager.updateStats, StorageManager.incrementScanned,
            StorageManager.incrementBlocked, StorageManager.cacheThreat,
            StorageManager.getCachedThreat, AnalyticsManager.recordThreat,
            NotificationManager.showThreatBlocked, PhishingDetector.isCacheValid,
            try_catch, bind, local_get, local_set, sync_get, sync_set, Date_now,
            ret, throw in E);
  repeat match type of E with
         | context [if ?b then _ else _] => destruct b eqn:?
         | context [match ?x with _ => _ end] => destruct x eqn:?
         end;
  inversion E; subst; clear E.

Section Whitelist.
Context `{Platform}.

Ltac unchanged :=
  intros w r w' E; unfold same_whitelist; run_step E; reflexivity.

Lemma same_whitelist_isBlacklisted d :
  preserves same_whitelist (StorageManager.isBlacklisted d).
Proof. unchanged. Qed.

Lemma same_whitelist_cacheThreat url a :
  preserves same_whitelist (StorageManager.cacheThreat url a).
Proof. unchanged. Qed.

Lemma same_whitelist_incrementScanned :
  preserves same_whitelist StorageManager.incrementScanned.
Proof. unchanged. Qed.

Lemma same_whitelist_incrementBlocked :
  preserves same_whitelist StorageManager.incrementBlocked.
Proof. unchanged. Qed.

Lemma same_whitelist_recordThreat l t :
  preserves same_whitelist (AnalyticsManager.recordThreat l t).
Proof. unchanged. Qed.

Lemma same_whitelist_showThreatBlocked u l n :
  preserves same_whitelist (NotificationManager.showThreatBlocked u l n).
Proof. unchanged. Qed.

Lemma same_whitelist_Date_now : preserves same_whitelist Date_now.
Proof. unchanged. Qed.

Lemma same_whitelist_checkPhishTank u :
  preserves same_whitelist (ThreatIntelligence.checkPhishTank u).
Proof.
  intros w r w' E. rewrite checkPhishTank_run in E. inversion E. reflexivity.
Qed.

Lemma same_whitelist_trans w1 w2 w3 :
  same_whitelist w1 w2 -> same_whitelist w2 w3 -> same_whitelist w1 w3.
Proof. unfold same_whitelist. congruence. Qed.

(** Past the white list, no step of the call writes it. *)
Lemma same_whitelist_blacklistStage url context domain :
  preserves same_whitelist (PhishingDetector.blacklistStage url context domain).
Proof.
  unfold PhishingDetector.blacklistStage, PhishingDetector.reputationStage,
    PhishingDetector.localStage, PhishingDetector.finish.
  repeat first
    [ progress intros
    | apply same_whitelist_isBlacklisted | apply same_whitelist_cacheThreat
    | apply same_whitelist_incrementScanned | apply same_whitelist_incrementBlocked
    | apply same_whitelist_recordThreat | apply same_whitelist_showThreatBlocked
    | apply same_whitelist_Date_now | apply same_whitelist_checkPhishTank
    | apply preserves_ret; reflexivity
    | apply preserves_throw; reflexivity
    | match goal with
      | |- preserves _ (if ?b then _ else _) => destruct b
      | |- preserves _ (match ?x with _ => _ end) => destruct x
      end
    | apply preserves_bind; [exact same_whitelist_trans | |] ].
Qed.

End Whitelist.

(** ** The two lists *)

Section Lists.
Context `{Platform}.

Lemma push_if_keeps c i l (x : Issue) :
  In x l -> In x (URLParser.push_if c i l).
Proof.
  intros Hin. rewrite push_if_app. apply in_or_app. left. exact Hin.
Qed.

Lemma push_if_true i l : In i (URLParser.push_if true i l).
Proof. rewrite push_if_app. apply in_or_app. right. left. reflexivity. Qed.

Lemma listed_in domain d l :
  In d l ->
  JS.includes domain d || JS.includes d domain = true ->
  StorageManager.listed domain l = true.
Proof.
  intros Hin Hs. unfold StorageManager.listed. apply existsb_exists.
  exists d. split; assumption.
Qed.

(** X12. The black list matches by substring, in either direction, and it
    stands before the reputation data and the local analysis: when an entry
    of the black list occurs in the host of a link, or the host in the entry,
    and the white list does not match the host, [analyzeLink] returns the
    dangerous result with the single issue [blacklisted], whatever the URL
    looks like.  With no storage fault the link is counted as blocked but
    not as scanned, and no notification is raised. *)
Theorem blacklist_blocks_by_substring (url : string) (context : option string)
  (u : URL) (w : World) (d : string) :
  new_URL url = Some u ->
  StorageManager.lookup url (threatCache w) = None ->
  fault_free w ->
  StorageManager.listed (url_hostname u) (whitelist w) = false ->
  In d (blacklist w) ->
  JS.includes (url_hostname u) d || JS.includes d (url_hostname u) = true ->
  exists w',
    PhishingDetector.analyzeLink url context w
    = (Ok (PhishingDetector.blacklisted_result url (url_hostname u) (now w)), w')
    /\ stats w'
       = Some (mkStats (linksScanned (stats_of w))
                 (threatsBlocked (stats_of w) + 1) (lastScan (stats_of w)))
    /\ notifications w' = notifications w.
Proof.
  intros Hu Hm Hf Hwl Hin Hs.
  pose proof Hf as Hf'. unfold fault_free in Hf'.
  rewrite (analyzeLink_miss url context w Hm).
  unfold fresh, try_catch, PhishingDetector.analyzeUncached. rewrite Hu.
  cbv zeta. unfold bind at 1. rewrite isWhitelisted_run.
  unfold read_whitelist. rewrite Hf'. cbn [sync_get_fails]. rewrite Hwl.
  unfold bind at 1. unfold ret at 1.
  unfold PhishingDetector.blacklistStage. unfold bind at 1.
  rewrite isBlacklisted_run.
  unfold read_blacklist. rewrite Hf'. cbn [sync_get_fails].
  rewrite (listed_in _ d _ Hin Hs).
  unfold bind at 1. unfold Date_now at 1.
  unfold bind at 1. rewrite (cacheThreat_run _ _ w Hf).
  unfold bind at 1. rewrite incrementBlocked_run by exact Hf.
  unfold ret. eexists. split; [reflexivity |]. split; reflexivity.
Qed.

(** X13. The white list stands before everything else: when the white list
    matches the host of a link and the host passes its check,
    [analyzeLink] returns the safe result without issues, whether or not the
    host is on the black list or in the reputation data, and whatever the
    rest of the URL is. *)
Theorem whitelist_precedes (url : string) (context : option string) (u : URL)
  (w : World) :
  new_URL url = Some u ->
  StorageManager.lookup url (threatCache w) = None ->
  StorageManager.listed (url_hostname u) (read_whitelist w) = true ->
  PhishingDetector.verifyWhitelistedDomain (url_hostname u) = true ->
  exists w',
    PhishingDetector.analyzeLink url context w
    = (Ok (PhishingDetector.whitelisted_result url (url_hostname u) (now w)), w').
Proof.
  intros Hu Hm Hwl Hv.
  destruct (fresh_parsed url context u w Hu) as (a & w' & Ef & Er & _).
  exists w'. rewrite (analyzeLink_miss url context w Hm), Ef.
  unfold uncached_result in Er. rewrite Hwl, Hv in Er. cbn [andb] in Er.
  inversion Er. reflexivity.
Qed.

(** A host with one of the ASCII lookalikes fails the check of the white
    list. *)
Lemma lookalike_fails_verification domain u' :
  new_URL ("https://" ++ domain) = Some u' ->
  existsb (fun c => JS.includes (toLowerCase (url_hostname u')) c)
    ascii_lookalikes = true ->
  PhishingDetector.verifyWhitelistedDomain domain = false.
Proof.
  intros Hu Hc. unfold PhishingDetector.verifyWhitelistedDomain, analyzeURL.
  rewrite (make_parsed _ u' Hu), getThreatLevel_parsed.
  unfold URLParser.isLegitimate_method. cbn [ua_issues URLParser.getIssues].
  apply Z.eqb_neq.
  assert (In (issue "homograph" high "URL contains lookalike characters")
            (URLParser.detected (fields_of ("https://" ++ domain) u'))) as Hin.
  { unfold URLParser.detected. cbv zeta.
    replace (URLParser.hasHomographAttack (fields_of ("https://" ++ domain) u'))
      with true.
    - do 4 apply push_if_keeps. apply push_if_true.
    - symmetry. apply homograph_of_lookalike. exact Hc. }
  pose proof (count_severity_in high _ _ Hin eq_refl) as Hh.
  unfold fields_of in Hh. lia.
Qed.

(** X2. A host with one of the ASCII characters l, 1, 0, | or v is a
    homograph to the URL analyzer: for every URL that parses and whose host,
    in lower case, contains one of them, [getIssues] has the high issue
    [homograph]. *)
Theorem ascii_letters_are_homographs (url : string) (u : URL) :
  new_URL url = Some u ->
  existsb (fun c => JS.includes (toLowerCase (url_hostname u)) c)
    ascii_lookalikes = true ->
  In (issue "homograph" high "URL contains lookalike characters")
    (URLParser.getIssues (URLParser.make url)).
Proof.
  intros Hu Hc. rewrite (getIssues_make url u Hu).
  unfold URLParser.detected. cbv zeta.
  replace (URLParser.hasHomographAttack (fields_of url u)) with true
    by (symmetry; apply homograph_of_lookalike; exact Hc).
  do 4 apply push_if_keeps. apply push_if_true.
Qed.

(** X14. A white-listed host with a lookalike character does not stay on the
    white list: when the white list matches the host of a link and the host
    contains one of l, 1, 0, | or v, [analyzeLink] does not return the
    white-listed result; it removes the entries equal to the host from the
    white list and goes on with the black list, the reputation data and the
    local analysis. *)
Theorem lookalike_host_is_evicted (url : string) (context : option string)
  (u u' : URL) (w : World) :
  new_URL url = Some u ->
  StorageManager.lookup url (threatCache w) = None ->
  fault_free w ->
  StorageManager.listed (url_hostname u) (whitelist w) = true ->
  new_URL ("https://" ++ url_hostname u) = Some u' ->
  existsb (fun c => JS.includes (toLowerCase (url_hostname u')) c)
    ascii_lookalikes = true ->
  exists a w',
    PhishingDetector.analyzeLink url context w = (Ok a, w')
    /\ r_isWhitelisted a = false
    /\ whitelist w'
       = filter (fun d => negb (String.eqb d (url_hostname u))) (whitelist w).
Proof.
  intros Hu Hm Hf Hwl Hu' Hc.
  pose proof Hf as Hf'. unfold fault_free in Hf'.
  pose proof (lookalike_fails_verification _ u' Hu' Hc) as Hv.
  destruct (fresh_parsed url context u w Hu) as (a & w' & Ef & Er & _).
  exists a, w'. rewrite (analyzeLink_miss url context w Hm).
  split; [exact Ef |]. split.
  - unfold uncached_result, blacklist_result, reputation_result in Er.
    rewrite Hv, andb_false_r in Er.
    destruct (StorageManager.listed _ (read_blacklist w));
      [inversion Er; reflexivity |].
    destruct (pt_found _); [inversion Er; reflexivity |].
    apply (localAnalysis_fields url context u a Hu Er).
  - unfold fresh, try_catch, PhishingDetector.analyzeUncached in Ef.
    rewrite Hu in Ef. cbv zeta in Ef. unfold bind at 1 in Ef.
    rewrite isWhitelisted_run in Ef.
    unfold read_whitelist in Ef. rewrite Hf' in Ef. cbn [sync_get_fails] in Ef.
    rewrite Hwl, Hv in Ef.
    unfold bind at 1 in Ef. unfold bind at 1 in Ef.
    unfold StorageManager.removeFromWhitelist, StorageManager.getWhitelist,
      try_catch, bind, sync_get, sync_set, ret in Ef.
    rewrite Hf' in Ef. cbn [sync_get_fails sync_set_fails] in Ef.
    cbv beta iota in Ef. rewrite Hf' in Ef. cbn [sync_set_fails] in Ef.
    cbv beta iota in Ef.
    destruct (PhishingDetector.blacklistStage url context (url_hostname u) _)
      as [r w2] eqn:Eb.
    pose proof (same_whitelist_blacklistStage url context (url_hostname u) _ r w2 Eb)
      as Hsame.
    unfold same_whitelist in Hsame. cbn [whitelist set_whitelist] in Hsame.
    destruct r; inversion Ef; subst; exact Hsame.
Qed.


End Lists.

Lemma blacklist_blocks_by_substring_witness :
  exists w',
    PhishingDetector.analyzeLink (H := Example.platform)
      "https://notevil.com/page" None (blacklisting_world 1000)
    = (Ok (PhishingDetector.blacklisted_result "https://notevil.com/page"
             "notevil.com" 1000), w')
    /\ stats w' = Some (mkStats 0 1 None)
    /\ notifications w' = [].
Proof.
  apply (blacklist_blocks_by_substring (H := Example.platform)
           "https://notevil.com/page" None
           (mkURL "https:" EmptyString "notevil.com" EmptyString "/page" [])
           (blacklisting_world 1000) "evil.com").
  - reflexivity.
  - reflexivity.
  - reflexivity.
  - reflexivity.
  - simpl. left. reflexivity.
  - reflexivity.
Defined.

Lemma whitelist_precedes_witness :
  exists w',
    PhishingDetector.analyzeLink (H := Example.platform) "https://mit.edu" None
      (both_lists_world 1000)
    = (Ok (PhishingDetector.whitelisted_result "https://mit.edu" "mit.edu" 1000),
       w').
Proof.
  apply (whitelist_precedes (H := Example.platform) "https://mit.edu" None
           (mkURL "https:" EmptyString "mit.edu" EmptyString "/" [])
           (both_lists_world 1000)); reflexivity.
Defined.

Lemma ascii_letters_are_homographs_witness :
  In (issue "homograph" high "URL contains lookalike characters")
    (URLParser.getIssues
       (URLParser.make (H := Example.platform) "https://example.com")).
Proof.
  apply (ascii_letters_are_homographs (H := Example.platform)
           "https://example.com"
           (mkURL "https:" EmptyString "example.com" EmptyString "/" []));
    reflexivity.
Defined.

Lemma lookalike_host_is_evicted_witness :
  exists a w',
    PhishingDetector.analyzeLink (H := Example.platform)
      "https://example.com/page" None (whitelisting_world 1000) = (Ok a, w')
    /\ r_isWhitelisted a = false
    /\ whitelist w' = [].
Proof.
  apply (lookalike_host_is_evicted (H := Example.platform)
           "https://example.com/page" None
           (mkURL "https:" EmptyString "example.com" EmptyString "/page" [])
           (mkURL "https:" EmptyString "example.com" EmptyString "/" [])
           (whitelisting_world 1000)); reflexivity.
Defined.

(** ** The size of the cache *)

Lemma bounded_cache_refl w : bounded_cache w w.
Proof. intros Hb. exact Hb. Qed.

Lemma bounded_cache_trans w1 w2 w3 :
  bounded_cache w1 w2 -> bounded_cache w2 w3 -> bounded_cache w1 w3.
Proof. unfold bounded_cache. auto. Qed.

Lemma length_slice_last {A} (n : nat) (l : list A) :
  (List.length (JS.slice_last n l) <= n)%nat.
Proof. unfold JS.slice_last. rewrite length_skipn. lia. Qed.

Lemma length_remove url cache :
  (List.length (StorageManager.remove url cache) <= List.length cache)%nat.
Proof. unfold StorageManager.remove. apply filter_length_le. Qed.

Section Bound.
Context `{Platform}.

Ltac same_size :=
  intros w r w' E; unfold bounded_cache; run_step E; intros Hb; exact Hb.

Lemma bounded_getCachedThreat url :
  preserves bounded_cache (StorageManager.getCachedThreat url).
Proof.
  intros w r w' E Hb.
  unfold StorageManager.getCachedThreat, try_catch, bind, local_get, local_set,
    Date_now, ret in E.
  destruct (local_get_fails (faults w)); [inversion E; subst; exact Hb |].
  destruct (StorageManager.lookup url (threatCache w)) as [c |];
    [| inversion E; subst; exact Hb].
  destruct (match r_timestamp c with Some t => _ | None => false end);
    [| inversion E; subst; exact Hb].
  destruct (local_set_fails (faults w)); inversion E; subst; [exact Hb |].
  cbn [threatCache set_threatCache].
  pose proof (length_remove url (threatCache w)). lia.
Qed.

Lemma bounded_cacheThreat url a :
  preserves bounded_cache (StorageManager.cacheThreat url a).
Proof.
  intros w r w' E Hb.
  unfold StorageManager.cacheThreat, try_catch, bind, local_get, local_set,
    Date_now, ret in E.
  destruct (local_get_fails (faults w)); [inversion E; subst; exact Hb |].
  destruct (Nat.ltb_spec 1000
              (List.length
                 (StorageManager.assign url
                    (StorageManager.with_timestamp (now w) a) (threatCache w))));
    destruct (local_set_fails (faults w));
    inversion E; subst; try exact Hb; cbn [threatCache set_threatCache].
  - apply length_slice_last.
  - assumption.
Qed.

Lemma bounded_isWhitelisted d :
  preserves bounded_cache (StorageManager.isWhitelisted d).
Proof. same_size. Qed.

Lemma bounded_isBlacklisted d :
  preserves bounded_cache (StorageManager.isBlacklisted d).
Proof. same_size. Qed.

Lemma bounded_removeFromWhitelist d :
  preserves bounded_cache (StorageManager.removeFromWhitelist d).
Proof. same_size. Qed.

Lemma bounded_incrementScanned :
  preserves bounded_cache StorageManager.incrementScanned.
Proof. same_size. Qed.

Lemma bounded_incrementBlocked :
  preserves bounded_cache StorageManager.incrementBlocked.
Proof. same_size. Qed.

Lemma bounded_recordThreat l t :
  preserves bounded_cache (AnalyticsManager.recordThreat l t).
Proof. same_size. Qed.

Lemma bounded_showThreatBlocked u l n :
  preserves bounded_cache (NotificationManager.showThreatBlocked u l n).
Proof. same_size. Qed.

Lemma bounded_isCacheValid c :
  preserves bounded_cache (PhishingDetector.isCacheValid c).
Proof. same_size. Qed.

Lemma bounded_Date_now : preserves bounded_cache Date_now.
Proof. same_size. Qed.

Lemma bounded_checkPhishTank u :
  preserves bounded_cache (ThreatIntelligence.checkPhishTank u).
Proof.
  intros w r w' E. rewrite checkPhishTank_run in E. inversion E; subst.
  apply bounded_cache_refl.
Qed.

Ltac bounded :=
  repeat first
    [ progress intros
    | apply bounded_getCachedThreat | apply bounded_cacheThreat
    | apply bounded_isWhitelisted | apply bounded_isBlacklisted
    | apply bounded_removeFromWhitelist | apply bounded_incrementScanned
    | apply bounded_incrementBlocked | apply bounded_recordThreat
    | apply bounded_showThreatBlocked | apply bounded_isCacheValid
    | apply bounded_Date_now | apply bounded_checkPhishTank
    | assumption
    | apply preserves_ret; exact bounded_cache_refl
    | apply preserves_throw; exact bounded_cache_refl
    | match goal with
      | |- preserves _ (if ?b then _ else _) => destruct b
      | |- preserves _ (match ?x with _ => _ end) => destruct x
      end
    | apply preserves_bind; [exact bounded_cache_trans | |]
    | apply preserves_try_catch; [exact bounded_cache_trans | |] ].

Lemma bounded_analyzeUncached url context :
  preserves bounded_cache (PhishingDetector.analyzeUncached url context).
Proof.
  unfold PhishingDetector.analyzeUncached, PhishingDetector.blacklistStage,
    PhishingDetector.reputationStage, PhishingDetector.localStage,
    PhishingDetector.finish.
  bounded.
Qed.

Lemma bounded_analyzeLink url context :
  preserves bounded_cache (PhishingDetector.analyzeLink url context).
Proof.
  pose proof (bounded_analyzeUncached url context).
  unfold PhishingDetector.analyzeLink, PhishingDetector.analyzeLink_try.
  bounded.
Qed.

Lemma analyzeLink_returns url context w :
  exists a w', PhishingDetector.analyzeLink url context w = (Ok a, w').
Proof.
  unfold PhishingDetector.analyzeLink, try_catch.
  destruct (PhishingDetector.analyzeLink_try url context w) as [[a | e] w'];
    unfold ret; eauto.
Qed.

(** X15. The cache keeps its limit over a batch: [analyzeLinks] returns one
    result for each URL of the batch, without throwing, and a cache of at
    most 1000 results holds at most 1000 results afterwards, whatever the
    URLs are and whichever storage calls fail. *)
Theorem batch_keeps_the_cache_bounded (urls : list string) (w : World) :
  (List.length (threatCache w) <= 1000)%nat ->
  exists results w',
    PhishingDetector.analyzeLinks urls w = (Ok results, w')
    /\ List.length results = List.length urls
    /\ (List.length (threatCache w') <= 1000)%nat.
Proof.
  revert w. induction urls as [| url rest IH]; intros w Hb.
  - exists [], w. repeat split. exact Hb.
  - cbn [PhishingDetector.analyzeLinks]. unfold bind at 1.
    destruct (analyzeLink_returns url None w) as (a & w1 & E1). rewrite E1.
    pose proof (bounded_analyzeLink url None w (Ok a) w1 E1 Hb) as Hb1.
    destruct (IH w1 Hb1) as (results & w' & E & Hlen & Hb').
    unfold bind at 1. rewrite E. unfold ret.
    exists (a :: results), w'. cbn [List.length]. auto.
Qed.

End Bound.

Lemma batch_keeps_the_cache_bounded_witness :
  exists results w',
    PhishingDetector.analyzeLinks (H := Example.platform)
      ["https://google.com"; "https://example.com"; "http://192.168.1.1"]
      (Example.empty_world 1000) = (Ok results, w')
    /\ List.length results = 3%nat
    /\ (List.length (threatCache w') <= 1000)%nat.
Proof.
  apply (batch_keeps_the_cache_bounded (H := Example.platform)
           ["https://google.com"; "https://example.com"; "http://192.168.1.1"]
           (Example.empty_world 1000)).
  simpl. lia.
Defined.

(** ** The actions of the user on the two lists *)

Lemma prefix_refl (s : string) : String.prefix s s = true.
Proof.
  induction s as [| c s IH]; [reflexivity |].
  cbn [String.prefix]. destruct (ascii_dec c c) as [_ | n]; [exact IH | contradiction].
Qed.

Lemma includes_refl (s : string) : JS.includes s s = true.
Proof.
  destruct s as [| c s]; cbn [JS.includes]; unfold JS.startsWith;
    rewrite prefix_refl; reflexivity.
Qed.

Lemma list_includes_in (l : list string) (x : string) :
  JS.list_includes l x = true <-> In x l.
Proof.
  unfold JS.list_includes. rewrite existsb_exists. split.
  - intros (y & Hy & E). apply String.eqb_eq in E. subst. exact Hy.
  - intros Hin. exists x. split; [exact Hin | apply String.eqb_refl].
Qed.

Lemma filter_absent (d : string) (l : list string) :
  ~ In d l -> filter (fun x => negb (String.eqb x d)) l = l.
Proof.
  induction l as [| x l IH]; intros Hn; [reflexivity |].
  cbn [filter]. destruct (String.eqb_spec x d) as [-> | _].
  - exfalso. apply Hn. left. reflexivity.
  - cbn [negb]. rewrite IH; [reflexivity |]. intros Hin. apply Hn. right. exact Hin.
Qed.

Lemma addToWhitelist_run domain w :
  fault_free w ->
  StorageActions.addToWhitelist domain w
  = (Ok true,
     if JS.list_includes (whitelist w) domain then w
     else set_whitelist (whitelist w ++ [domain]) w).
Proof.
  intros Hf. unfold fault_free in Hf.
  unfold StorageActions.addToWhitelist, StorageManager.getWhitelist, try_catch,
    bind, sync_get, sync_set, ret.
  settle Hf. destruct (JS.list_includes (whitelist w) domain); cbn [negb];
    settle Hf; reflexivity.
Qed.

Lemma addToBlacklist_run domain w :
  fault_free w ->
  StorageActions.addToBlacklist domain w
  = (Ok true,
     if JS.list_includes (blacklist w) domain then w
     else set_blacklist (blacklist w ++ [domain]) w).
Proof.
  intros Hf. unfold fault_free in Hf.
  unfold StorageActions.addToBlacklist, StorageManager.getBlacklist, try_catch,
    bind, sync_get, sync_set, ret.
  settle Hf. destruct (JS.list_includes (blacklist w) domain); cbn [negb];
    settle Hf; reflexivity.
Qed.

Lemma removeFromWhitelist_run domain w :
  fault_free w ->
  StorageManager.removeFromWhitelist domain w
  = (Ok true,
     set_whitelist (filter (fun d => negb (String.eqb d domain)) (whitelist w)) w).
Proof.
  intros Hf. unfold fault_free in Hf.
  unfold StorageManager.removeFromWhitelist, StorageManager.getWhitelist,
    try_catch, bind, sync_get, sync_set, ret.
  settle Hf. reflexivity.
Qed.

Lemma clearCache_run w :
  fault_free w ->
  StorageActions.clearCache w = (Ok true, set_threatCache [] w).
Proof.
  intros Hf. unfold fault_free in Hf.
  unfold StorageActions.clearCache, try_catch, bind, local_set, ret.
  settle Hf. reflexivity.
Qed.

(** X16. Adding to the white list and removing from it, with no storage
    fault: [addToWhitelist] leaves the domain on the list, at the end when it
    was not there and the list as it was otherwise, so adding twice is adding
    once; [removeFromWhitelist] leaves no entry equal to the domain, and
    after the addition of a new domain it gives the first list back. *)
Theorem whitelist_add_and_remove (domain : string) (w : World) :
  fault_free w ->
  let added := snd (StorageActions.addToWhitelist domain w) in
  whitelist added
  = (if JS.list_includes (whitelist w) domain then whitelist w
     else whitelist w ++ [domain])%list
  /\ In domain (whitelist added)
  /\ snd (StorageActions.addToWhitelist domain added) = added
  /\ ~ In domain (whitelist (snd (StorageManager.removeFromWhitelist domain added)))
  /\ (~ In domain (whitelist w) ->
      whitelist (snd (StorageManager.removeFromWhitelist domain added))
      = whitelist w).
Proof.
  intros Hf. cbv zeta. rewrite (addToWhitelist_run domain w Hf). cbn [snd].
  destruct (JS.list_includes (whitelist w) domain) eqn:Hin.
  - pose proof (proj1 (list_includes_in _ _) Hin) as Hin'.
    rewrite (addToWhitelist_run domain w Hf), Hin.
    rewrite (removeFromWhitelist_run domain w Hf). cbn [snd whitelist set_whitelist].
    repeat split; try assumption.
    + intros Hf'. apply filter_In in Hf'. destruct Hf' as [_ Hf'].
      rewrite String.eqb_refl in Hf'. discriminate.
    + intros Hn. contradiction.
  - assert (~ In domain (whitelist w)) as Hn.
    { intros Hin'. apply list_includes_in in Hin'. congruence. }
    rewrite addToWhitelist_run by exact Hf.
    rewrite removeFromWhitelist_run by exact Hf.
    cbn [snd whitelist set_whitelist].
    replace (JS.list_includes (whitelist w ++ [domain]) domain) with true
      by (symmetry; apply list_includes_in; apply in_or_app; right; left;
          reflexivity).
    repeat split.
    + apply in_or_app. right. left. reflexivity.
    + intros Hf'. apply filter_In in Hf'. destruct Hf' as [_ Hf'].
      rewrite String.eqb_refl in Hf'. discriminate.
    + intros _. rewrite filter_app, (filter_absent domain _ Hn).
      cbn [filter]. rewrite String.eqb_refl. cbn [negb]. apply app_nil_r.
Qed.

Section Handlers.
Context `{Platform}.

(** X17. White-listing takes effect at once: after [handleAddToWhitelist] on
    a domain that passes the check of the white list, with no storage fault,
    the handler answers success and [analyzeLink] returns the safe,
    white-listed result for every URL of that host, whatever the cache held
    before and whether or not the host is on the black list. *)
Theorem whitelisting_takes_effect (url : string) (context : option string)
  (u : URL) (w : World) :
  new_URL url = Some u ->
  fault_free w ->
  url_hostname u <> EmptyString ->
  PhishingDetector.verifyWhitelistedDomain (url_hostname u) = true ->
  exists w1 w2,
    ServiceWorker.handleAddToWhitelist (Some (url_hostname u)) w
    = (Ok ServiceWorker.success, w1)
    /\ PhishingDetector.analyzeLink url context w1
       = (Ok (PhishingDetector.whitelisted_result url (url_hostname u) (now w)),
          w2).
Proof.
  intros Hu Hf Hne Hv.
  unfold ServiceWorker.handleAddToWhitelist.
  destruct (String.eqb_spec (url_hostname u) EmptyString) as [E | _];
    [contradiction |].
  unfold try_catch at 1. unfold bind at 1.
  rewrite (addToWhitelist_run _ w Hf).
  assert (forall w0,
             fault_free w0 -> now w0 = now w ->
             In (url_hostname u) (whitelist w0) ->
             exists w2,
               PhishingDetector.analyzeLink url context (set_threatCache [] w0)
               = (Ok (PhishingDetector.whitelisted_result url (url_hostname u)
                        (now w)), w2)) as Hstep.
  { intros w0 Hf0 Hn0 Hin0.
    set (w1 := set_threatCache [] w0).
    assert (StorageManager.lookup url (threatCache w1) = None) as Hm
        by reflexivity.
    assert (StorageManager.listed (url_hostname u) (read_whitelist w1) = true)
      as Hl.
    { unfold read_whitelist. cbn [faults w1 set_threatCache].
      unfold fault_free in Hf0. rewrite Hf0. cbn [sync_get_fails whitelist].
      apply (listed_in _ (url_hostname u) _ Hin0).
      rewrite includes_refl. reflexivity. }
    destruct (fresh_parsed url context u w1 Hu) as (a & w2 & Ef & Er & _).
    exists w2. rewrite (analyzeLink_miss url context w1 Hm).
    unfold uncached_result in Er. rewrite Hl, Hv in Er. cbn [andb] in Er.
    inversion Er; subst a. rewrite Ef. cbn [now w1 set_threatCache].
    rewrite Hn0. reflexivity. }
  unfold bind at 1.
  destruct (JS.list_includes (whitelist w) (url_hostname u)) eqn:Hin;
    rewrite clearCache_run by exact Hf; unfold ret.
  - destruct (Hstep w Hf eq_refl) as [w2 E2];
      [apply list_includes_in; exact Hin |].
    eexists _, w2. split; [reflexivity | exact E2].
  - destruct (Hstep (set_whitelist (whitelist w ++ [url_hostname u]) w) Hf eq_refl)
      as [w2 E2];
      [cbn [whitelist set_whitelist]; apply in_or_app; right; left; reflexivity |].
    eexists _, w2. split; [reflexivity | exact E2].
Qed.

(** X18. The handler answers success whatever the store does: for a domain
    that is not empty, [handleAddToWhitelist] answers success also when the
    write of the list is rejected, and the list is then as it was. *)
Theorem handler_reports_success_on_failure (domain : string) (w : World) :
  domain <> EmptyString ->
  sync_set_fails (faults w) = true ->
  exists w',
    ServiceWorker.handleAddToWhitelist (Some domain) w
    = (Ok ServiceWorker.success, w')
    /\ whitelist w' = whitelist w.
Proof.
  intros Hne Hs. unfold ServiceWorker.handleAddToWhitelist.
  destruct (String.eqb_spec domain EmptyString) as [E | _]; [contradiction |].
  unfold StorageActions.addToWhitelist, StorageActions.clearCache,
    StorageManager.getWhitelist, try_catch, bind, sync_get, sync_set,
    local_set, ret.
  destruct (sync_get_fails (faults w)); cbv beta iota;
    destruct (negb _); cbv beta iota; rewrite ?Hs; cbv beta iota;
    destruct (local_set_fails (faults w)); eexists; split; reflexivity.
Qed.

End Handlers.

Lemma whitelist_add_and_remove_witness :
  let added :=
    snd (StorageActions.addToWhitelist "mit.edu" (whitelisting_world 1000)) in
  whitelist added = ["example.com"; "mit.edu"]
  /\ In "mit.edu" (whitelist added)
  /\ snd (StorageActions.addToWhitelist "mit.edu" added) = added
  /\ ~ In "mit.edu"
         (whitelist (snd (StorageManager.removeFromWhitelist "mit.edu" added)))
  /\ (~ In "mit.edu" (whitelist (whitelisting_world 1000)) ->
      whitelist (snd (StorageManager.removeFromWhitelist "mit.edu" added))
      = whitelist (whitelisting_world 1000)).
Proof.
  apply (whitelist_add_and_remove "mit.edu" (whitelisting_world 1000)).
  reflexivity.
Defined.

Lemma whitelisting_takes_effect_witness :
  exists w1 w2,
    ServiceWorker.handleAddToWhitelist (Some "mit.edu") (stale_world 2000)
    = (Ok ServiceWorker.success, w1)
    /\ PhishingDetector.analyzeLink (H := Example.platform) "https://mit.edu"
         None w1
       = (Ok (PhishingDetector.whitelisted_result "https://mit.edu" "mit.edu" 2000),
          w2).
Proof.
  apply (whitelisting_takes_effect (H := Example.platform) "https://mit.edu" None
           (mkURL "https:" EmptyString "mit.edu" EmptyString "/" [])
           (stale_world 2000)).
  - reflexivity.
  - reflexivity.
  - simpl. discriminate.
  - reflexivity.
Defined.

Lemma handler_reports_success_on_failure_witness :
  exists w',
    ServiceWorker.handleAddToWhitelist (Some "mit.edu") (faulty_world 1000)
    = (Ok ServiceWorker.success, w')
    /\ whitelist w' = whitelist (faulty_world 1000).
Proof.
  apply (handler_reports_success_on_failure "mit.edu" (faulty_world 1000)).
  - discriminate.
  - reflexivity.
Defined.

(** ** The rate limiter of the service worker *)

Lemma get_set_same s d requests :
  RateLimiter.get s (RateLimiter.set s d requests) = Some d.
Proof.
  induction requests as [| [k d'] rest IH];
    cbn [RateLimiter.set RateLimiter.get].
  - rewrite String.eqb_refl. reflexivity.
  - destruct (String.eqb_spec k s) as [-> | Hne]; cbn [RateLimiter.get].
    + rewrite String.eqb_refl. reflexivity.
    + destruct (String.eqb_spec k s); [contradiction | exact IH].
Qed.

Lemma get_set_other s s' d requests :
  s' <> s ->
  RateLimiter.get s (RateLimiter.set s' d requests) = RateLimiter.get s requests.
Proof.
  intros Hne. induction requests as [| [k d'] rest IH];
    cbn [RateLimiter.set RateLimiter.get].
  - destruct (String.eqb_spec s' s); [contradiction | reflexivity].
  - destruct (String.eqb_spec k s') as [-> | Hk]; cbn [RateLimiter.get].
    + destruct (String.eqb_spec s' s); [contradiction | reflexivity].
    + rewrite IH. reflexivity.
Qed.

(** A message of one sender leaves the data of the others as they are. *)
Lemma checkLimit_other now s s' requests :
  s' <> s ->
  RateLimiter.get s (snd (RateLimiter.checkLimit now s' requests))
  = RateLimiter.get s requests.
Proof.
  intros Hne. unfold RateLimiter.checkLimit. cbv zeta.
  destruct (_ <=? _); cbn [snd]; [reflexivity | apply get_set_other; exact Hne].
Qed.

Lemma answers_of_counted s (k r : Z) calls requests :
  RateLimiter.get s requests = Some (RateLimiter.mkSenderData k r) ->
  Forall (fun c => snd c = s -> fst c <= r) calls ->
  RateLimiter.answers s (fst (RateLimiter.run calls requests))
  = map (fun i => k + Z.of_nat i <? RateLimiter.limit)
      (seq 0 (RateLimiter.sent s calls)).
Proof.
  revert k requests. induction calls as [| [t s'] rest IH]; intros k requests Hg Hall;
    [reflexivity |].
  inversion Hall as [| c l Hc Hrest]; subst. cbn [fst snd] in Hc.
  cbn [RateLimiter.run].
  destruct (RateLimiter.checkLimit t s' requests) as [ok requests'] eqn:Ec.
  destruct (RateLimiter.run rest requests') as [oks final] eqn:Er.
  unfold RateLimiter.answers, RateLimiter.sent. cbn [fst snd filter].
  destruct (String.eqb_spec s' s) as [-> | Hne].
  - specialize (Hc eq_refl). cbn [map List.length seq].
    unfold RateLimiter.checkLimit in Ec. rewrite Hg in Ec. cbv zeta in Ec.
    cbn [RateLimiter.resetTime RateLimiter.count] in Ec.
    replace (r <? t) with false in Ec by (symmetry; apply Z.ltb_ge; lia).
    cbn [RateLimiter.resetTime RateLimiter.count] in Ec.
    rewrite <- seq_shift, map_map.
    destruct (Z.leb_spec RateLimiter.limit k) as [Hfull | Hroom];
      inversion Ec; subst ok requests'; clear Ec.
    + f_equal; [symmetry; apply Z.ltb_ge; lia |].
      specialize (IH k requests Hg Hrest). rewrite Er in IH.
      unfold RateLimiter.answers, RateLimiter.sent in IH. cbn [fst] in IH.
      rewrite IH. apply map_ext. intros i.
      replace (k + Z.of_nat i <? RateLimiter.limit) with false
        by (symmetry; apply Z.ltb_ge; lia).
      symmetry. apply Z.ltb_ge. lia.
    + f_equal; [symmetry; apply Z.ltb_lt; lia |].
      specialize (IH (k + 1) _ (get_set_same s _ requests) Hrest).
      rewrite Er in IH.
      unfold RateLimiter.answers, RateLimiter.sent in IH. cbn [fst] in IH.
      rewrite IH. apply map_ext. intros i. f_equal. lia.
  - assert (RateLimiter.get s requests' = Some (RateLimiter.mkSenderData k r))
      as Hg'.
    { pose proof (checkLimit_other t s s' requests Hne) as Ho.
      rewrite Ec in Ho. cbn [snd] in Ho. rewrite Ho. exact Hg. }
    specialize (IH k requests' Hg' Hrest). rewrite Er in IH.
    unfold RateLimiter.answers, RateLimiter.sent in IH. cbn [fst] in IH.
    exact IH.
Qed.

(** X19. The rate limiter accepts the first hundred messages of a window and
    no more: for a sender that the map does not know, whose first message
    comes at [t1] and whose further messages come no later than
    [t1 + 60000], the answers to its messages are yes for the first 100 and
    no for all that follow, whatever other senders send in between. *)
Theorem hundred_messages_a_window (s : string) (t1 : Z)
  (rest : list (Z * string)) (requests : RateLimiter.Requests) :
  RateLimiter.get s requests = None ->
  Forall (fun c => snd c = s -> fst c <= t1 + RateLimiter.window) rest ->
  RateLimiter.answers s (fst (RateLimiter.run ((t1, s) :: rest) requests))
  = map (fun i => Z.of_nat i <? 100)
      (seq 0 (RateLimiter.sent s ((t1, s) :: rest))).
Proof.
  intros Hg Hall. cbn [RateLimiter.run].
  unfold RateLimiter.checkLimit. rewrite Hg. cbv zeta.
  cbn [RateLimiter.resetTime RateLimiter.count].
  replace (t1 + RateLimiter.window <? t1) with false
    by (symmetry; apply Z.ltb_ge; unfold RateLimiter.window; lia).
  cbn [RateLimiter.resetTime RateLimiter.count].
  change (RateLimiter.limit <=? 0) with false. cbv iota.
  pose proof (answers_of_counted s (0 + 1) (t1 + RateLimiter.window) rest _
                (get_set_same s _ requests) Hall) as IH.
  destruct (RateLimiter.run rest _) as [oks final].
  unfold RateLimiter.answers, RateLimiter.sent in *. cbn [fst snd filter] in *.
  rewrite String.eqb_refl. cbn [map List.length seq].
  f_equal. rewrite IH, <- seq_shift, map_map. apply map_ext. intros i.
  unfold RateLimiter.limit. f_equal. lia.
Qed.

Lemma hundred_messages_a_window_witness :
  RateLimiter.answers "ext-1"
    (fst (RateLimiter.run
            [(0, "ext-1"); (30000, "ext-1"); (30000, "ext-2"); (60000, "ext-1")]
            []))
  = map (fun i => Z.of_nat i <? 100)
      (seq 0 (RateLimiter.sent "ext-1"
                [(0, "ext-1"); (30000, "ext-1"); (30000, "ext-2");
                 (60000, "ext-1")])).
Proof.
  apply (hundred_messages_a_window "ext-1" 0
           [(30000, "ext-1"); (30000, "ext-2"); (60000, "ext-1")] []).
  - reflexivity.
  - repeat constructor; intros _; vm_compute; discriminate.
Defined.

(** ** The lookup of the worker and the lookup of the main thread *)

Lemma JSMap_get_set_same {V} key (v : V) m :
  JSMap.get key (JSMap.set key v m) = Some v.
Proof.
  induction m as [| [k v'] rest IH]; cbn [JSMap.set JSMap.get].
  - rewrite String.eqb_refl. reflexivity.
  - destruct (String.eqb_spec k key) as [-> | Hne]; cbn [JSMap.get].
    + rewrite String.eqb_refl. reflexivity.
    + destruct (String.eqb_spec k key); [contradiction | exact IH].
Qed.

Lemma JSMap_get_set_other {V} key key' (v : V) m :
  key' <> key -> JSMap.get key (JSMap.set key' v m) = JSMap.get key m.
Proof.
  intros Hne. induction m as [| [k v'] rest IH]; cbn [JSMap.set JSMap.get].
  - destruct (String.eqb_spec key' key); [contradiction | reflexivity].
  - destruct (String.eqb_spec k key') as [-> | Hk]; cbn [JSMap.get].
    + destruct (String.eqb_spec key' key); [contradiction | reflexivity].
    + rewrite IH. reflexivity.
Qed.

Section Worker.
Context `{Platform}.

(** The map of the URLs has a key exactly when an entry has that URL. *)
Lemma urlMap_has key (entries : list PhishEntry) m :
  JSMap.has key
    (fold_left (fun m entry => JSMap.set (toLowerCase (pe_url entry)) entry m)
       entries m)
  = JSMap.has key m
    || existsb (fun entry => String.eqb (toLowerCase (pe_url entry)) key) entries.
Proof.
  revert m. induction entries as [| e rest IH]; intros m; cbn [fold_left existsb].
  - rewrite orb_false_r. reflexivity.
  - rewrite IH. unfold JSMap.has.
    destruct (String.eqb_spec (toLowerCase (pe_url e)) key) as [<- | Hne].
    + rewrite JSMap_get_set_same. cbn [orb]. rewrite orb_true_r. reflexivity.
    + rewrite (JSMap_get_set_other key _ e m Hne). reflexivity.
Qed.

(** The set of the domains has a domain exactly when an entry has it. *)
Lemma domains_has domain (entries : list PhishEntry) s :
  JS.list_includes
    (fold_left (fun s entry => PhishTankWorker.add (pe_domain entry) s) entries s)
    domain
  = JS.list_includes s domain
    || existsb (fun entry => String.eqb (pe_domain entry) domain) entries.
Proof.
  revert s. induction entries as [| e rest IH]; intros s; cbn [fold_left existsb].
  - rewrite orb_false_r. reflexivity.
  - rewrite IH. unfold PhishTankWorker.add.
    destruct (JS.list_includes s (pe_domain e)) eqn:Hin.
    + destruct (String.eqb_spec (pe_domain e) domain) as [<- | Hne];
        [rewrite Hin |]; reflexivity.
    + unfold JS.list_includes in *. rewrite existsb_app. cbn [existsb].
      rewrite orb_false_r, (String.eqb_sym domain), orb_assoc. reflexivity.
Qed.

(** The map of the domains holds, for each domain, its entries in the order
    of the list. *)
Lemma domainMap_get domain (entries : list PhishEntry) m :
  JSMap.get domain
    (fold_left
       (fun m entry =>
          let m :=
            if JSMap.has (pe_domain entry) m then m
            else JSMap.set (pe_domain entry) [] m in
          match JSMap.get (pe_domain entry) m with
          | Some entries =>
              JSMap.set (pe_domain entry) (entries ++ [entry])%list m
          | None => m
          end)
       entries m)
  = let selected :=
      filter (fun entry => String.eqb (pe_domain entry) domain) entries in
    match JSMap.get domain m, selected with
    | Some old, _ => Some (old ++ selected)%list
    | None, [] => None
    | None, _ => Some selected
    end.
Proof.
  revert m. induction entries as [| e rest IH]; intros m;
    cbn [fold_left filter]; cbv zeta.
  - destruct (JSMap.get domain m); [rewrite app_nil_r |]; reflexivity.
  - rewrite IH. cbv zeta. unfold JSMap.has.
    destruct (String.eqb_spec (pe_domain e) domain) as [-> | Hne].
    + destruct (JSMap.get domain m) as [old |] eqn:Hg.
      * rewrite Hg, JSMap_get_set_same, <- app_assoc. reflexivity.
      * rewrite !JSMap_get_set_same. reflexivity.
    + destruct (JSMap.get (pe_domain e) m) as [old |] eqn:Hg.
      * rewrite Hg, (JSMap_get_set_other domain _ _ m Hne). reflexivity.
      * rewrite JSMap_get_set_same, !(JSMap_get_set_other domain _ _ _ Hne).
        reflexivity.
Qed.

Lemma existsb_filter_nil {A} (p : A -> bool) (l : list A) :
  existsb p l = true -> filter p l <> [].
Proof.
  induction l as [| x l IH]; cbn [existsb filter]; [discriminate |].
  destruct (p x); [discriminate | exact IH].
Qed.

Lemma find_existsb {A} (p : A -> bool) (l : list A) :
  match find p l with Some _ => true | None => false end = existsb p l.
Proof.
  induction l as [| x l IH]; cbn [find existsb]; [reflexivity |].
  destruct (p x); [reflexivity | exact IH].
Qed.

(** X20. The worker and the main thread agree on a match: for the same list
    of entries, [checkUrl] of the worker, with its [Set] and [Map]s built by
    [loadDatabase], finds a URL exactly when the scan of the list in
    [checkPhishTank], which answers when the worker fails, finds it. *)
Theorem worker_agrees_with_the_scan (entries : list PhishEntry)
  (lastUpdated : Z) (url : string) (w : World) :
  local_get_fails (faults w) = false ->
  phishTankDB w = Some (entries, lastUpdated) ->
  pt_error (worker w url) = true ->
  PhishTankWorker.found
    (PhishTankWorker.checkUrl (Some (PhishTankWorker.loadDatabase entries)) url)
  = pt_found (reputation w url).
Proof.
  intros Hf Hdb Herr.
  unfold reputation, ThreatIntelligence.checkPhishTank, try_catch, bind,
    local_get, ret, throw.
  rewrite Herr, Hf, Hdb. cbn [negb fst].
  unfold PhishTankWorker.checkUrl, PhishTankWorker.loadDatabase.
  cbn [PhishTankWorker.urlMap PhishTankWorker.domains PhishTankWorker.domainMap].
  destruct (new_URL url) as [u |]; [| reflexivity]. cbv zeta.
  set (key := JS.strip_trailing_slash (toLowerCase url)).
  pose proof (urlMap_has key entries []) as Hu.
  pose proof (domains_has (url_hostname u) entries []) as Hd.
  pose proof (domainMap_get (url_hostname u) entries []) as Hm.
  cbv zeta in Hm. cbn [JSMap.get] in Hm.
  unfold JSMap.has in Hu. cbn [JSMap.get orb] in Hu.
  unfold JS.list_includes at 2 in Hd. cbn [existsb orb] in Hd.
  assert (existsb
            (fun entry =>
               String.eqb (toLowerCase (pe_url entry)) key
               || String.eqb (pe_domain entry) (url_hostname u)) entries
          = existsb (fun entry => String.eqb (toLowerCase (pe_url entry)) key)
              entries
            || existsb (fun entry => String.eqb (pe_domain entry) (url_hostname u))
                 entries) as Hsplit.
  { clear. induction entries as [| e rest IH]; [reflexivity |].
    cbn [existsb]. rewrite IH.
    destruct (String.eqb _ key); destruct (String.eqb _ (url_hostname u));
      cbn [orb]; rewrite ?orb_true_r; reflexivity. }
  transitivity
    (existsb
       (fun entry =>
          String.eqb (toLowerCase (pe_url entry)) key
          || String.eqb (pe_domain entry) (url_hostname u)) entries).
  - rewrite Hsplit, <- Hu.
    destruct (JSMap.get key _) as [entry |]; [reflexivity |]. cbn [orb].
    rewrite Hd.
    destruct (existsb (fun entry => String.eqb (pe_domain entry) (url_hostname u))
                entries) eqn:He; [| reflexivity].
    rewrite Hm. pose proof (existsb_filter_nil _ _ He) as Hne.
    destruct (filter _ entries); [contradiction | reflexivity].
  - rewrite <- find_existsb. destruct (find _ entries); reflexivity.
Qed.

End Worker.

Lemma worker_agrees_with_the_scan_witness :
  PhishTankWorker.found
    (PhishTankWorker.checkUrl (H := Example.platform)
       (Some (PhishTankWorker.loadDatabase (H := Example.platform)
                phishing_entries))
       "http://secure-login.example.net/c")
  = pt_found (reputation (H := Example.platform) (scanning_world 3000)
                "http://secure-login.example.net/c").
Proof.
  apply (worker_agrees_with_the_scan (H := Example.platform) phishing_entries
           2000 "http://secure-login.example.net/c" (scanning_world 3000));
    reflexivity.
Defined.

(** The two lookups can differ in [verified]: on a match of the domain the
    worker reports whether some entry of the domain is verified, the scan
    whether the first entry that matches is. *)
Example verified_can_differ :
  PhishTankWorker.verified
    (PhishTankWorker.checkUrl (H := Example.platform)
       (Some (PhishTankWorker.loadDatabase (H := Example.platform)
                phishing_entries))
       "http://secure-login.example.net/c") = Some true
  /\ pt_verified (reputation (H := Example.platform) (scanning_world 3000)
                    "http://secure-login.example.net/c") = false.
Proof. split; reflexivity. Qed.

(** ** Retries with exponential backoff *)

Section Backoff.
Variables (S A E : Type).
Variable operation : ErrorHandler.Operation S A E.
Variables (maxRetries baseDelay : Z).

Lemma geometric_sum (k : nat) :
  fold_right Z.add 0
    (map (fun i => baseDelay * 2 ^ Z.of_nat i) (seq 0 k))
  = baseDelay * (2 ^ Z.of_nat k - 1).
Proof.
  induction k as [| k IH]; [cbn; lia |].
  rewrite seq_S, map_app, fold_right_app. cbn [map fold_right Nat.add].
  assert (forall (l : list Z) (z : Z),
             fold_right Z.add z l = fold_right Z.add 0 l + z) as Hz.
  { clear. induction l as [| x l IHl]; intros z; cbn [fold_right]; [lia |].
    rewrite IHl. lia. }
  rewrite Hz, IH, Nat2Z.inj_succ, Z.pow_succ_r by lia. lia.
Qed.

(** The loop from an attempt on: it makes at least one attempt when an
    iteration is left, no more attempts than iterations, all of them when it
    fails, and before each attempt but the first it has waited for the base
    delay doubled once more. *)
Lemma retry_loop_schedule (remaining : nat) (attempt : Z) (lastError : option E)
  (s : S) :
  Z.of_nat remaining + attempt = maxRetries ->
  0 <= attempt ->
  let '(r, _, events) :=
    ErrorHandler.retry_loop S A E operation maxRetries baseDelay remaining
      attempt lastError s in
  (ErrorHandler.attempts events <= remaining)%nat
  /\ (remaining <> 0%nat -> ErrorHandler.attempts events <> 0%nat)
  /\ ErrorHandler.delays events
     = map (fun i => baseDelay * 2 ^ (attempt + Z.of_nat i))
         (seq 0 (ErrorHandler.attempts events - 1))
  /\ (forall e, r = inr e -> ErrorHandler.attempts events = remaining)
  /\ (forall e, r = inr e -> e = None -> remaining = 0%nat /\ lastError = None).
Proof.
  revert attempt lastError s.
  induction remaining as [| remaining IH]; intros attempt lastError s Hsum Hpos;
    cbn [ErrorHandler.retry_loop].
  - cbn [ErrorHandler.attempts ErrorHandler.delays Nat.sub seq map].
    split; [lia |]. split; [congruence |]. split; [reflexivity |].
    split; [reflexivity |]. intros e0 He Hn. inversion He. subst. auto.
  - destruct (operation s) as [[a | error] s'].
    + cbn [ErrorHandler.attempts ErrorHandler.delays Nat.sub seq map].
      split; [lia |]. split; [discriminate |]. split; [reflexivity |].
      split; intros; discriminate.
    + specialize (IH (attempt + 1) (Some error) s' ltac:(lia) ltac:(lia)).
      destruct (ErrorHandler.retry_loop S A E operation maxRetries baseDelay
                  remaining (attempt + 1) (Some error) s')
        as [[r s''] events].
      destruct IH as (Hle & Hone & Hd & Hfail & Hnone).
      destruct remaining as [| remaining'].
      * replace (attempt <? maxRetries - 1) with false
          by (symmetry; apply Z.ltb_ge; lia).
        assert (ErrorHandler.attempts events = 0%nat) as H0 by lia.
        cbn [app ErrorHandler.attempts ErrorHandler.delays]. rewrite Hd, H0.
        cbn [Nat.sub seq map].
        split; [lia |]. split; [discriminate |]. split; [reflexivity |].
        split; [reflexivity |].
        intros e0 He Hn. destruct (Hnone e0 He Hn) as [_ Hl]. discriminate.
      * replace (attempt <? maxRetries - 1) with true
          by (symmetry; apply Z.ltb_lt; lia).
        specialize (Hone ltac:(discriminate)).
        cbn [app ErrorHandler.attempts ErrorHandler.delays].
        split; [lia |]. split; [discriminate |]. split; [| split].
        -- rewrite Hd.
           destruct (ErrorHandler.attempts events) as [| k]; [contradiction |].
           cbn [Nat.sub]. rewrite Nat.sub_0_r.
           cbn [seq map]. rewrite Z.add_0_r. f_equal.
           rewrite <- seq_shift, map_map. apply map_ext. intros i.
           f_equal. f_equal. lia.
        -- intros e0 He. specialize (Hfail e0 He). lia.
        -- intros e0 He Hn. destruct (Hnone e0 He Hn) as [Hr _]. discriminate.
Qed.

(** X21. The schedule of [retryOperation]: the operation is attempted at
    most [maxRetries] times, and exactly that often when the call throws;
    before the attempt number k + 1 the call has waited for
    [baseDelay * 2^(k-1)], so the waits add up to
    [baseDelay * (2^(attempts - 1) - 1)]; and the value thrown is
    [undefined] only when [maxRetries] is zero and nothing was attempted. *)
Theorem retry_schedule (s : S) :
  0 <= maxRetries ->
  let '(r, _, events) :=
    ErrorHandler.retryOperation S A E operation maxRetries baseDelay s in
  let n := ErrorHandler.attempts events in
  Z.of_nat n <= maxRetries
  /\ ErrorHandler.delays events
     = map (fun i => baseDelay * 2 ^ Z.of_nat i) (seq 0 (n - 1))
  /\ fold_right Z.add 0 (ErrorHandler.delays events)
     = baseDelay * (2 ^ Z.of_nat (n - 1) - 1)
  /\ (forall e, r = inr e -> Z.of_nat n = maxRetries)
  /\ (r = inr None -> maxRetries = 0).
Proof.
  intros Hn. unfold ErrorHandler.retryOperation.
  pose proof (retry_loop_schedule (Z.to_nat maxRetries) 0 None s
                ltac:(lia) ltac:(lia)) as Hs.
  destruct (ErrorHandler.retry_loop S A E operation maxRetries baseDelay
              (Z.to_nat maxRetries) 0 None s) as [[r s'] events].
  destruct Hs as (Hle & _ & Hd & Hfail & Hnone). cbv zeta.
  assert (ErrorHandler.delays events
          = map (fun i => baseDelay * 2 ^ Z.of_nat i)
              (seq 0 (ErrorHandler.attempts events - 1))) as Hd'.
  { rewrite Hd. apply map_ext. intros i. reflexivity. }
  repeat split.
  - lia.
  - exact Hd'.
  - rewrite Hd'. apply geometric_sum.
  - intros e He. specialize (Hfail e He). lia.
  - intros He. destruct (Hnone None He eq_refl) as [Hz _]. lia.
Qed.

End Backoff.

(** An operation that fails twice and then returns the number of its calls,
    on a counter. *)
Lemma retry_schedule_witness :
  let operation (calls : nat) : (nat + string) * nat :=
    if (calls <? 2)%nat then (inr "HTTP 503", Datatypes.S calls)
    else (inl calls, Datatypes.S calls) in
  let '(r, _, events) :=
    ErrorHandler.retryOperation nat nat string operation 3 1000 0%nat in
  let n := ErrorHandler.attempts events in
  Z.of_nat n <= 3
  /\ ErrorHandler.delays events
     = map (fun i => 1000 * 2 ^ Z.of_nat i) (seq 0 (n - 1))
  /\ fold_right Z.add 0 (ErrorHandler.delays events)
     = 1000 * (2 ^ Z.of_nat (n - 1) - 1)
  /\ (forall e, r = inr e -> Z.of_nat n = 3)
  /\ (r = inr None -> 3 = 0).
Proof.
  intros operation.
  apply (retry_schedule nat nat string operation 3 1000 0%nat). lia.
Defined.

(** ** The time stamps of the downloaded entries *)

Section TimestampRange.
Variable Date_parse : string -> option Z.

Lemma reasonable_range (now : Z) (x : Q) :
  Timestamps.reasonable now x = true ->
  (inject_Z (now - Timestamps.tenYears) <= x)%Q
  /\ (x <= inject_Z (now + Timestamps.oneYear))%Q.
Proof.
  unfold Timestamps.reasonable. intros Hr. apply andb_prop in Hr.
  destruct Hr as [Hlo Hhi]. split; apply Qle_bool_iff; assumption.
Qed.

Lemma now_is_reasonable (now : Z) :
  (inject_Z (now - Timestamps.tenYears) <= inject_Z now)%Q
  /\ (inject_Z now <= inject_Z (now + Timestamps.oneYear))%Q.
Proof.
  rewrite <- !Zle_Qle. unfold Timestamps.tenYears, Timestamps.oneYear. lia.
Qed.

(** X22. [validateTimestamp] returns a time between ten years before the
    clock and one year after it, whatever the field holds; a number in that
    range, other than zero, is returned as it is, so validating such a
    result again gives it back. *)
Theorem validateTimestamp_is_reasonable (timestamp : Timestamps.JSValue)
  (now : Z) :
  let t := Timestamps.validateTimestamp Date_parse timestamp now in
  (inject_Z (now - Timestamps.tenYears) <= t)%Q
  /\ (t <= inject_Z (now + Timestamps.oneYear))%Q
  /\ (~ (t == 0)%Q ->
      Timestamps.validateTimestamp Date_parse (Timestamps.js_number t) now = t).
Proof.
  cbv zeta.
  assert ((inject_Z (now - Timestamps.tenYears)
           <= Timestamps.validateTimestamp Date_parse timestamp now)%Q
          /\ (Timestamps.validateTimestamp Date_parse timestamp now
              <= inject_Z (now + Timestamps.oneYear))%Q) as Hr.
  { unfold Timestamps.validateTimestamp.
    destruct (Timestamps.falsy timestamp); [apply now_is_reasonable |].
    destruct timestamp as [| | b | x | | neg | s |]; try apply now_is_reasonable.
    - destruct (Timestamps.reasonable now x) eqn:Hx;
        [apply reasonable_range; exact Hx | apply now_is_reasonable].
    - destruct (Date_parse s) as [parsed |]; [| apply now_is_reasonable].
      destruct (Timestamps.reasonable now (inject_Z parsed)) eqn:Hx;
        [apply reasonable_range; exact Hx | apply now_is_reasonable]. }
  destruct Hr as [Hlo Hhi]. repeat split; [exact Hlo | exact Hhi |].
  set (t := Timestamps.validateTimestamp Date_parse timestamp now) in *.
  intros Hnz. unfold Timestamps.validateTimestamp at 1.
  cbn [Timestamps.falsy].
  destruct (Qeq_bool t 0) eqn:Hz; [apply Qeq_bool_iff in Hz; contradiction |].
  unfold Timestamps.reasonable.
  apply Qle_bool_iff in Hlo. apply Qle_bool_iff in Hhi.
  rewrite Hlo, Hhi. reflexivity.
Qed.

End TimestampRange.

(** ** The counters of the analytics *)

Lemma count_type_total (t : Analytics.ByType) (type : string) (b : Analytics.Breakdown) :
  Analytics.types
    (Analytics.mkBreakdown (Analytics.n_dangerous b) (Analytics.n_suspicious b)
       (Analytics.n_safe b) (Analytics.n_unknown b) (Analytics.count_type t type))
  = Analytics.types
      (Analytics.mkBreakdown (Analytics.n_dangerous b) (Analytics.n_suspicious b)
         (Analytics.n_safe b) (Analytics.n_unknown b) t) + 1.
Proof.
  unfold Analytics.count_type, Analytics.types.
  repeat match goal with
         | |- context [if ?c then _ else _] => destruct c
         end; cbn; lia.
Qed.

Lemma count_types_total (types : list string) (t : Analytics.ByType)
  (b : Analytics.Breakdown) :
  Analytics.types
    (Analytics.mkBreakdown (Analytics.n_dangerous b) (Analytics.n_suspicious b)
       (Analytics.n_safe b) (Analytics.n_unknown b)
       (fold_left Analytics.count_type types t))
  = Analytics.types
      (Analytics.mkBreakdown (Analytics.n_dangerous b) (Analytics.n_suspicious b)
         (Analytics.n_safe b) (Analytics.n_unknown b) t)
    + Z.of_nat (List.length types).
Proof.
  revert t. induction types as [| type rest IH]; intros t; cbn [fold_left List.length].
  - lia.
  - rewrite IH, count_type_total. lia.
Qed.

Lemma record_totals (b : Analytics.Breakdown) (threat : ThreatLevel * list string) :
  Analytics.levels (Analytics.record b threat) = Analytics.levels b + 1
  /\ Analytics.types (Analytics.record b threat)
     = Analytics.types b + Z.of_nat (List.length (snd threat)).
Proof.
  destruct threat as [level types]. unfold Analytics.record. cbn [fst snd].
  split.
  - unfold Analytics.levels. destruct level; cbn; lia.
  - rewrite (count_types_total types _ (Analytics.count_level level b)).
    unfold Analytics.types. destruct level; reflexivity.
Qed.

(** X23. The breakdown counts every recorded threat once: in the breakdown
    of the threats that [recordThreat] has counted, the four counters of the
    levels add up to the number of the threats, and the eight counters of
    the types to the number of their issue types, each type falling under
    exactly one counter. *)
Theorem breakdown_counts_each_once (recorded : list (ThreatLevel * list string)) :
  Analytics.levels (Analytics.breakdown_of recorded)
  = Z.of_nat (List.length recorded)
  /\ Analytics.types (Analytics.breakdown_of recorded)
     = Z.of_nat (List.length (concat (map snd recorded))).
Proof.
  unfold Analytics.breakdown_of.
  assert (forall b,
             Analytics.levels (fold_left Analytics.record recorded b)
             = Analytics.levels b + Z.of_nat (List.length recorded)
             /\ Analytics.types (fold_left Analytics.record recorded b)
                = Analytics.types b
                  + Z.of_nat (List.length (concat (map snd recorded)))) as G.
  { induction recorded as [| threat rest IH]; intros b;
      cbn [fold_left List.length map concat].
    - lia.
    - destruct (IH (Analytics.record b threat)) as [Hl Ht].
      destruct (record_totals b threat) as [Hl1 Ht1].
      rewrite Hl, Ht, Hl1, Ht1, length_app. lia. }
  destruct (G Analytics.empty) as [Hl Ht]. rewrite Hl, Ht. split; reflexivity.
Qed.

Lemma update_first_dates today level stats :
  map Analytics.date (Analytics.update_first today level stats)
  = map Analytics.date stats.
Proof.
  induction stats as [| d rest IH]; cbn [Analytics.update_first map];
    [reflexivity |].
  destruct (String.eqb (Analytics.date d) today); cbn [map].
  - destruct level; reflexivity.
  - rewrite IH. reflexivity.
Qed.

Lemma update_first_scanned today level stats :
  existsb (fun s => String.eqb (Analytics.date s) today) stats = true ->
  Analytics.scanned_on today (Analytics.update_first today level stats)
  = Analytics.scanned_on today stats + 1.
Proof.
  unfold Analytics.scanned_on.
  induction stats as [| d rest IH]; cbn [existsb Analytics.update_first find];
    [discriminate |].
  destruct (String.eqb (Analytics.date d) today) eqn:E; cbn [find orb].
  - intros _.
    replace (String.eqb (Analytics.date (Analytics.count_day level d)) today)
      with true by (destruct level; symmetry; exact E).
    destruct level; reflexivity.
  - rewrite E. exact IH.
Qed.

Lemma scanned_on_absent today stats :
  existsb (fun s => String.eqb (Analytics.date s) today) stats = false ->
  Analytics.scanned_on today stats = 0
  /\ Analytics.scanned_on today (stats ++ [Analytics.mkDay today 0 0 0 0]) = 0
  /\ ~ In today (map Analytics.date stats).
Proof.
  unfold Analytics.scanned_on.
  induction stats as [| d rest IH]; cbn [existsb find app map].
  - intros _. rewrite String.eqb_refl. repeat split. intros [].
  - intros E. apply orb_false_iff in E. destruct E as [Ed Er].
    rewrite Ed. destruct (IH Er) as (H1 & H2 & H3). repeat split; try assumption.
    intros [Hd | Hin]; [| contradiction].
    rewrite Hd, String.eqb_refl in Ed. discriminate.
Qed.

(** X24. The daily statistics stay in shape: on a list of at most 30 days
    with pairwise distinct dates, [recordDailyActivity] leaves at most 30
    days with pairwise distinct dates, and the count of the links scanned on
    the day of the call has gone up by one, from zero when the day is
    new. *)
Theorem daily_stats_stay_in_shape (today : string) (threatLevel : ThreatLevel)
  (stats : list Analytics.Day) :
  (List.length stats <= 30)%nat ->
  NoDup (map Analytics.date stats) ->
  let stats' := Analytics.recordDailyActivity today threatLevel stats in
  (List.length stats' <= 30)%nat
  /\ NoDup (map Analytics.date stats')
  /\ Analytics.scanned_on today stats' = Analytics.scanned_on today stats + 1.
Proof.
  intros Hlen Hnd. cbv zeta. unfold Analytics.recordDailyActivity. cbv zeta.
  destruct (existsb (fun s => String.eqb (Analytics.date s) today) stats) eqn:Hex.
  - assert (List.length (Analytics.update_first today threatLevel stats)
            = List.length stats) as Hl.
    { rewrite <- (length_map Analytics.date), update_first_dates, length_map.
      reflexivity. }
    rewrite Hl. destruct (Nat.ltb_spec 30 (List.length stats)); [lia |].
    rewrite Hl, update_first_dates.
    repeat split; [lia | exact Hnd | apply update_first_scanned; exact Hex].
  - destruct (scanned_on_absent today stats Hex) as (H0 & H1 & Hnin).
    set (stats1 := (stats ++ [Analytics.mkDay today 0 0 0 0])%list).
    assert (existsb (fun s => String.eqb (Analytics.date s) today) stats1 = true)
      as Hex1.
    { unfold stats1. rewrite existsb_app. cbn [existsb Analytics.date].
      rewrite String.eqb_refl. apply orb_true_r. }
    assert (map Analytics.date (Analytics.update_first today threatLevel stats1)
            = (map Analytics.date stats ++ [today])%list) as Hd.
    { rewrite update_first_dates. unfold stats1. rewrite map_app. reflexivity. }
    assert (NoDup (map Analytics.date stats ++ [today])) as Hnd1.
    { apply NoDup_app; [exact Hnd | repeat constructor; intros [] |].
      intros x Hx [<- | []]. contradiction. }
    pose proof (update_first_scanned today threatLevel stats1 Hex1) as Hs.
    fold stats1 in H1. rewrite H1 in Hs. rewrite H0.
    assert (List.length (Analytics.update_first today threatLevel stats1)
            = Datatypes.S (List.length stats)) as Hl.
    { rewrite <- (length_map Analytics.date), Hd, length_app, length_map.
      cbn [List.length]. lia. }
    rewrite Hl.
    destruct (Nat.ltb_spec 30 (Datatypes.S (List.length stats))) as [Hfull | Hroom].
    + destruct stats as [| d rest]; [cbn [List.length] in Hfull; lia |].
      assert (String.eqb (Analytics.date d) today = false) as Hd0.
      { cbn [existsb] in Hex. apply orb_false_iff in Hex. apply Hex. }
      unfold stats1 in *. cbn [app Analytics.update_first] in *.
      rewrite Hd0 in *. cbn [List.tl].
      cbn [map app] in Hd, Hnd1. inversion Hd as [Hd']. rewrite Hd'.
      inversion Hnd1; subst.
      repeat split.
      * cbn [List.length] in Hl, Hlen. lia.
      * assumption.
      * unfold Analytics.scanned_on in Hs |- *. cbn [find] in Hs.
        rewrite Hd0 in Hs. exact Hs.
    + rewrite Hl, Hd. repeat split; [lia | exact Hnd1 | exact Hs].
Qed.

Lemma daily_stats_stay_in_shape_witness :
  let stats' :=
    Analytics.recordDailyActivity "Mon Nov 02 2026" dangerous
      [Analytics.mkDay "Sun Nov 01 2026" 4 1 1 2] in
  (List.length stats' <= 30)%nat
  /\ NoDup (map Analytics.date stats')
  /\ Analytics.scanned_on "Mon Nov 02 2026" stats'
     = Analytics.scanned_on "Mon Nov 02 2026"
         [Analytics.mkDay "Sun Nov 01 2026" 4 1 1 2] + 1.
Proof.
  apply (daily_stats_stay_in_shape "Mon Nov 02 2026" dangerous
           [Analytics.mkDay "Sun Nov 01 2026" 4 1 1 2]).
  - simpl. lia.
  - simpl. repeat constructor. simpl. intros [].
Defined.

(** ** The verdict of the URL analyzer and the verdict of the aggregator *)

Lemma table_below_verdict (k : Z) (H M N : nat) (l : Z) :
  0 <= l ->
  0 <= k < 5 \/ 9 <= k ->
  rank (Spec.threat_table false H M N)
  <= rank (verdict (Some k) (Z.of_nat H) (Z.of_nat M) l (Z.of_nat N)).
Proof.
  intros Hl Hk. unfold Spec.threat_table, verdict. cbv zeta.
  destruct (Z.leb_spec 9 k); [cbn [rank]; destruct (_ || _)%bool;
                               [| destruct (_ || _)%bool;
                                  [| destruct (_ <=? _)%nat]]; cbn; lia |].
  destruct (Z.leb_spec 5 k); [lia |].
  destruct (Nat.leb_spec 2 H); destruct (Nat.leb_spec 1 H);
    destruct (Nat.leb_spec 1 M); destruct (Nat.leb_spec 2 M);
    destruct (Nat.leb_spec 1 N); cbn [orb andb]; try lia;
    destruct (k =? 0);
    repeat match goal with
           | |- context [?x <=? ?y] => destruct (Z.leb_spec x y)
           | |- context [?x <? ?y] => destruct (Z.ltb_spec x y)
           end; cbn; lia.
Qed.

Section Verdicts.
Context `{Platform}.

(** X25. The aggregator is no milder than the URL analyzer: for a link that
    reaches the local analysis, the verdict of [analyzeLink] is at least as
    grave as the threat level that [analyzeURL] gives the URL, unless the
    context score is between 5 and 8. *)
Theorem aggregator_is_no_milder (url : string) (context : option string)
  (u : URL) (w : World) :
  new_URL url = Some u ->
  reaches_local_analysis w url u ->
  (let k := PhishingDetector.analyzeContext
              (PhishingDetector.context_or_url context url) in
   k < 5 \/ 9 <= k) ->
  exists ua a w',
    analyzeURL url = Ok ua
    /\ PhishingDetector.analyzeLink url context w = (Ok a, w')
    /\ rank (ua_threatLevel ua) <= rank (r_threatLevel a).
Proof.
  intros Hu Hr Hk. cbv zeta in Hk.
  destruct (analyzeLink_local url context u w Hu Hr) as (a & w' & E & El).
  destruct (localAnalysis_fields url context u a Hu El)
    as (Hleg & Hi & Hc & Ht & _).
  pose proof (analyzeContext_nonneg (PhishingDetector.context_or_url context url))
    as Hk0.
  unfold analyzeURL. rewrite (make_parsed url u Hu), getThreatLevel_parsed.
  unfold URLParser.isLegitimate_method. fold (fields_of url u).
  eexists _, a, w'. split; [reflexivity |]. split; [exact E |].
  cbn [ua_threatLevel]. rewrite Ht, final_is_verdict, Hleg, Hc.
  destruct (URLParser.isLegitimate (fields_of url u)); [cbn; lia |].
  set (k := PhishingDetector.analyzeContext _) in *.
  set (D := URLParser.detected (fields_of url u)) in *.
  apply Z.le_trans
    with (rank (verdict (Some k) (Z.of_nat (Spec.count high D))
                  (Z.of_nat (Spec.count medium D)) (count_severity low D)
                  (Z.of_nat (List.length D)))).
  - apply table_below_verdict; [apply count_severity_nonneg | lia].
  - rewrite Hi. apply verdict_monotone;
      rewrite ?count_severity_app, ?length_app, ?Nat2Z.inj_add;
      unfold Spec.count, count_severity; lia.
Qed.

(** X26. A match in the reputation data stands before the local analysis:
    when neither list matches the host and the reputation lookup finds the
    URL, [analyzeLink] returns the dangerous result with the single issue
    [phishtank_match], whatever the URL looks like; with no storage fault the
    link is counted as blocked, not as scanned, and one notification is
    raised for it. *)
Theorem reputation_match_blocks (url : string) (context : option string)
  (u : URL) (w : World) :
  new_URL url = Some u ->
  StorageManager.lookup url (threatCache w) = None ->
  fault_free w ->
  StorageManager.listed (url_hostname u) (whitelist w) = false ->
  StorageManager.listed (url_hostname u) (blacklist w) = false ->
  pt_found (reputation w url) = true ->
  exists w',
    PhishingDetector.analyzeLink url context w
    = (Ok (PhishingDetector.phishtank_result url (url_hostname u) (now w)
             (reputation w url)), w')
    /\ stats w'
       = Some (mkStats (linksScanned (stats_of w))
                 (threatsBlocked (stats_of w) + 1) (lastScan (stats_of w)))
    /\ notifications w'
       = (notifications w ++ [(url_hostname u, dangerous, 1)])%list.
Proof.
  intros Hu Hm Hf Hwl Hbl Hrep.
  pose proof Hf as Hf'. unfold fault_free in Hf'.
  rewrite (analyzeLink_miss url context w Hm).
  unfold fresh, try_catch, PhishingDetector.analyzeUncached. rewrite Hu.
  cbv zeta. unfold bind at 1. rewrite isWhitelisted_run.
  unfold read_whitelist. rewrite Hf'. cbn [sync_get_fails]. rewrite Hwl.
  unfold bind at 1. unfold ret at 1.
  unfold PhishingDetector.blacklistStage. unfold bind at 1.
  rewrite isBlacklisted_run.
  unfold read_blacklist. rewrite Hf'. cbn [sync_get_fails]. rewrite Hbl.
  unfold PhishingDetector.reputationStage. unfold bind at 1.
  rewrite checkPhishTank_run, Hrep.
  unfold bind at 1. unfold Date_now at 1.
  unfold bind at 1. rewrite (cacheThreat_run _ _ w Hf).
  unfold bind at 1. rewrite incrementBlocked_run by exact Hf.
  unfold bind at 1. unfold NotificationManager.showThreatBlocked. rewrite Hu.
  cbn [r_threatLevel PhishingDetector.phishtank_result].
  unfold ret. eexists. split; [reflexivity |]. split; reflexivity.
Qed.

End Verdicts.

Lemma aggregator_is_no_milder_witness :
  exists ua a w',
    analyzeURL (H := Example.platform) "http://192.168.1.1" = Ok ua
    /\ PhishingDetector.analyzeLink (H := Example.platform) "http://192.168.1.1"
         None (Example.empty_world 1000) = (Ok a, w')
    /\ rank (ua_threatLevel ua) <= rank (r_threatLevel a).
Proof.
  apply (aggregator_is_no_milder (H := Example.platform) "http://192.168.1.1"
           None (mkURL "http:" EmptyString "192.168.1.1" EmptyString "/" [])
           (Example.empty_world 1000)).
  - reflexivity.
  - repeat split; reflexivity.
  - vm_compute. left. reflexivity.
Defined.

Lemma reputation_match_blocks_witness :
  exists w',
    PhishingDetector.analyzeLink (H := Example.platform)
      "http://secure-login.example.net/c" None (scanning_world 3000)
    = (Ok (PhishingDetector.phishtank_result "http://secure-login.example.net/c"
             "secure-login.example.net" 3000
             (reputation (H := Example.platform) (scanning_world 3000)
                "http://secure-login.example.net/c")), w')
    /\ stats w' = Some (mkStats 0 1 None)
    /\ notifications w' = [("secure-login.example.net", dangerous, 1)].
Proof.
  apply (reputation_match_blocks (H := Example.platform)
           "http://secure-login.example.net/c" None
           (mkURL "http:" EmptyString "secure-login.example.net" EmptyString
              "/c" [])
           (scanning_world 3000)); reflexivity.
Defined.

(** ** The edit distance of the URL parser *)

Lemma last_first_row (s : string) (j : Z) :
  List.last (URLParser.first_row s j) 0 = j + Z.of_nat (String.length s).
Proof.
  revert j. induction s as [| c s IH]; intros j;
    cbn [URLParser.first_row String.length]; [cbn; lia |].
  assert (forall z, List.last (j :: URLParser.first_row s z) 0
                    = List.last (URLParser.first_row s z) 0) as Hc.
  { intros z. destruct s; reflexivity. }
  rewrite Hc, IH. lia.
Qed.

Lemma lev_rows_empty (t : string) (i : Z) :
  URLParser.lev_rows t EmptyString i [i - 1]
  = [i - 1 + Z.of_nat (String.length t)].
Proof.
  revert i. induction t as [| c t IH]; intros i;
    cbn [URLParser.lev_rows String.length].
  - f_equal. cbn. lia.
  - cbn [URLParser.lev_row].
    replace [i] with [(i + 1) - 1] by (f_equal; lia).
    rewrite IH. f_equal. lia.
Qed.

Lemma diagonal_row_cons (i j : Z) (columns : nat) :
  diagonal_row i j (S columns) = Z.abs (i - j) :: diagonal_row i (j + 1) columns.
Proof.
  unfold diagonal_row. cbn [seq map]. rewrite Z.add_0_r. f_equal.
  rewrite <- seq_shift, map_map. apply map_ext. intros k. f_equal. lia.
Qed.

Lemma lev_row_diagonal (c2 : ascii) (str1 : string) (i j : Z) :
  (forall k, j + Z.of_nat k = i -> String.get k str1 = Some c2) ->
  URLParser.lev_row c2 str1
    (diagonal_row (i - 1) (j - 1) (S (String.length str1)))
    (Z.abs (i - (j - 1)))
  = diagonal_row i j (String.length str1).
Proof.
  revert j. induction str1 as [| c1 str1 IH]; intros j Hget;
    cbn [String.length]; [reflexivity |].
  rewrite (diagonal_row_cons (i - 1) (j - 1)), (diagonal_row_cons i j).
  replace (j - 1 + 1) with j by lia.
  rewrite (diagonal_row_cons (i - 1) j).
  cbn [URLParser.lev_row].
  assert ((if Ascii.eqb c2 c1
           then Z.abs (i - 1 - (j - 1))
           else Z.min (Z.abs (i - 1 - (j - 1)) + 1)
                  (Z.min (Z.abs (i - (j - 1)) + 1) (Z.abs (i - 1 - j) + 1)))
          = Z.abs (i - j)) as Hv.
  { destruct (Ascii.eqb_spec c2 c1) as [_ | Hne]; [f_equal; lia |].
    assert (j <> i) as Hji.
    { intros ->. specialize (Hget 0%nat ltac:(lia)). cbn in Hget.
      inversion Hget. congruence. }
    lia. }
  rewrite Hv. f_equal.
  rewrite <- (diagonal_row_cons (i - 1) j).
  replace j with (j + 1 - 1) at 1 by lia.
  replace (Z.abs (i - j)) with (Z.abs (i - (j + 1 - 1))) by (f_equal; lia).
  apply IH. intros k Hk. specialize (Hget (S k) ltac:(lia)). exact Hget.
Qed.

Lemma get_after (pre : string) (c : ascii) (rest : string) :
  String.get (String.length pre) (pre ++ String c rest) = Some c.
Proof. induction pre as [| d pre IH]; [reflexivity | exact IH]. Qed.

Lemma length_append (a b : string) :
  String.length (a ++ b) = (String.length a + String.length b)%nat.
Proof. induction a as [| c a IH]; cbn; [reflexivity | rewrite IH; reflexivity]. Qed.

Lemma append_assoc_char (pre : string) (c : ascii) (rest : string) :
  ((pre ++ String c EmptyString) ++ rest)%string = (pre ++ String c rest)%string.
Proof. induction pre as [| d pre IH]; cbn; [reflexivity | rewrite IH; reflexivity]. Qed.

Lemma lev_rows_diagonal (s pre str2 : string) :
  s = (pre ++ str2)%string ->
  URLParser.lev_rows str2 s (Z.of_nat (String.length pre) + 1)
    (diagonal_row (Z.of_nat (String.length pre)) 0 (S (String.length s)))
  = diagonal_row (Z.of_nat (String.length s)) 0 (S (String.length s)).
Proof.
  revert pre. induction str2 as [| c2 str2 IH]; intros pre Hs;
    cbn [URLParser.lev_rows].
  - subst s. rewrite length_append. cbn [String.length].
    rewrite Nat.add_0_r. reflexivity.
  - set (i := Z.of_nat (String.length pre) + 1).
    assert (URLParser.lev_row c2 s
              (diagonal_row (Z.of_nat (String.length pre)) 0
                 (S (String.length s))) i
            = diagonal_row i 1 (String.length s)) as Hrow.
    { replace (Z.of_nat (String.length pre)) with (i - 1) by (unfold i; lia).
      replace i with (Z.abs (i - (1 - 1))) at 2 by (unfold i; lia).
      change 0 with (1 - 1) at 1.
      apply lev_row_diagonal. intros k Hk.
      assert (k = String.length pre) as -> by (unfold i in Hk; lia).
      rewrite Hs. apply get_after. }
    rewrite Hrow.
    replace (i :: diagonal_row i 1 (String.length s))
      with (diagonal_row i 0 (S (String.length s)))
      by (rewrite diagonal_row_cons; f_equal; unfold i; lia).
    specialize (IH (pre ++ String c2 EmptyString)%string).
    rewrite length_append in IH. cbn [String.length] in IH.
    replace (Z.of_nat (String.length pre + 1)) with i in IH by (unfold i; lia).
    apply IH. rewrite append_assoc_char. exact Hs.
Qed.

(** X27. The edit distance at its edges: [levenshteinDistance] gives a
    string and the empty string the length of the string, either way round,
    and a string and itself the distance zero. *)
Theorem levenshteinDistance_edges (s : string) :
  URLParser.levenshteinDistance s EmptyString = Z.of_nat (String.length s)
  /\ URLParser.levenshteinDistance EmptyString s = Z.of_nat (String.length s)
  /\ URLParser.levenshteinDistance s s = 0.
Proof.
  unfold URLParser.levenshteinDistance. repeat split.
  - cbn [URLParser.lev_rows]. rewrite last_first_row. lia.
  - cbn [URLParser.first_row]. change [0] with [1 - 1].
    rewrite lev_rows_empty. cbn. lia.
  - pose proof (lev_rows_diagonal s EmptyString s eq_refl) as Hd.
    cbn [String.length Z.of_nat Z.add] in Hd.
    assert (URLParser.first_row s 0 = diagonal_row 0 0 (S (String.length s)))
      as Hf.
    { assert (forall j, 0 <= j ->
                        URLParser.first_row s j
                        = diagonal_row 0 j (S (String.length s))) as G.
      { clear Hd. induction s as [| c s' IHs]; intros j Hj;
          cbn [URLParser.first_row String.length];
          rewrite diagonal_row_cons.
        - unfold diagonal_row. cbn [seq map]. f_equal. lia.
        - rewrite (IHs (j + 1)) by lia. f_equal. lia. }
      apply G. lia. }
    rewrite Hf, Hd. unfold diagonal_row. rewrite seq_S, map_app.
    cbn [map]. rewrite last_last. lia.
Qed.

(** ** The legitimate domains *)

Lemma split_aux_nonempty sep s cur : JS.split_aux sep s cur <> [].
Proof.
  revert cur. induction s as [| c s IH]; intros cur; cbn [JS.split_aux];
    [discriminate |].
  destruct (Ascii.eqb c sep); [discriminate | apply IH].
Qed.

Lemma append_empty_r (s : string) : (s ++ EmptyString)%string = s.
Proof. induction s as [| c s IH]; cbn; [reflexivity | rewrite IH; reflexivity]. Qed.

Lemma string_append_assoc (a b c : string) :
  ((a ++ b) ++ c)%string = (a ++ (b ++ c))%string.
Proof. induction a as [| x a IH]; cbn; [reflexivity | rewrite IH; reflexivity]. Qed.

(** Joining what [split] gave restores the string. *)
Lemma join_split_aux (sep : ascii) (s cur : string) :
  JS.join (String sep EmptyString) (JS.split_aux sep s cur) = (cur ++ s)%string.
Proof.
  unfold JS.join. revert cur. induction s as [| c s IH]; intros cur;
    cbn [JS.split_aux].
  - cbn. symmetry. apply append_empty_r.
  - destruct (Ascii.eqb_spec c sep) as [-> | Hne].
    + specialize (IH EmptyString).
      pose proof (split_aux_nonempty sep s EmptyString) as Hn.
      destruct (JS.split_aux sep s EmptyString) as [| x xs]; [contradiction |].
      cbn [String.concat]. cbn [String.concat] in IH. rewrite IH. reflexivity.
    + rewrite IH. apply append_assoc_char.
Qed.

Lemma concat_app (sep : string) (l1 l2 : list string) :
  l1 <> [] -> l2 <> [] ->
  String.concat sep (l1 ++ l2)
  = (String.concat sep l1 ++ sep ++ String.concat sep l2)%string.
Proof.
  intros H1 H2. induction l1 as [| x l1 IH]; [contradiction |].
  destruct l1 as [| y l1].
  - cbn [app]. destruct l2 as [| z l2]; [contradiction | reflexivity].
  - cbn [app String.concat] in *. rewrite IH by discriminate.
    rewrite !string_append_assoc. reflexivity.
Qed.

(** The domain is the host, or what follows a dot of the host. *)
Lemma extractDomain_suffix (hostname : string) :
  URLParser.extractDomain hostname = hostname
  \/ exists p,
       hostname = (p ++ "." ++ URLParser.extractDomain hostname)%string.
Proof.
  unfold URLParser.extractDomain. cbv zeta.
  destruct (Nat.leb_spec 2 (List.length (JS.split "." hostname))) as [H2 |];
    [| left; reflexivity].
  pose proof (join_split_aux "." hostname EmptyString) as Hj.
  cbn [append] in Hj. fold (JS.split "." hostname) in Hj.
  unfold JS.slice_last.
  set (parts := JS.split "." hostname) in *.
  set (k := (List.length parts - 2)%nat).
  destruct k as [| k'] eqn:Hk.
  - left. cbn [skipn]. exact Hj.
  - right. exists (JS.join "." (firstn (S k') parts)).
    rewrite <- Hj at 1. rewrite <- (firstn_skipn (S k') parts) at 1.
    unfold JS.join. apply concat_app.
    + intros E. apply (f_equal (@List.length string)) in E.
      rewrite length_firstn in E. cbn [List.length] in E. lia.
    + intros E. apply (f_equal (@List.length string)) in E.
      rewrite length_skipn in E. cbn [List.length] in E. lia.
Qed.

Lemma substring_all (s : string) : substring 0 (String.length s) s = s.
Proof. induction s as [| c s IH]; cbn; [reflexivity | rewrite IH; reflexivity]. Qed.

Lemma endsWith_append (p s : string) : JS.endsWith (p ++ s) s = true.
Proof.
  unfold JS.endsWith. cbv zeta. rewrite length_append.
  replace (String.length s <=? String.length p + String.length s)%nat with true
    by (symmetry; apply Nat.leb_le; lia).
  replace (String.length p + String.length s - String.length s)%nat
    with (String.length p) by lia.
  cbn [andb]. apply String.eqb_eq.
  induction p as [| c p IH]; cbn [String.length append substring];
    [apply substring_all | exact IH].
Qed.

(** Every legitimate domain is its own domain. *)
Lemma legitimate_domains_are_domains :
  forallb (fun d => String.eqb (URLParser.extractDomain d) d)
    Constants.LEGITIMATE_DOMAINS = true.
Proof. vm_compute. reflexivity. Qed.

Section LegitimateHosts.
Context `{Platform}.

(** X28. The hosts that count as legitimate: for a URL that parses,
    [isLegitimate] holds exactly when the host, in lower case, is one of the
    legitimate domains or ends with a dot and one of them; the comparison of
    the last two labels of the host adds nothing to that. *)
Theorem legitimate_hosts (url : string) (u : URL) :
  URLParser.isLegitimate (fields_of url u)
  = existsb (fun d =>
               String.eqb (toLowerCase (url_hostname u)) d
               || JS.endsWith (toLowerCase (url_hostname u)) ("." ++ d))
      Constants.LEGITIMATE_DOMAINS.
Proof.
  unfold URLParser.isLegitimate, fields_of.
  cbn [URLParser.domain URLParser.hostname].
  set (host := toLowerCase (url_hostname u)).
  apply existsb_ext_in. intros d Hd.
  destruct (JS.endsWith host ("." ++ d)) eqn:He; [rewrite !orb_true_r; reflexivity |].
  rewrite !orb_false_r.
  destruct (String.eqb_spec host d) as [-> | Hne].
  - pose proof legitimate_domains_are_domains as L.
    rewrite forallb_forall in L. exact (L d Hd).
  - destruct (String.eqb_spec (URLParser.extractDomain host) d) as [E | _];
      [| reflexivity].
    exfalso. destruct (extractDomain_suffix host) as [Hs | [p Hs]].
    + apply Hne. rewrite <- Hs. exact E.
    + rewrite E in Hs. rewrite Hs in He.
      rewrite endsWith_append in He. discriminate.
Qed.

End LegitimateHosts.

(** ** Reads that fail before writes that succeed *)

(** X29. A failed read is answered with the default, and the write that
    follows replaces what the store held: when [chrome.storage.sync.get]
    rejects and [set] does not, [addToWhitelist] leaves a white list with the
    new domain alone; when [chrome.storage.local.get] rejects and [set] does
    not, [incrementScanned] leaves the counters at one link scanned and no
    threat blocked, whatever they were. *)
Theorem failed_read_overwrites (domain : string) (w : World) :
  sync_get_fails (faults w) = true ->
  sync_set_fails (faults w) = false ->
  local_get_fails (faults w) = true ->
  local_set_fails (faults w) = false ->
  (exists w',
     StorageActions.addToWhitelist domain w = (Ok true, w')
     /\ whitelist w' = [domain])
  /\ (exists w',
        StorageManager.incrementScanned w = (Ok tt, w')
        /\ stats w' = Some (mkStats 1 0 (Some (now w)))).
Proof.
  intros Hsg Hss Hlg Hls. split.
  - unfold StorageActions.addToWhitelist, StorageManager.getWhitelist,
      try_catch, bind, sync_get, sync_set, ret.
    rewrite Hsg. cbv beta iota. cbn [JS.list_includes existsb negb].
    cbv beta iota. rewrite Hss. eexists. split; reflexivity.
  - unfold StorageManager.incrementScanned, StorageManager.updateStats,
      StorageManager.getStats, try_catch, bind, local_get, local_set,
      Date_now, ret.
    rewrite Hlg. cbv beta iota. rewrite Hlg. cbv beta iota. rewrite Hls.
    eexists. split; reflexivity.
Qed.

Lemma failed_read_overwrites_witness :
  (exists w',
     StorageActions.addToWhitelist "mit.edu" (reading_fails_world 1000)
     = (Ok true, w')
     /\ whitelist w' = ["mit.edu"])
  /\ (exists w',
        StorageManager.incrementScanned (reading_fails_world 1000) = (Ok tt, w')
        /\ stats w' = Some (mkStats 1 0 (Some 1000))).
Proof.
  apply (failed_read_overwrites "mit.edu" (reading_fails_world 1000));
    reflexivity.
Defined.
